(** * log.close: session lifecycle, event buffer, local store and git sync

    A shallow embedding of the TypeScript sources
    [src/session/types.ts], [src/session/eventBuffer.ts],
    [src/session/sessionManager.ts], [src/storage/localDb.ts] and
    [src/storage/gitSyncer.ts], with [getDailyLog] of
    [src/ui/timelineView.ts], together with the properties of the
    specification that concern them. *)

From Stdlib Require Import Ascii String ZifyBool.
From stdpp Require Import base numbers list strings gmap pretty.
From stdpp Require Import sorting.

Open Scope Z_scope.

(** ** Data model ([src/session/types.ts]) *)

(** A field declared [Date] in the interfaces.  At run time such a field
    holds a [Date] object (a time value in milliseconds since the epoch, or
    the Invalid Date), or, after [JSON.parse], the string or [null] that
    [JSON.stringify] wrote for it. *)
Inductive Temporal :=
| DateObj (ms : Z)
| InvalidDate
| DateStr (s : string)
| DateNull.

(** [type: 'terminal' | 'file' | 'clipboard'] *)
Inductive EventType := terminal | file | clipboard.

(** Values found in [metadata] by the watchers: booleans and strings (and
    numbers), all of which JSON stores unchanged. *)
Inductive MetaValue :=
| MBool (b : bool)
| MNum (n : Z)
| MStr (s : string).

(** [interface SessionEvent]; [extra] holds the string fields that the
    sub-interfaces add ([terminalName], [filePath], [changeType],
    [contentPreview]). *)
Record SessionEvent := {
  ev_id : string;
  timestamp : Temporal;
  ev_type : EventType;
  content : string;
  metadata : option (list (string * MetaValue));
  extra : list (string * string);
}.

(** [status: 'pending' | 'in_progress' | 'completed'] *)
Inductive TaskStatus := pending | in_progress | completed.

Record Task := {
  task_id : string;
  task_description : string;
  status : TaskStatus;
  task_createdAt : Temporal;
  completedAt : option Temporal;
  task_sessionId : string;
}.

Record Issue := {
  issue_id : string;
  issue_description : string;
  resolution : option string;
  resolved : bool;
  issue_sessionId : string;
  issue_createdAt : Temporal;
  resolvedAt : option Temporal;
}.

Record SessionSummary := {
  summary_text : string;
  tasksCompleted : list string;
  issuesResolved : list Issue;
  keyConversations : list string;
  filesModified : list string;
}.

Record Session := {
  id : string;
  startTime : Temporal;
  endTime : option Temporal;
  workspacePath : option string;
  events : list SessionEvent;
  summary : option SessionSummary;
  tasks : list Task;
  issues : list Issue;
  isActive : bool;
}.

(** [Omit<Task, 'id' | 'createdAt' | 'sessionId'>] *)
Record TaskInput := {
  ti_description : string;
  ti_status : TaskStatus;
  ti_completedAt : option Temporal;
}.

(** [Omit<Issue, 'id' | 'createdAt' | 'sessionId'>] *)
Record IssueInput := {
  ii_description : string;
  ii_resolution : option string;
  ii_resolved : bool;
  ii_resolvedAt : option Temporal;
}.

(** ** EventBuffer ([src/session/eventBuffer.ts]) *)

Module EventBuffer.
Section WithWorld.

(** What the registered callback acts on.  The callback is a closure of
    the owner of the buffer: it receives the batch and changes the owner's
    state [W]. *)
Context {W : Type}.

Record t := {
  buffer : list SessionEvent;
  maxSize : Z;
  flushCallback : option (list SessionEvent -> W -> W);
}.

(** [constructor(maxSize: number = 100)] *)
Definition new (maxSize : option Z) : t :=
  {| buffer := []; maxSize := default 100 maxSize; flushCallback := None |}.

(** [onFlush(callback)] *)
Definition onFlush (callback : list SessionEvent -> W -> W) (b : t) : t :=
  {| buffer := buffer b; maxSize := maxSize b; flushCallback := Some callback |}.

(** [flush()]: copies the buffer, empties it, calls the callback on a
    non-empty batch, returns the batch. *)
Definition flush (b : t) (w : W) : list SessionEvent * t * W :=
  let events := buffer b in
  let b' := {| buffer := []; maxSize := maxSize b; flushCallback := flushCallback b |} in
  match flushCallback b with
  | Some cb =>
      if (0 <? Z.of_nat (length events))
      then (events, b', cb events w)
      else (events, b', w)
  | None => (events, b', w)
  end.

(** [push(event)] *)
Definition push (event : SessionEvent) (b : t) (w : W) : t * W :=
  let b1 := {| buffer := buffer b ++ [event]; maxSize := maxSize b;
               flushCallback := flushCallback b |} in
  if (maxSize b1 <=? Z.of_nat (length (buffer b1)))
  then let '(_, b2, w2) := flush b1 w in (b2, w2)
  else (b1, w).

(** [getAll()], [size()], [clear()] *)
Definition getAll (b : t) : list SessionEvent := buffer b.
Definition size (b : t) : Z := Z.of_nat (length (buffer b)).
Definition clear (b : t) : t :=
  {| buffer := []; maxSize := maxSize b; flushCallback := flushCallback b |}.

(** A sequence of [push] calls, in order. *)
Fixpoint pushAll (es : list SessionEvent) (b : t) (w : W) : t * W :=
  match es with
  | [] => (b, w)
  | e :: es' => let '(b1, w1) := push e b w in pushAll es' b1 w1
  end.

End WithWorld.
Arguments t : clear implicits.

(** A callback that does nothing but record the batch it is called with:
    the owner's state is then the list of the callback's invocations. *)
Definition recorder : list SessionEvent -> list (list SessionEvent) -> list (list SessionEvent) :=
  fun batch calls => calls ++ [batch].

End EventBuffer.

(** ** Local time

    [Date.prototype.setHours] works on local time.  ECMAScript leaves to the
    host the offset of local time from UTC: [LocalTZA(t, true)] at an
    instant [t], and [LocalTZA(t, false)] for a local time [t], where the
    rules of the zone decide for a local time that a clock change repeats
    or skips. *)
Record TimeZone := {
  offsetAtInstant : Z -> Z;         (* [LocalTZA(t, true)], in milliseconds *)
  offsetOfLocalTime : Z -> Z;       (* [LocalTZA(t, false)], in milliseconds *)
}.

(** A zone that keeps one offset from UTC the whole time. *)
Definition fixedZone (offset : Z) : TimeZone :=
  {| offsetAtInstant := fun _ => offset; offsetOfLocalTime := fun _ => offset |}.

Definition msPerDay : Z := 86400000.

(** [TimeClip]: a time value more than 8.64e15 ms from the epoch is NaN
    ([None]). *)
Definition timeClip (t : Z) : option Z :=
  if (-8640000000000000 <=? t) && (t <=? 8640000000000000) then Some t else None.

(** [MakeTime(hour, min, sec, ms)] *)
Definition makeTime (hour min sec ms : Z) : Z :=
  hour * 3600000 + min * 60000 + sec * 1000 + ms.

(** [d.setHours(hour, min, sec, ms)] on a date with time value [t]: the
    local day of [t] is kept, the time within it is replaced
    ([MakeDate(Day(LocalTime(t)), MakeTime(...))]), and the local time so
    made is taken back to UTC and clipped. *)
Definition setHours (zone : TimeZone) (hour min sec ms : Z) (t : Z) : option Z :=
  let localTime := t + offsetAtInstant zone t in
  let date := localTime / msPerDay * msPerDay + makeTime hour min sec ms in
  timeClip (date - offsetOfLocalTime zone date).

(** [d.setHours(0, 0, 0, 0)] and [d.setHours(23, 59, 59, 999)] *)
Definition localMidnight (zone : TimeZone) (t : Z) : option Z := setHours zone 0 0 0 0 t.
Definition localEndOfDay (zone : TimeZone) (t : Z) : option Z := setHours zone 23 59 59 999 t.

(** ** The host: clock, random source, timers, configuration, observers *)

(** What the manager does to the outside: notifications shown by the editor
    and the calls of the registered observers, in the order they happen.  An
    observer is code of the caller; it is taken not to call the manager
    while it runs. *)
Inductive Effect :=
| ShowInformationMessage (msg : string)
| SessionEndCallback (observer : nat) (session : Session)
| EventCallback (observer : nat) (event : SessionEvent).

(** The run-time environment of the extension.  Code runs to completion on
    one thread, so the clock is read as [now] during a call and moves only
    between calls ([elapse]). *)
Record Host := {
  now : Z;                       (* [Date.now()], milliseconds since the epoch *)
  timeZone : TimeZone;           (* the zone of the system *)
  random : nat -> string;        (* successive [Math.random().toString(36).substr(2, 9)] *)
  draws : nat;                   (* how many of them were taken *)
  timers : gmap nat Z;           (* pending timeouts: handle to deadline *)
  nextTimer : nat;               (* next fresh handle *)
  sessionTimeoutMinutes : Z;     (* [getConfig().sessionTimeoutMinutes] *)
  workspaceFolder : option string;  (* [workspaceFolders?.[0]?.uri.fsPath] *)
  effects : list Effect;
}.

Definition emit (es : list Effect) (h : Host) : Host :=
  {| now := now h; timeZone := timeZone h; random := random h;
     draws := draws h; timers := timers h; nextTimer := nextTimer h;
     sessionTimeoutMinutes := sessionTimeoutMinutes h;
     workspaceFolder := workspaceFolder h; effects := effects h ++ es |}.

Definition withTimers (ts : gmap nat Z) (next : nat) (h : Host) : Host :=
  {| now := now h; timeZone := timeZone h; random := random h;
     draws := draws h; timers := ts; nextTimer := next;
     sessionTimeoutMinutes := sessionTimeoutMinutes h;
     workspaceFolder := workspaceFolder h; effects := effects h |}.

(** Time passes between two calls. *)
Definition elapse (dt : Z) (h : Host) : Host :=
  {| now := now h + dt; timeZone := timeZone h; random := random h;
     draws := draws h; timers := timers h; nextTimer := nextTimer h;
     sessionTimeoutMinutes := sessionTimeoutMinutes h;
     workspaceFolder := workspaceFolder h; effects := effects h |}.

(** [setTimeout(callback, delay)]: a fresh handle, due [delay] milliseconds
    from now.  Node replaces a delay below 1 or above 2147483647 by 1. *)
Definition effectiveDelay (delay : Z) : Z :=
  if (delay <? 1) || (2147483647 <? delay) then 1 else delay.

Definition setTimeout (delay : Z) (h : Host) : nat * Host :=
  (nextTimer h,
   withTimers (<[nextTimer h := now h + effectiveDelay delay]> (timers h))
              (S (nextTimer h)) h).

(** [clearTimeout(handle)]: the timeout is no longer pending. *)
Definition clearTimeout (handle : nat) (h : Host) : Host :=
  withTimers (delete handle (timers h)) (nextTimer h) h.

(** [generateId()]:
    [`${Date.now()}-${Math.random().toString(36).substr(2, 9)}`] *)
Definition generateId (h : Host) : string * Host :=
  (pretty (now h) +:+ "-" +:+ random h (draws h),
   {| now := now h; timeZone := timeZone h; random := random h;
      draws := S (draws h); timers := timers h; nextTimer := nextTimer h;
      sessionTimeoutMinutes := sessionTimeoutMinutes h;
      workspaceFolder := workspaceFolder h; effects := effects h |}).

(** ** Dates as JSON writes and reads them

    [JSON.stringify] writes a [Date] through [Date.prototype.toISOString];
    [new Date(string)] reads that text back.  Both belong to the language;
    they are written out here after ECMAScript so that the store can be run
    on concrete sessions. *)

Module IsoDate.

(** Time values of [Date] objects: at most 8.64e15 ms from the epoch. *)
Definition inRange (ms : Z) : bool :=
  (-8640000000000000 <=? ms) && (ms <=? 8640000000000000).

(** Civil date of a day number (days since 1970-01-01), proleptic
    Gregorian calendar. *)
Definition civilFromDays (days : Z) : Z * Z * Z :=
  let z := days + 719468 in
  let era := z / 146097 in
  let doe := z - era * 146097 in
  let yoe := (doe - doe / 1460 + doe / 36524 - doe / 146096) / 365 in
  let doy := doe - (365 * yoe + yoe / 4 - yoe / 100) in
  let mp := (5 * doy + 2) / 153 in
  let d := doy - (153 * mp + 2) / 5 + 1 in
  let m := if mp <? 10 then mp + 3 else mp - 9 in
  let y := yoe + era * 400 + (if m <=? 2 then 1 else 0) in
  (y, m, d).

(** Day number of a civil date. *)
Definition daysFromCivil (y m d : Z) : Z :=
  let y' := if m <=? 2 then y - 1 else y in
  let era := y' / 400 in
  let yoe := y' - era * 400 in
  let mp := if 2 <? m then m - 3 else m + 9 in
  let doy := (153 * mp + 2) / 5 + d - 1 in
  let doe := yoe * 365 + yoe / 4 - yoe / 100 + doy in
  era * 146097 + doe - 719468.

Definition digitChar (n : Z) : ascii :=
  ascii_of_nat (48 + Z.to_nat (n `mod` 10)).

(** [n] in decimal on exactly [w] digits, zero-padded. *)
Fixpoint pad (w : nat) (n : Z) : string :=
  match w with
  | O => EmptyString
  | S w' => String (digitChar (n / 10 ^ Z.of_nat w')) (pad w' (n `mod` 10 ^ Z.of_nat w'))
  end.

(** Years 0 to 9999 on four digits, the others signed on six. *)
Definition yearText (y : Z) : string :=
  if (0 <=? y) && (y <=? 9999) then pad 4 y
  else if y <? 0 then String "-" (pad 6 (- y))
  else String "+" (pad 6 y).

(** [Date.prototype.toISOString]: [YYYY-MM-DDTHH:mm:ss.sssZ]. *)
Definition toISOString (ms : Z) : string :=
  let days := ms / msPerDay in
  let tod := ms `mod` msPerDay in
  let '(y, m, d) := civilFromDays days in
  yearText y +:+ "-" +:+ pad 2 m +:+ "-" +:+ pad 2 d +:+ "T" +:+
  pad 2 (tod / 3600000) +:+ ":" +:+ pad 2 ((tod / 60000) `mod` 60) +:+ ":" +:+
  pad 2 ((tod / 1000) `mod` 60) +:+ "." +:+ pad 3 (tod `mod` 1000) +:+ "Z".

Definition digitValue (c : ascii) : option Z :=
  let n := Z.of_nat (nat_of_ascii c) in
  if (48 <=? n) && (n <=? 57) then Some (n - 48) else None.

(** Reads exactly [w] decimal digits. *)
Fixpoint readDigits (w : nat) (acc : Z) (s : string) : option (Z * string) :=
  match w with
  | O => Some (acc, s)
  | S w' =>
      match s with
      | String c s' => d ← digitValue c; readDigits w' (acc * 10 + d) s'
      | EmptyString => None
      end
  end.

(** Reads one given character. *)
Definition readChar (c : ascii) (s : string) : option string :=
  match s with
  | String c' s' => if Ascii.eqb c c' then Some s' else None
  | EmptyString => None
  end.

Definition readYear (s : string) : option (Z * string) :=
  match s with
  | String "+" s' => readDigits 6 0 s'
  | String "-" s' => '(y, rest) ← readDigits 6 0 s';
                     if y =? 0 then None else Some (- y, rest)
  | _ => readDigits 4 0 s
  end.

(** The date-time text of [toISOString] read back to a time value, the
    fields within the bounds of the format (month 01 to 12, day 01 to 31,
    hour 00 to 24, 24 only as 24:00:00.000); [None] for any other text.
    This is the one form [JSON.stringify] writes for a date; [Date.parse]
    reads others too (a date alone, a zone offset, forms of the engine's
    own), which are not written out here. *)
Definition parse (s : string) : option Z :=
  '(y, s) ← readYear s;
  s ← readChar "-" s;
  '(m, s) ← readDigits 2 0 s;
  s ← readChar "-" s;
  '(d, s) ← readDigits 2 0 s;
  s ← readChar "T" s;
  '(hh, s) ← readDigits 2 0 s;
  s ← readChar ":" s;
  '(mm, s) ← readDigits 2 0 s;
  s ← readChar ":" s;
  '(ss, s) ← readDigits 2 0 s;
  s ← readChar "." s;
  '(mss, s) ← readDigits 3 0 s;
  s ← readChar "Z" s;
  if negb (String.eqb s EmptyString) then None
  else if negb ((1 <=? m) && (m <=? 12) && (1 <=? d) && (d <=? 31)
                && (hh <=? 24) && (mm <=? 59) && (ss <=? 59)) then None
  else if (hh =? 24) && negb ((mm =? 0) && (ss =? 0) && (mss =? 0)) then None
  else
    let ms := daysFromCivil y m d * msPerDay
              + hh * 3600000 + mm * 60000 + ss * 1000 + mss in
    if inRange ms then Some ms else None.

End IsoDate.

(** ** Comparing the value of a date field

    [x >= d] and [x <= d] with [d] a [Date] turn both sides into numbers: a
    [Date] into its time value, [null] into 0, a string through
    [ToNumber]. *)

(** The number the value of a [Date] field compares as: [Some (Some ms)],
    or [Some None] for NaN.  A string that is a date text as JSON writes it
    is no numeric literal and gives NaN; what [ToNumber] makes of any other
    string is not modelled ([None]). *)
Definition valueOf (t : Temporal) : option (option Z) :=
  match t with
  | DateObj ms => Some (Some ms)
  | InvalidDate => Some None
  | DateStr s => match IsoDate.parse s with
                 | Some _ => Some None
                 | None => None
                 end
  | DateNull => Some (Some 0)
  end.

(** [a >= b] on two numbers: false as soon as one is NaN. *)
Definition geNum (a b : option Z) : bool :=
  match a, b with
  | Some x, Some y => y <=? x
  | _, _ => false
  end.

Definition leNum (a b : option Z) : bool := geNum b a.

(** [x >= d] and [x <= d], [d] the time value of a [Date]. *)
Definition geDate (x : Temporal) (d : option Z) : option bool :=
  v ← valueOf x; Some (geNum v d).

Definition leDate (x : Temporal) (d : option Z) : option bool :=
  v ← valueOf x; Some (leNum v d).

(** [list.filter(p)] for a test whose answer the model may not give. *)
Fixpoint filterKnown {A} (p : A -> option bool) (l : list A) : option (list A) :=
  match l with
  | [] => Some []
  | x :: l' =>
      keep ← p x;
      rest ← filterKnown p l';
      Some (if keep : bool then x :: rest else rest)
  end.

(** ** SessionManager ([src/session/sessionManager.ts]) *)

Module SessionManager.

(** The fields of the class.  The observers are named by numbers; calling
    one is an [Effect] of the host. *)
Record t := {
  currentSession : option Session;
  sessions : list Session;
  eventBuffer : EventBuffer.t (option Session);
  lastActivityTime : Z;
  sessionTimeoutTimer : option nat;
  onSessionEndCallbacks : list nat;
  onEventCallbacks : list nat;
}.

Definition withCurrent (cur : option Session) (m : t) : t :=
  {| currentSession := cur; sessions := sessions m; eventBuffer := eventBuffer m;
     lastActivityTime := lastActivityTime m; sessionTimeoutTimer := sessionTimeoutTimer m;
     onSessionEndCallbacks := onSessionEndCallbacks m; onEventCallbacks := onEventCallbacks m |}.

Definition withSessions (l : list Session) (m : t) : t :=
  {| currentSession := currentSession m; sessions := l; eventBuffer := eventBuffer m;
     lastActivityTime := lastActivityTime m; sessionTimeoutTimer := sessionTimeoutTimer m;
     onSessionEndCallbacks := onSessionEndCallbacks m; onEventCallbacks := onEventCallbacks m |}.

Definition withBuffer (b : EventBuffer.t (option Session)) (cur : option Session) (m : t) : t :=
  {| currentSession := cur; sessions := sessions m; eventBuffer := b;
     lastActivityTime := lastActivityTime m; sessionTimeoutTimer := sessionTimeoutTimer m;
     onSessionEndCallbacks := onSessionEndCallbacks m; onEventCallbacks := onEventCallbacks m |}.

Definition withLastActivity (time : Z) (m : t) : t :=
  {| currentSession := currentSession m; sessions := sessions m; eventBuffer := eventBuffer m;
     lastActivityTime := time; sessionTimeoutTimer := sessionTimeoutTimer m;
     onSessionEndCallbacks := onSessionEndCallbacks m; onEventCallbacks := onEventCallbacks m |}.

Definition withTimer (handle : option nat) (m : t) : t :=
  {| currentSession := currentSession m; sessions := sessions m; eventBuffer := eventBuffer m;
     lastActivityTime := lastActivityTime m; sessionTimeoutTimer := handle;
     onSessionEndCallbacks := onSessionEndCallbacks m; onEventCallbacks := onEventCallbacks m |}.

(** [this.currentSession.events.push(...events)] *)
Definition pushEvents (batch : list SessionEvent) (s : Session) : Session :=
  {| id := id s; startTime := startTime s; endTime := endTime s;
     workspacePath := workspacePath s; events := events s ++ batch;
     summary := summary s; tasks := tasks s; issues := issues s;
     isActive := isActive s |}.

(** The callback the constructor registers with [onFlush]. *)
Definition attribute (batch : list SessionEvent) (cur : option Session) : option Session :=
  match cur with
  | Some s => Some (pushEvents batch s)
  | None => None
  end.

(** [constructor()]: a buffer of 50 events whose flush goes to the current
    session.  [lastActivityTime] starts as [new Date()]. *)
Definition new (h : Host) : t :=
  {| currentSession := None; sessions := [];
     eventBuffer := EventBuffer.onFlush attribute (EventBuffer.new (Some 50));
     lastActivityTime := now h; sessionTimeoutTimer := None;
     onSessionEndCallbacks := []; onEventCallbacks := [] |}.

(** [this.currentSession.endTime = new Date(); this.currentSession.isActive = false] *)
Definition finalize (time : Z) (s : Session) : Session :=
  {| id := id s; startTime := startTime s; endTime := Some (DateObj time);
     workspacePath := workspacePath s; events := events s;
     summary := summary s; tasks := tasks s; issues := issues s;
     isActive := false |}.

(** [this.eventBuffer.flush()] as the manager calls it: on its own buffer,
    the callback acting on its own current session. *)
Definition flushBuffer (m : t) : t :=
  let '(_, b, cur) := EventBuffer.flush (eventBuffer m) (currentSession m) in
  withBuffer b cur m.

(** [if (this.sessionTimeoutTimer) clearTimeout(this.sessionTimeoutTimer)] *)
Definition clearSessionTimer (m : t) (h : Host) : Host :=
  match sessionTimeoutTimer m with
  | Some handle => clearTimeout handle h
  | None => h
  end.

(** [endSession()], the observers returning ([Observers.endSession] below
    has the observers that throw).  The branch where the session is gone
    after the flush cannot be taken (the callback never removes it); the
    code would fail there, the model returns [None]. *)
Definition endSession (m : t) (h : Host) : option Session * t * Host :=
  match currentSession m with
  | None => (None, m, h)
  | Some _ =>
      let m1 := flushBuffer m in
      match currentSession m1 with
      | None => (None, m1, h)
      | Some cur =>
          let endedSession := finalize (now h) cur in
          let m2 := withSessions (sessions m1 ++ [endedSession]) m1 in
          let h1 := clearSessionTimer m2 h in
          let h2 := emit (map (fun cb => SessionEndCallback cb endedSession)
                              (onSessionEndCallbacks m2)) h1 in
          let h3 := emit [ShowInformationMessage "Log Close: Session ended"] h2 in
          (Some endedSession, withCurrent None m2, h3)
      end
  end.

(** The callback passed to [setTimeout] by [resetSessionTimeout]. *)
Definition onSessionTimeout (m : t) (h : Host) : t * Host :=
  match currentSession m with
  | Some s =>
      if isActive s
      then let h1 := emit [ShowInformationMessage
                             "Log Close: Session ended due to inactivity"] h in
           let '(_, m', h') := endSession m h1 in (m', h')
      else (m, h)
  | None => (m, h)
  end.

(** [resetSessionTimeout()] *)
Definition resetSessionTimeout (m : t) (h : Host) : t * Host :=
  let h1 := clearSessionTimer m h in
  let timeoutMs := sessionTimeoutMinutes h1 * 60 * 1000 in
  let '(handle, h2) := setTimeout timeoutMs h1 in
  (withTimer (Some handle) m, h2).

(** The scheduler runs a pending timeout once its deadline is reached; a
    cleared timeout is not pending and never runs. *)
Definition fireTimer (handle : nat) (m : t) (h : Host) : t * Host :=
  match timers h !! handle with
  | Some deadline =>
      if deadline <=? now h
      then onSessionTimeout m (clearTimeout handle h)
      else (m, h)
  | None => (m, h)
  end.

(** [startSession()] *)
Definition startSession (m : t) (h : Host) : Session * t * Host :=
  let '(m1, h1) :=
    match currentSession m with
    | Some s => if isActive s
                then let '(_, m', h') := endSession m h in (m', h')
                else (m, h)
    | None => (m, h)
    end in
  let '(newId, h2) := generateId h1 in
  let session :=
    {| id := newId; startTime := DateObj (now h2); endTime := None;
       workspacePath := workspaceFolder h2; events := []; summary := None;
       tasks := []; issues := []; isActive := true |} in
  let m2 := withLastActivity (now h2) (withCurrent (Some session) m1) in
  let '(m3, h3) := resetSessionTimeout m2 h2 in
  (session, m3, emit [ShowInformationMessage "Log Close: Session started"] h3).

(** [addEvent(event)] *)
Definition addEvent (event : SessionEvent) (m : t) (h : Host) : t * Host :=
  let '(m1, h1) :=
    match currentSession m with
    | None => let '(_, m', h') := startSession m h in (m', h')
    | Some _ => (m, h)
    end in
  let m2 := withLastActivity (now h1) m1 in
  let '(m3, h3) := resetSessionTimeout m2 h1 in
  let '(b, cur) := EventBuffer.push event (eventBuffer m3) (currentSession m3) in
  let m4 := withBuffer b cur m3 in
  (m4, emit (map (fun cb => EventCallback cb event) (onEventCallbacks m4)) h3).

(** [getCurrentSession()], [getAllSessions()] *)
Definition getCurrentSession (m : t) : option Session := currentSession m.
Definition getAllSessions (m : t) : list Session := sessions m.

(** [getTodaySessions()] *)
Definition getTodaySessions (m : t) (h : Host) : option (list Session) :=
  let today := localMidnight (timeZone h) (now h) in
  filterKnown (fun s => geDate (startTime s) today) (sessions m).

(** [onSessionEnd(callback)], [onEvent(callback)] *)
Definition onSessionEnd (callback : nat) (m : t) : t :=
  {| currentSession := currentSession m; sessions := sessions m; eventBuffer := eventBuffer m;
     lastActivityTime := lastActivityTime m; sessionTimeoutTimer := sessionTimeoutTimer m;
     onSessionEndCallbacks := onSessionEndCallbacks m ++ [callback];
     onEventCallbacks := onEventCallbacks m |}.

Definition onEvent (callback : nat) (m : t) : t :=
  {| currentSession := currentSession m; sessions := sessions m; eventBuffer := eventBuffer m;
     lastActivityTime := lastActivityTime m; sessionTimeoutTimer := sessionTimeoutTimer m;
     onSessionEndCallbacks := onSessionEndCallbacks m;
     onEventCallbacks := onEventCallbacks m ++ [callback] |}.

(** [this.currentSession.tasks.push(newTask)] *)
Definition pushTask (task : Task) (s : Session) : Session :=
  {| id := id s; startTime := startTime s; endTime := endTime s;
     workspacePath := workspacePath s; events := events s;
     summary := summary s; tasks := tasks s ++ [task]; issues := issues s;
     isActive := isActive s |}.

(** [this.currentSession.issues.push(newIssue)] *)
Definition pushIssue (issue : Issue) (s : Session) : Session :=
  {| id := id s; startTime := startTime s; endTime := endTime s;
     workspacePath := workspacePath s; events := events s;
     summary := summary s; tasks := tasks s; issues := issues s ++ [issue];
     isActive := isActive s |}.

(** [addTask(task)]: [None] is the [null] result. *)
Definition addTask (task : TaskInput) (m : t) (h : Host) : option Task * t * Host :=
  match currentSession m with
  | None => (None, m, h)
  | Some cur =>
      let '(newId, h1) := generateId h in
      let newTask :=
        {| task_id := newId; task_description := ti_description task;
           status := ti_status task; task_createdAt := DateObj (now h1);
           completedAt := ti_completedAt task; task_sessionId := id cur |} in
      (Some newTask, withCurrent (Some (pushTask newTask cur)) m, h1)
  end.

(** [addIssue(issue)] *)
Definition addIssue (issue : IssueInput) (m : t) (h : Host) : option Issue * t * Host :=
  match currentSession m with
  | None => (None, m, h)
  | Some cur =>
      let '(newId, h1) := generateId h in
      let newIssue :=
        {| issue_id := newId; issue_description := ii_description issue;
           resolution := ii_resolution issue; resolved := ii_resolved issue;
           issue_sessionId := id cur; issue_createdAt := DateObj (now h1);
           resolvedAt := ii_resolvedAt issue |} in
      (Some newIssue, withCurrent (Some (pushIssue newIssue cur)) m, h1)
  end.

Definition setSummary (sm : option SessionSummary) (s : Session) : Session :=
  {| id := id s; startTime := startTime s; endTime := endTime s;
     workspacePath := workspacePath s; events := events s;
     summary := sm; tasks := tasks s; issues := issues s;
     isActive := isActive s |}.

(** [this.sessions.find((s) => s.id === sessionId)] followed by the
    assignment to the session found: the first match is changed. *)
Fixpoint updateFirst (sessionId : string) (sm : option SessionSummary)
    (l : list Session) : list Session :=
  match l with
  | [] => []
  | s :: l' => if String.eqb (id s) sessionId
               then setSummary sm s :: l'
               else s :: updateFirst sessionId sm l'
  end.

(** [updateSummary(sessionId, summary)] *)
Definition updateSummary (sessionId : string) (sm : option SessionSummary) (m : t) : t :=
  let m1 := withSessions (updateFirst sessionId sm (sessions m)) m in
  match currentSession m1 with
  | Some cur => if String.eqb (id cur) sessionId
                then withCurrent (Some (setSummary sm cur)) m1
                else m1
  | None => m1
  end.

(** [loadSessions(sessions)] *)
Definition loadSessions (l : list Session) (m : t) : t := withSessions l m.

(** [dispose()] *)
Definition dispose (m : t) (h : Host) : t * Host :=
  let h1 := clearSessionTimer m h in
  match currentSession m with
  | Some s => if isActive s
              then let '(_, m', h') := endSession m h1 in (m', h')
              else (m, h1)
  | None => (m, h1)
  end.

(** A run of [addEvent] calls, each after some time has passed. *)
Fixpoint addEvents (calls : list (Z * SessionEvent)) (m : t) (h : Host) : t * Host :=
  match calls with
  | [] => (m, h)
  | (dt, e) :: rest =>
      let '(m1, h1) := addEvent e m (elapse dt h) in addEvents rest m1 h1
  end.

End SessionManager.




(** ** LocalDb ([src/storage/localDb.ts]) *)

Module LocalDb.

(** *** What JSON does to a session

    [JSON.parse(JSON.stringify(x))] on the data model: a [Date] becomes its
    ISO text (the Invalid Date becomes [null]), a field that is [undefined]
    is left out, everything else is kept. *)

Definition jsonTemporal (t : Temporal) : Temporal :=
  match t with
  | DateObj ms => if IsoDate.inRange ms then DateStr (IsoDate.toISOString ms) else DateNull
  | InvalidDate => DateNull
  | DateStr s => DateStr s
  | DateNull => DateNull
  end.

Definition jsonEvent (e : SessionEvent) : SessionEvent :=
  {| ev_id := ev_id e; timestamp := jsonTemporal (timestamp e); ev_type := ev_type e;
     content := content e; metadata := metadata e; extra := extra e |}.

Definition jsonTask (t : Task) : Task :=
  {| task_id := task_id t; task_description := task_description t; status := status t;
     task_createdAt := jsonTemporal (task_createdAt t);
     completedAt := jsonTemporal <$> completedAt t;
     task_sessionId := task_sessionId t |}.

Definition jsonIssue (i : Issue) : Issue :=
  {| issue_id := issue_id i; issue_description := issue_description i;
     resolution := resolution i; resolved := resolved i;
     issue_sessionId := issue_sessionId i;
     issue_createdAt := jsonTemporal (issue_createdAt i);
     resolvedAt := jsonTemporal <$> resolvedAt i |}.

Definition jsonSummary (sm : SessionSummary) : SessionSummary :=
  {| summary_text := summary_text sm; tasksCompleted := tasksCompleted sm;
     issuesResolved := jsonIssue <$> issuesResolved sm;
     keyConversations := keyConversations sm; filesModified := filesModified sm |}.

Definition jsonSession (s : Session) : Session :=
  {| id := id s; startTime := jsonTemporal (startTime s);
     endTime := jsonTemporal <$> endTime s;
     workspacePath := workspacePath s;
     events := jsonEvent <$> events s;
     summary := jsonSummary <$> summary s;
     tasks := jsonTask <$> tasks s;
     issues := jsonIssue <$> issues s;
     isActive := isActive s |}.

(** *** The disk *)

(** The content of a file: a document [{ sessions: [...] }] as [save] writes
    it (held as the value [JSON.parse] gives for it), or text that does not
    parse.  (A file that parses to something else, which [save] never
    writes, has no place here.) *)
Inductive FileContent :=
| Document (sessions : list Session)
| Corrupt.

(** [writeFileSync] opens the file with flag ['w'], which empties it, and
    then writes.  When it fails, it fails at the open, and the file is as it
    was, or after it, and the file is left empty or with a part of the
    text. *)
Record Disk := {
  files : gmap string FileContent;
  writable : bool;                  (* whether [writeFileSync] succeeds *)
  opensBeforeFailing : bool;        (* when it fails: whether after the open *)
}.

(** *** The class *)

Record t := {
  dbPath : string;
  data : list Session;              (* [this.data.sessions] *)
}.

(** [new Date(x)].  A string is read as the date-time text of
    [toISOString]; a string in another form, which the engine may read, is
    given the Invalid Date. *)
Definition newDate (x : Temporal) : Temporal :=
  match x with
  | DateObj ms => DateObj ms
  | InvalidDate => InvalidDate
  | DateStr s => match IsoDate.parse s with
                 | Some ms => DateObj ms
                 | None => InvalidDate
                 end
  | DateNull => DateObj 0
  end.

(** Truthiness of the value of a date field. *)
Definition truthy (x : Temporal) : bool :=
  match x with
  | DateObj _ | InvalidDate => true
  | DateStr s => negb (String.eqb s EmptyString)
  | DateNull => false
  end.

(** [x ? new Date(x) : undefined] on an optional field. *)
Definition reviveOptional (x : option Temporal) : option Temporal :=
  match x with
  | Some v => if truthy v then Some (newDate v) else None
  | None => None
  end.

(** [reviveSession(raw)]: the fields named in the object literal are
    rebuilt; the spread [...raw] keeps the others ([id], [workspacePath],
    [summary], [isActive]) as parsed. *)
Definition reviveSession (raw : Session) : Session :=
  {| id := id raw;
     startTime := newDate (startTime raw);
     endTime := reviveOptional (endTime raw);
     workspacePath := workspacePath raw;
     events := (fun e =>
                  {| ev_id := ev_id e; timestamp := newDate (timestamp e);
                     ev_type := ev_type e; content := content e;
                     metadata := metadata e; extra := extra e |}) <$> events raw;
     summary := summary raw;
     tasks := (fun t =>
                 {| task_id := task_id t; task_description := task_description t;
                    status := status t;
                    task_createdAt := newDate (task_createdAt t);
                    completedAt := reviveOptional (completedAt t);
                    task_sessionId := task_sessionId t |}) <$> tasks raw;
     issues := (fun i =>
                  {| issue_id := issue_id i; issue_description := issue_description i;
                     resolution := resolution i; resolved := resolved i;
                     issue_sessionId := issue_sessionId i;
                     issue_createdAt := newDate (issue_createdAt i);
                     resolvedAt := reviveOptional (resolvedAt i) |}) <$> issues raw;
     isActive := isActive raw |}.

(** [load()]: a missing or unreadable file gives the empty store. *)
Definition load (path : string) (disk : Disk) : list Session :=
  match files disk !! path with
  | Some (Document raw) => reviveSession <$> raw
  | Some Corrupt => []
  | None => []
  end.

(** [save()]: the whole document is written.  A failed write is logged and
    not reported; it leaves the file as it was, or emptied or cut short, which
    is text that does not parse (the document is one object, closed by its
    last character). *)
Definition save (db : t) (disk : Disk) : Disk :=
  if writable disk
  then {| files := <[dbPath db := Document (jsonSession <$> data db)]> (files disk);
          writable := writable disk; opensBeforeFailing := opensBeforeFailing disk |}
  else if opensBeforeFailing disk
       then {| files := <[dbPath db := Corrupt]> (files disk);
               writable := writable disk;
               opensBeforeFailing := opensBeforeFailing disk |}
       else disk.

(** [constructor(storagePath)]: the file is [log-close-data.json] in the
    storage directory ([path.join]); the directory is created when missing,
    which the disk of the model does not record. *)
Definition new (storagePath : string) (disk : Disk) : t :=
  let path := storagePath +:+ "/log-close-data.json" in
  {| dbPath := path; data := load path disk |}.

(** [this.data.sessions.findIndex((s) => s.id === session.id)] with the
    assignment [sessions[index] = session], or the [push] when there is no
    such index. *)
Fixpoint upsert (session : Session) (l : list Session) : list Session :=
  match l with
  | [] => [session]
  | s :: l' => if String.eqb (id s) (id session)
               then session :: l'
               else s :: upsert session l'
  end.

(** [saveSession(session)] *)
Definition saveSession (session : Session) (db : t) (disk : Disk) : t * Disk :=
  let db' := {| dbPath := dbPath db; data := upsert session (data db) |} in
  (db', save db' disk).

(** [getSession(sessionId)] *)
Definition getSession (sessionId : string) (db : t) : option Session :=
  List.find (fun s => String.eqb (id s) sessionId) (data db).

(** [getSessionsByDate(date)], before the sort; [date] is a valid date
    given by its time value. *)
Definition sessionsOfDay (zone : TimeZone) (date : Z) (db : t) : option (list Session) :=
  let startOfDay := localMidnight zone date in
  let endOfDay := localEndOfDay zone date in
  filterKnown (fun s => ge ← geDate (startTime s) startOfDay;
                        if ge : bool then leDate (startTime s) endOfDay else Some false)
              (data db).

(** [deleteSession(sessionId)] *)
Definition deleteSession (sessionId : string) (db : t) (disk : Disk) : t * Disk :=
  let db' := {| dbPath := dbPath db;
                data := List.filter (fun s => negb (String.eqb (id s) sessionId)) (data db) |} in
  (db', save db' disk).

(** [close()] *)
Definition close (db : t) (disk : Disk) : Disk := save db disk.

End LocalDb.

(** ** GitSyncer ([src/storage/gitSyncer.ts]) *)

Module GitSyncer.

(** The calls made on the [simple-git] object. *)
Inductive GitCall :=
| CheckIsRepo
| Init
| AddRemote (url : string)
| Status
| Add
| Commit (message : string)
| PullRebase                    (* [pull('origin', 'main', { '--rebase': 'true' })] *)
| Push                          (* [push('origin', 'main')] *)
| PushUpstream.                 (* [push('origin', 'main', { '-u': null })] *)

(** What a run leaves behind, in order: git calls, console lines and
    notifications. *)
Inductive Event :=
| Git (call : GitCall)
| ConsoleLog (msg : string)
| ConsoleError (msg : string)
| InformationMessage (msg : string)
| WarningMessage (msg : string)
| ErrorMessage (msg : string)
| Progress (title : string)
| StartAutoSync (intervalMs : Z).

(** The repository and the remote as the syncer meets them: which calls
    fail (with which error), what [checkIsRepo] and [status] answer. *)
Record Env := {
  failure : GitCall -> option string;
  isRepo : bool;
  changedFiles : nat;               (* [status.files.length] *)
  clock : Z;                        (* [new Date()] for the commit message *)
  gitRepo : string;                 (* [getConfig().gitRepo] *)
  markdownOutputPath : string;
  gitSyncIntervalMinutes : Z;
  outputDirExists : bool;           (* [fs.existsSync(markdownOutputPath)] *)
  mkdirError : option string;       (* what [fs.mkdirSync] throws, if it does *)
  simpleGitError : option string;   (* what [simpleGit(path)] throws, if it does *)
}.

(** A computation either returns or throws (an [async] function: its
    promise resolves or rejects). *)
Inductive Result (A : Type) :=
| Returned (a : A)
| Thrown (error : string).
Arguments Returned {A} a.
Arguments Thrown {A} error.

Definition M (A : Type) : Type := Env -> list Event -> Result A * list Event.

Definition ret {A} (a : A) : M A := fun _ tr => (Returned a, tr).

Definition bind {A B} (c : M A) (k : A -> M B) : M B :=
  fun env tr =>
    match c env tr with
    | (Returned a, tr') => k a env tr'
    | (Thrown e, tr') => (Thrown e, tr')
    end.

(** [try { body } catch (e) { handler }] *)
Definition tryCatch {A} (body : M A) (handler : string -> M A) : M A :=
  fun env tr =>
    match body env tr with
    | (Returned a, tr') => (Returned a, tr')
    | (Thrown e, tr') => handler e env tr'
    end.

Definition note (ev : Event) : M unit := fun _ tr => (Returned tt, tr ++ [ev]).

Definition ask : M Env := fun env tr => (Returned env, tr).

(** A call that throws the given error when there is one. *)
Definition failWith (error : option string) : M unit :=
  fun _ tr =>
    match error with
    | Some e => (Thrown e, tr)
    | None => (Returned tt, tr)
    end.

(** [await this.git.<call>(...)] *)
Definition git (call : GitCall) : M unit :=
  fun env tr =>
    match failure env call with
    | Some e => (Thrown e, tr ++ [Git call])
    | None => (Returned tt, tr ++ [Git call])
    end.

#[local] Instance sync_ret : MRet M := @ret.
#[local] Instance sync_bind : MBind M := fun A B k c => bind c k.

(** The fields of the class; [hasGit] tells whether [this.git] is set. *)
Record t := {
  hasGit : bool;
  repoPath : string;
  autoSync : bool;                  (* whether [this.syncInterval] is set *)
  isInitialized : bool;
}.

Definition fresh : t :=
  {| hasGit := false; repoPath := EmptyString; autoSync := false; isInitialized := false |}.

Definition startsWith (p s : string) : bool := String.prefix p s.

(** [buildRemoteUrl(repo)] *)
Definition buildRemoteUrl (repo : string) : string :=
  if startsWith "https://" repo || startsWith "git@" repo then repo
  else "https://github.com/" +:+ repo +:+ ".git".

(** [sync()] *)
Definition sync (g : t) : M bool :=
  if negb (hasGit g) || negb (isInitialized g) then ret false
  else
    tryCatch
      (git Status ;;
       env ← ask;
       if Nat.eqb (changedFiles env) 0
       then note (ConsoleLog "Git sync: No changes to commit") ;; ret true
       else
         git Add ;;
         git (Commit ("Session log update: " +:+ IsoDate.toISOString (clock env))) ;;
         tryCatch (git PullRebase)
                  (fun pullError => note (ConsoleLog ("Git pull skipped: " +:+ pullError))) ;;
         tryCatch
           (git Push ;;
            note (InformationMessage "Log Close: Synced to GitHub") ;;
            ret true)
           (fun pushError =>
              tryCatch
                (git PushUpstream ;; ret true)
                (fun _ =>
                   note (ConsoleError ("Git push error: " +:+ pushError)) ;;
                   note (WarningMessage
                     "Log Close: Could not push to GitHub. Check your repository settings.") ;;
                   ret false)))
      (fun error => note (ConsoleError ("Git sync error: " +:+ error)) ;; ret false).

(** [vscode.window.withProgress(options, task)] as [forceSync] uses it: the
    task is started, and the promise [withProgress] returns is dropped, so
    neither the task's result nor its failure reaches the caller. *)
Definition withProgressDropped {A} (title : string) (task : M A) : M unit :=
  fun env tr =>
    let '(_, tr') := task env (tr ++ [Progress title]) in (Returned tt, tr').

(** [forceSync()] *)
Definition forceSync (g : t) : M bool :=
  withProgressDropped "Log Close: Syncing to GitHub..." (sync g) ;;
  ret true.

(** [isReady()], [getRepoPath()] *)
Definition isReady (g : t) : bool := isInitialized g.
Definition getRepoPath (g : t) : string := repoPath g.

(** [initialize()]: the new fields and the result.  The directory is made
    and the [simple-git] object built before the [try] block: what they throw
    is thrown by [initialize] (its promise rejects). *)
Definition initialize (g : t) : M (t * bool) :=
  env ← ask;
  if String.eqb (gitRepo env) EmptyString
  then note (ConsoleLog "Git sync disabled: no repository configured") ;; ret (g, false)
  else
    (if outputDirExists env then ret tt else failWith (mkdirError env)) ;;
    failWith (simpleGitError env) ;;
    let g1 := {| hasGit := true; repoPath := markdownOutputPath env;
                 autoSync := autoSync g; isInitialized := isInitialized g |} in
    tryCatch
      (git CheckIsRepo ;;
       (if isRepo env then ret tt
        else git Init ;;
             git (AddRemote (buildRemoteUrl (gitRepo env))) ;;
             note (InformationMessage "Log Close: Initialized git repository")) ;;
       note (StartAutoSync (gitSyncIntervalMinutes env * 60 * 1000)) ;;
       ret ({| hasGit := true; repoPath := repoPath g1; autoSync := true;
               isInitialized := true |}, true))
      (fun error =>
         note (ConsoleError ("Git initialization error: " +:+ error)) ;;
         note (ErrorMessage ("Log Close: Git initialization failed - " +:+ error)) ;;
         ret (g1, false)).

(** The git calls among the events of a run. *)
Definition gitCalls (tr : list Event) : list GitCall :=
  omap (fun ev => match ev with Git c => Some c | _ => None end) tr.

(** How many times push was attempted with upstream tracking. *)
Definition upstreamPushes (tr : list Event) : nat :=
  length (List.filter (fun c => match c with PushUpstream => true | _ => false end)
                      (gitCalls tr)).

End GitSyncer.

(** ** States of the manager

    What holds of the manager and the host between two calls, from the
    constructor on. *)

Module State.
Import SessionManager.

(** Every session the manager holds: the history and the current one. *)
Definition allSessions (m : t) : list Session :=
  sessions m ++ option_list (currentSession m).

(** How many of them have [isActive = true]. *)
Definition activeCount (m : t) : nat :=
  length (List.filter isActive (allSessions m)).

(** The events the manager has received and not handed to a finished
    session: those of the current session, then those still buffered. *)
Definition received (m : t) : list SessionEvent :=
  from_option events [] (currentSession m) ++ EventBuffer.buffer (eventBuffer m).

(** The delay of the inactivity timeout under the host's configuration. *)
Definition timeoutDelay (h : Host) : Z :=
  effectiveDelay (sessionTimeoutMinutes h * 60 * 1000).

Record wf (m : t) (h : Host) : Prop := {
  wf_history : Forall (fun s => isActive s = false) (sessions m);
  wf_current : forall s, currentSession m = Some s -> isActive s = true;
  wf_callback : EventBuffer.flushCallback (eventBuffer m) = Some attribute;
  wf_maxSize : EventBuffer.maxSize (eventBuffer m) = 50;
  wf_below : (length (EventBuffer.buffer (eventBuffer m)) < 50)%nat;
  wf_owner : currentSession m = None -> EventBuffer.buffer (eventBuffer m) = [];
  wf_timers : forall handle deadline,
      timers h !! handle = Some deadline -> sessionTimeoutTimer m = Some handle;
  wf_armed : forall s, currentSession m = Some s ->
      exists handle, sessionTimeoutTimer m = Some handle
        /\ timers h !! handle = Some (lastActivityTime m + timeoutDelay h);
  wf_handles : forall handle, sessionTimeoutTimer m = Some handle ->
      (handle < nextTimer h)%nat;
}.

(** The calls on the manager and the moves of the host. *)
Inductive Call :=
| StartSession
| EndSession
| AddEvent (event : SessionEvent)
| AddTask (task : TaskInput)
| AddIssue (issue : IssueInput)
| UpdateSummary (sessionId : string) (sm : option SessionSummary)
| OnSessionEnd (observer : nat)
| OnEvent (observer : nat)
| Dispose
| Elapse (dt : Z)
| FireTimer (handle : nat).

Definition run (c : Call) (m : t) (h : Host) : t * Host :=
  match c with
  | StartSession => let '(_, m', h') := startSession m h in (m', h')
  | EndSession => let '(_, m', h') := endSession m h in (m', h')
  | AddEvent e => addEvent e m h
  | AddTask task => let '(_, m', h') := addTask task m h in (m', h')
  | AddIssue issue => let '(_, m', h') := addIssue issue m h in (m', h')
  | UpdateSummary sid sm => (updateSummary sid sm m, h)
  | OnSessionEnd cb => (onSessionEnd cb m, h)
  | OnEvent cb => (onEvent cb m, h)
  | Dispose => dispose m h
  | Elapse dt => (m, elapse dt h)
  | FireTimer handle => fireTimer handle m h
  end.

Fixpoint runAll (cs : list Call) (m : t) (h : Host) : t * Host :=
  match cs with
  | [] => (m, h)
  | c :: cs' => let '(m1, h1) := run c m h in runAll cs' m1 h1
  end.

End State.

(** ** Sessions as the manager makes them

    Every date of a session the manager builds is a valid [Date] object. *)

Module Live.

Definition liveDate (t : Temporal) : bool :=
  match t with
  | DateObj ms => IsoDate.inRange ms
  | _ => false
  end.

Definition liveOptional (o : option Temporal) : bool :=
  match o with
  | Some t => liveDate t
  | None => true
  end.

Definition liveEvent (e : SessionEvent) : bool := liveDate (timestamp e).

Definition liveTask (t : Task) : bool :=
  liveDate (task_createdAt t) && liveOptional (completedAt t).

Definition liveIssue (i : Issue) : bool :=
  liveDate (issue_createdAt i) && liveOptional (resolvedAt i).

(** The issues nested in the summary of a session. *)
Definition summaryIssues (s : Session) : list Issue :=
  match summary s with
  | Some sm => issuesResolved sm
  | None => []
  end.

Definition liveSession (s : Session) : bool :=
  liveDate (startTime s) && liveOptional (endTime s)
  && forallb liveEvent (events s) && forallb liveTask (tasks s)
  && forallb liveIssue (issues s) && forallb liveIssue (summaryIssues s).

End Live.

(** ** The calendar day of the specification *)

Module Spec.

(** Modelled from the specification's words: a session whose [startTime]
    falls within the current local calendar day, that is in
    [local midnight today, local midnight today + 24h). *)
Definition inCalendarDay (zone : TimeZone) (today : Z) (s : Session) : bool :=
  match startTime s, localMidnight zone today with
  | DateObj t, Some midnight => (midnight <=? t) && (t <? midnight + 24 * 3600000)
  | _, _ => false
  end.

(** The history sessions of the current local calendar day. *)
Definition todaySessions (m : SessionManager.t) (h : Host) : list Session :=
  List.filter (inCalendarDay (timeZone h) (now h)) (SessionManager.sessions m).

End Spec.

Module Clock.
Import SessionManager State.

(** No session the manager holds starts after the present time. *)
Definition noFuture (m : t) (h : Host) : Prop :=
  Forall (fun st => forall t, st = DateObj t -> t <= now h)
         (startTime <$> allSessions m).

(** The clock does not go backwards during a run. *)
Definition forward (cs : list Call) : Prop :=
  Forall (fun c => match c with Elapse dt => 0 <= dt | _ => True end) cs.

End Clock.

(** ** Sample data *)

Definition sampleEvent (n : Z) : SessionEvent :=
  {| ev_id := pretty n; timestamp := DateObj n; ev_type := terminal;
     content := "ls"; metadata := None; extra := [] |}.

Definition sampleHost : Host :=
  {| now := 1793649600123; timeZone := fixedZone 3600000;
     random := fun n => "k3j9x2m" +:+ pretty n; draws := 0;
     timers := ∅; nextTimer := 0; sessionTimeoutMinutes := 10;
     workspaceFolder := Some "/home/dev/project"; effects := [] |}.

(** A finished session dated two days after [sampleHost]'s present. *)
Definition futureSession : Session :=
  {| id := "1793822400123-a1b2c3d4e"; startTime := DateObj 1793822400123;
     endTime := Some (DateObj 1793822460123); workspacePath := None;
     events := []; summary := None; tasks := []; issues := []; isActive := false |}.

(** A repository with changes to commit whose remote refuses every push. *)
Definition offlineEnv : GitSyncer.Env :=
  {| GitSyncer.failure := fun call =>
       match call with
       | GitSyncer.PullRebase => Some "couldn't find remote ref main"
       | GitSyncer.Push => Some "rejected"
       | GitSyncer.PushUpstream => Some "rejected"
       | _ => None
       end;
     GitSyncer.isRepo := true; GitSyncer.changedFiles := 1;
     GitSyncer.clock := 1793649600123; GitSyncer.gitRepo := "dev/session-logs";
     GitSyncer.markdownOutputPath := "/home/dev/session-logs";
     GitSyncer.gitSyncIntervalMinutes := 30;
     GitSyncer.outputDirExists := true; GitSyncer.mkdirError := None;
     GitSyncer.simpleGitError := None |}.

Definition readySyncer : GitSyncer.t :=
  {| GitSyncer.hasGit := true; GitSyncer.repoPath := "/home/dev/session-logs";
     GitSyncer.autoSync := true; GitSyncer.isInitialized := true |}.

(** A finished session with its summary, as the extension saves it after
    the summarizer has run: the summary lists one resolved issue, created
    and resolved at the time of the summary. *)
Definition summarizedSession : Session :=
  {| id := "1793649600123-k3j9x2m0"; startTime := DateObj 1793649600123;
     endTime := Some (DateObj 1793650200123);
     workspacePath := Some "/home/dev/project";
     events := [sampleEvent 1793649601000];
     summary := Some
       {| summary_text := "Fixed the build";
          tasksCompleted := ["fix build"];
          issuesResolved :=
            [{| issue_id := "issue-1793650201000";
                issue_description := "build fails";
                resolution := Some "pinned the compiler";
                resolved := true;
                issue_sessionId := "1793649600123-k3j9x2m0";
                issue_createdAt := DateObj 1793650201000;
                resolvedAt := Some (DateObj 1793650201000) |}];
          keyConversations := [];
          filesModified := ["Makefile"] |};
     tasks := []; issues := []; isActive := false |}.

Definition emptyDisk : LocalDb.Disk :=
  {| LocalDb.files := ∅; LocalDb.writable := true; LocalDb.opensBeforeFailing := false |}.

(** [saveSession(s)] on the store of [storagePath], then a new [LocalDb] on
    the same path (the reload), then [getSession(s.id)]. *)
Definition saveThenReload (storagePath : string) (s : Session) (disk : LocalDb.Disk)
    : option Session :=
  let db := LocalDb.new storagePath disk in
  let '(_, disk') := LocalDb.saveSession s db disk in
  LocalDb.getSession (id s) (LocalDb.new storagePath disk').

(** ** The sessions of the manager over time *)

Module History.
Import SessionManager State.

(** What a call may do to the session it finds current: nothing, or add
    flushed events, a task or an issue that names the session, or set the
    summary. *)
Inductive touched (s : Session) : Session -> Prop :=
| touched_not : touched s s
| touched_events batch : touched s (pushEvents batch s)
| touched_task task : task_sessionId task = id s -> touched s (pushTask task s)
| touched_issue issue : issue_sessionId issue = id s -> touched s (pushIssue issue s)
| touched_summary sm : touched s (setSummary sm s).

(** A session as [startSession] creates it at the host's present time. *)
Definition created (h : Host) (s : Session) : Prop :=
  startTime s = DateObj (now h) /\ endTime s = None /\ events s = []
  /\ summary s = None /\ tasks s = [] /\ issues s = [] /\ isActive s = true.

(** Every task and issue of a session names that session. *)
Definition owned (s : Session) : Prop :=
  Forall (fun task => task_sessionId task = id s) (tasks s)
  /\ Forall (fun issue => issue_sessionId issue = id s) (issues s).

Definition allOwned (m : t) : Prop := Forall owned (allSessions m).

(** A finished session: not active, ended, and not before it started. *)
Definition closed (s : Session) : Prop :=
  isActive s = false
  /\ exists t, endTime s = Some (DateObj t)
       /\ forall t0, startTime s = DateObj t0 -> t0 <= t.

(** A session apart from its summary. *)
Definition core (s : Session) : Session := setSummary None s.

(** [onSessionEnd] called for each observer of a list, in order. *)
Definition registerAll (observers : list nat) (m : t) : t :=
  foldl (fun m' cb => onSessionEnd cb m') m observers.

End History.

(** ** Observers that throw

    [SessionManager.endSession] is the function as long as the observers
    registered with [onSessionEnd] return.  An observer is code of the
    caller: when one throws, [forEach] stops there and the exception leaves
    [endSession]. *)

Module Observers.
Import SessionManager.

(** [callbacks.forEach((cb) => cb(endedSession))], [throws] telling which
    observers throw: the calls made, and whether the loop reached its end. *)
Fixpoint notifyAll (throws : nat -> bool) (callbacks : list nat) (endedSession : Session)
    : list Effect * bool :=
  match callbacks with
  | [] => ([], true)
  | cb :: rest =>
      if throws cb then ([SessionEndCallback cb endedSession], false)
      else let '(calls, finished) := notifyAll throws rest endedSession in
           (SessionEndCallback cb endedSession :: calls, finished)
  end.

(** [endSession()] with such observers.  [inl]: the call returns; [inr]: it
    throws, and leaves the manager and the host as given.  The session is
    finalized in place and pushed to the history before the observers run,
    and [this.currentSession = null] comes after them: when the call throws,
    the finished session is still the current one (the same object as the
    last of the history). *)
Definition endSession (throws : nat -> bool) (m : t) (h : Host)
    : (option Session * t * Host) + (t * Host) :=
  match currentSession m with
  | None => inl (None, m, h)
  | Some _ =>
      let m1 := flushBuffer m in
      match currentSession m1 with
      | None => inl (None, m1, h)
      | Some cur =>
          let endedSession := finalize (now h) cur in
          let m2 := withCurrent (Some endedSession)
                      (withSessions (sessions m1 ++ [endedSession]) m1) in
          let h1 := clearSessionTimer m2 h in
          let '(calls, finished) :=
            notifyAll throws (onSessionEndCallbacks m2) endedSession in
          let h2 := emit calls h1 in
          if finished
          then inl (Some endedSession, withCurrent None m2,
                    emit [ShowInformationMessage "Log Close: Session ended"] h2)
          else inr (m2, h2)
      end
  end.

End Observers.

(** ** Session ids *)


(** The manager after 49 events on a new session. *)
Definition busyState : SessionManager.t * Host :=
  SessionManager.addEvents ((fun n => (0, sampleEvent (Z.of_nat n))) <$> seq 0 49)
    (SessionManager.new sampleHost) sampleHost.

(** ** LocalDb: the sorted queries ([src/storage/localDb.ts]) *)

Module Queries.
Import LocalDb.

(** [d.getTime()] on the value of a date field: the time value of a [Date]
    object, NaN ([Some None]) for the Invalid Date; on a string or [null]
    the call throws ([None]). *)
Definition getTime (t : Temporal) : option (option Z) :=
  match t with
  | DateObj ms => Some (Some ms)
  | InvalidDate => Some None
  | DateStr _ => None
  | DateNull => None
  end.

(** The start of a session as a number the comparators can subtract. *)
Definition startMs (s : Session) : option Z :=
  match getTime (startTime s) with
  | Some (Some ms) => Some ms
  | _ => None
  end.

(** Where [x] goes in a list already in order: ahead of the first element
    it may precede. *)
Fixpoint insertSorted (before : Session -> Session -> bool) (x : Session)
    (l : list Session) : list Session :=
  match l with
  | [] => [x]
  | y :: l' => if before x y then x :: y :: l' else y :: insertSorted before x l'
  end.

(** [Array.prototype.sort] is stable: elements the comparator holds equal
    keep their order.  With a comparator that is a consistent order this
    fixes the result; it is the list built by inserting the elements from
    the last to the first. *)
Definition stableSort (before : Session -> Session -> bool) (l : list Session)
    : list Session :=
  foldr (insertSorted before) [] l.

(** [(a, b) => a.startTime.getTime() - b.startTime.getTime()] is at most 0
    (ascending), or the same with [a] and [b] exchanged (descending). *)
Definition startsBefore (descending : bool) (a b : Session) : bool :=
  let ka := default 0 (startMs a) in
  let kb := default 0 (startMs b) in
  if descending then kb <=? ka else ka <=? kb.

(** [list.sort(comparator)] with one of these comparators.  With fewer than
    two sessions the comparator is not called.  [None]: some start time is
    not a valid [Date]; the comparator then throws (a string, [null]) or
    answers NaN (the Invalid Date), which leaves the order to the engine. *)
Definition sortByStart (descending : bool) (l : list Session) : option (list Session) :=
  if (length l <=? 1)%nat then Some l
  else if forallb (fun s => bool_decide (is_Some (startMs s))) l
       then Some (stableSort (startsBefore descending) l)
       else None.

(** [getAllSessions()] *)
Definition getAllSessions (db : t) : option (list Session) :=
  sortByStart true (data db).

(** [getSessionsByDate(date)], [date] given by its time value. *)
Definition getSessionsByDate (zone : TimeZone) (date : Z) (db : t) : option (list Session) :=
  sessionsOfDay zone date db ≫= sortByStart false.

End Queries.

(** [extension.ts], at activation:
    [sessionManager.loadSessions(db.getAllSessions())]. *)
Definition loadExisting (db : LocalDb.t) (m : SessionManager.t) : option SessionManager.t :=
  existingSessions ← Queries.getAllSessions db;
  Some (SessionManager.loadSessions existingSessions m).

(** The file an earlier run left when it recorded [futureSession]. *)
Definition futureDisk : LocalDb.Disk :=
  (LocalDb.saveSession futureSession (LocalDb.new "/home/dev/.store" emptyDisk) emptyDisk).2.

(** An environment as [env] in which the pull answers as given. *)
Definition withPullOutcome (outcome : option string) (env : GitSyncer.Env) : GitSyncer.Env :=
  {| GitSyncer.failure := fun call =>
       match call with
       | GitSyncer.PullRebase => outcome
       | _ => GitSyncer.failure env call
       end;
     GitSyncer.isRepo := GitSyncer.isRepo env;
     GitSyncer.changedFiles := GitSyncer.changedFiles env;
     GitSyncer.clock := GitSyncer.clock env;
     GitSyncer.gitRepo := GitSyncer.gitRepo env;
     GitSyncer.markdownOutputPath := GitSyncer.markdownOutputPath env;
     GitSyncer.gitSyncIntervalMinutes := GitSyncer.gitSyncIntervalMinutes env;
     GitSyncer.outputDirExists := GitSyncer.outputDirExists env;
     GitSyncer.mkdirError := GitSyncer.mkdirError env;
     GitSyncer.simpleGitError := GitSyncer.simpleGitError env |}.

(** [offlineEnv] with nothing changed in the working copy. *)
Definition cleanEnv : GitSyncer.Env := 
  {| GitSyncer.failure := GitSyncer.failure offlineEnv;
     GitSyncer.isRepo := true; GitSyncer.changedFiles := 0;
     GitSyncer.clock := 1793649600123; GitSyncer.gitRepo := "dev/session-logs";
     GitSyncer.markdownOutputPath := "/home/dev/session-logs";
     GitSyncer.gitSyncIntervalMinutes := 30;
     GitSyncer.outputDirExists := true; GitSyncer.mkdirError := None;
     GitSyncer.simpleGitError := None |}.

(** A directory that is not a repository yet and in which [git init]
    fails. *)
Definition brokenEnv : GitSyncer.Env :=
  {| GitSyncer.failure := fun call =>
       match call with
       | GitSyncer.Init => Some "permission denied"
       | _ => None
       end;
     GitSyncer.isRepo := false; GitSyncer.changedFiles := 1;
     GitSyncer.clock := 1793649600123; GitSyncer.gitRepo := "dev/session-logs";
     GitSyncer.markdownOutputPath := "/home/dev/session-logs";
     GitSyncer.gitSyncIntervalMinutes := 30;
     GitSyncer.outputDirExists := true; GitSyncer.mkdirError := None;
     GitSyncer.simpleGitError := None |}.

(** An output path under a regular file: the directory is missing and
    cannot be made. *)
Definition unreachableEnv : GitSyncer.Env :=
  {| GitSyncer.failure := fun _ => None;
     GitSyncer.isRepo := false; GitSyncer.changedFiles := 0;
     GitSyncer.clock := 1793649600123; GitSyncer.gitRepo := "dev/session-logs";
     GitSyncer.markdownOutputPath := "/home/dev/notes.txt/logs";
     GitSyncer.gitSyncIntervalMinutes := 30;
     GitSyncer.outputDirExists := false;
     GitSyncer.mkdirError := Some "ENOTDIR: not a directory, mkdir '/home/dev/notes.txt/logs'";
     GitSyncer.simpleGitError := None |}.

(** ** The daily log ([src/ui/timelineView.ts], [getDailyLog]) *)

Module Timeline.

(** [interface DailyLog] *)
Record DailyLog := {
  date : string;
  log_sessions : list Session;
  totalTasks : nat;
  completedTasks : nat;
  issuesEncountered : nat;
  issuesResolved : nat;
}.

(** [s.split('T')[0]]: the text before the first [T]. *)
Fixpoint beforeT (s : string) : string :=
  match s with
  | EmptyString => EmptyString
  | String c s' => if Ascii.eqb c "T" then EmptyString else String c (beforeT s')
  end.

(** [task.status === 'completed'] *)
Definition isCompleted (task : Task) : bool :=
  match status task with
  | completed => true
  | _ => false
  end.

(** The body of the loop over the sessions: the four counters after one
    more session. *)
Definition count (acc : nat * nat * nat * nat) (session : Session) : nat * nat * nat * nat :=
  let '(total, done, met, solved) := acc in
  ((total + length (tasks session))%nat,
   (done + length (List.filter isCompleted (tasks session)))%nat,
   (met + length (issues session))%nat,
   (solved + length (List.filter resolved (issues session)))%nat).

(** [getDailyLog(date)], [date] a valid date given by its time value;
    [None] where [getSessionsByDate] gives none. *)
Definition getDailyLog (zone : TimeZone) (day : Z) (db : LocalDb.t) : option DailyLog :=
  sessions ← Queries.getSessionsByDate zone day db;
  let '(total, done, met, solved) := foldl count (0, 0, 0, 0)%nat sessions in
  Some {| date := beforeT (IsoDate.toISOString day);
          log_sessions := sessions;
          totalTasks := total; completedTasks := done;
          issuesEncountered := met; issuesResolved := solved |}.

End Timeline.

(** * Properties *)

(** ** EventBuffer *)

Section EventBufferFacts.
Context {W : Type}.
Implicit Types (b : EventBuffer.t W) (w : W) (es : list SessionEvent).

Lemma flush_empty b w :
  EventBuffer.buffer b = [] -> EventBuffer.flush b w = ([], b, w).
Proof.
  destruct b as [buf n cb]; simpl; intros ->.
  unfold EventBuffer.flush; simpl. by destruct cb.
Qed.

Lemma push_below e b w :
  Z.of_nat (length (EventBuffer.buffer b)) + 1 < EventBuffer.maxSize b ->
  EventBuffer.push e b w =
    ({| EventBuffer.buffer := EventBuffer.buffer b ++ [e];
        EventBuffer.maxSize := EventBuffer.maxSize b;
        EventBuffer.flushCallback := EventBuffer.flushCallback b |}, w).
Proof.
  intros Hlt. unfold EventBuffer.push; simpl.
  rewrite length_app; simpl.
  destruct (_ <=? _) eqn:E1; [lia | done].
Qed.

Lemma push_full e b w cb :
  EventBuffer.flushCallback b = Some cb ->
  EventBuffer.maxSize b <= Z.of_nat (length (EventBuffer.buffer b)) + 1 ->
  EventBuffer.push e b w =
    ({| EventBuffer.buffer := [];
        EventBuffer.maxSize := EventBuffer.maxSize b;
        EventBuffer.flushCallback := EventBuffer.flushCallback b |},
     cb (EventBuffer.buffer b ++ [e]) w).
Proof.
  intros Hcb Hge. unfold EventBuffer.push, EventBuffer.flush; simpl.
  rewrite Hcb, length_app; simpl.
  destruct (_ <=? _) eqn:E1; [| lia].
  destruct (0 <? _) eqn:E2; [done | lia].
Qed.

Lemma pushAll_app es1 es2 b w :
  EventBuffer.pushAll (es1 ++ es2) b w =
    let '(b1, w1) := EventBuffer.pushAll es1 b w in EventBuffer.pushAll es2 b1 w1.
Proof.
  revert b w; induction es1 as [|e es1 IH]; intros b w; simpl.
  - done.
  - destruct (EventBuffer.push e b w) as [b1 w1]. apply IH.
Qed.

Lemma pushAll_below es b w :
  Z.of_nat (length (EventBuffer.buffer b) + length es) < EventBuffer.maxSize b ->
  EventBuffer.pushAll es b w =
    ({| EventBuffer.buffer := EventBuffer.buffer b ++ es;
        EventBuffer.maxSize := EventBuffer.maxSize b;
        EventBuffer.flushCallback := EventBuffer.flushCallback b |}, w).
Proof.
  revert b; induction es as [|e es IH]; intros b Hlt; simpl.
  - rewrite app_nil_r. by destruct b.
  - simpl in Hlt. rewrite push_below by lia.
    rewrite IH; simpl; [| rewrite length_app; simpl; lia].
    by rewrite <- app_assoc.
Qed.

End EventBufferFacts.

(** C4. From an empty buffer of capacity [n] with a registered callback,
    pushing exactly [n] events calls the callback exactly once, with exactly
    these events in push order, and not before the last push: a callback that
    records its calls has recorded this one batch and nothing else, and any
    callback has acted once, on this batch.  And [flush] on an empty buffer
    calls no callback, whatever the callback. *)
Theorem C4_push_maxSize_flushes_once (n : Z) (es : list SessionEvent) :
  0 < n ->
  Z.of_nat (length es) = n ->
  let b0 := EventBuffer.onFlush EventBuffer.recorder (EventBuffer.new (Some n)) in
  EventBuffer.pushAll es b0 [] = (b0, [es])
  /\ (forall k, (k < length es)%nat ->
        snd (EventBuffer.pushAll (take k es) b0 []) = [])
  /\ (forall (W : Type) (cb : list SessionEvent -> W -> W) (w : W),
        EventBuffer.pushAll es (EventBuffer.onFlush cb (EventBuffer.new (Some n))) w
        = (EventBuffer.onFlush cb (EventBuffer.new (Some n)), cb es w))
  /\ (forall (W : Type) (b : EventBuffer.t W) (w : W),
        EventBuffer.buffer b = [] -> EventBuffer.flush b w = ([], b, w)).
Proof.
  intros Hpos Hlen b0.
  assert (Hall : forall (W : Type) (cb : list SessionEvent -> W -> W) (w : W),
             EventBuffer.pushAll es (EventBuffer.onFlush cb (EventBuffer.new (Some n))) w
             = (EventBuffer.onFlush cb (EventBuffer.new (Some n)), cb es w)).
  { intros W cb w.
    destruct es as [|e es'] using rev_ind; [simpl in Hlen; lia |]. clear IHes'.
    rewrite length_app in Hlen; simpl in Hlen.
    rewrite pushAll_app, pushAll_below by (simpl; lia).
    simpl. rewrite (push_full _ _ _ cb); simpl; [done | done | lia]. }
  split; [exact (Hall _ EventBuffer.recorder []) |]. split; [| split; [exact Hall |]].
  - intros k Hk. rewrite pushAll_below; [done |].
    simpl. rewrite length_take. lia.
  - intros W b w. apply flush_empty.
Qed.

Lemma C4_witness :
  EventBuffer.pushAll [sampleEvent 1; sampleEvent 2]
    (EventBuffer.onFlush EventBuffer.recorder (EventBuffer.new (Some 2))) []
  = (EventBuffer.onFlush EventBuffer.recorder (EventBuffer.new (Some 2)),
     [[sampleEvent 1; sampleEvent 2]]).
Proof.
  apply (C4_push_maxSize_flushes_once 2 [sampleEvent 1; sampleEvent 2]); [lia | reflexivity].
Defined.

(** ** SessionManager: what each call does *)

Section ManagerFacts.
Import SessionManager State.
Implicit Types (m : SessionManager.t) (h : Host) (s : Session).

Lemma pushEvents_nil s : pushEvents [] s = s.
Proof. destruct s; unfold pushEvents; simpl. by rewrite app_nil_r. Qed.

Lemma flushBuffer_eq m :
  EventBuffer.flushCallback (eventBuffer m) = Some attribute ->
  flushBuffer m =
    withBuffer (EventBuffer.clear (eventBuffer m))
               (attribute (EventBuffer.buffer (eventBuffer m)) (currentSession m)) m.
Proof.
  intros Hcb. unfold flushBuffer, EventBuffer.flush, EventBuffer.clear. rewrite Hcb.
  destruct (0 <? _) eqn:E; [done |].
  destruct (EventBuffer.buffer (eventBuffer m)); [| simpl in E; lia].
  destruct (currentSession m) as [s|]; simpl; [| done].
  by rewrite pushEvents_nil.
Qed.

Lemma push_attribute e m :
  EventBuffer.flushCallback (eventBuffer m) = Some attribute ->
  EventBuffer.maxSize (eventBuffer m) = 50 ->
  EventBuffer.push e (eventBuffer m) (currentSession m) =
    if decide (length (EventBuffer.buffer (eventBuffer m)) + 1 < 50)%nat
    then ({| EventBuffer.buffer := EventBuffer.buffer (eventBuffer m) ++ [e];
             EventBuffer.maxSize := 50;
             EventBuffer.flushCallback := Some attribute |}, currentSession m)
    else ({| EventBuffer.buffer := [];
             EventBuffer.maxSize := 50;
             EventBuffer.flushCallback := Some attribute |},
          attribute (EventBuffer.buffer (eventBuffer m) ++ [e]) (currentSession m)).
Proof.
  intros Hcb Hmax. case_decide.
  - rewrite push_below by lia. by rewrite Hcb, Hmax.
  - rewrite (push_full _ _ _ attribute) by (done || lia). by rewrite Hcb, Hmax.
Qed.

Lemma clearSessionTimer_timers m h :
  (forall handle deadline,
      timers h !! handle = Some deadline -> sessionTimeoutTimer m = Some handle) ->
  timers (clearSessionTimer m h) = ∅.
Proof.
  intros Hown. apply map_eq; intros k. rewrite lookup_empty.
  unfold clearSessionTimer.
  destruct (sessionTimeoutTimer m) as [handle|] eqn:Ht; simpl.
  - destruct (decide (handle = k)) as [-> | Hne].
    + apply lookup_delete_eq.
    + rewrite lookup_delete_ne by done.
      destruct (timers h !! k) eqn:Hk; [| done].
      apply Hown in Hk. congruence.
  - destruct (timers h !! k) eqn:Hk; [| done].
    apply Hown in Hk. congruence.
Qed.

Lemma clearSessionTimer_nextTimer m h :
  nextTimer (clearSessionTimer m h) = nextTimer h.
Proof. unfold clearSessionTimer. by destruct (sessionTimeoutTimer m). Qed.

Lemma clearSessionTimer_now m h : now (clearSessionTimer m h) = now h.
Proof. unfold clearSessionTimer. by destruct (sessionTimeoutTimer m). Qed.

Lemma clearSessionTimer_config m h :
  sessionTimeoutMinutes (clearSessionTimer m h) = sessionTimeoutMinutes h.
Proof. unfold clearSessionTimer. by destruct (sessionTimeoutTimer m). Qed.

Lemma clearSessionTimer_effects m h : effects (clearSessionTimer m h) = effects h.
Proof. unfold clearSessionTimer. by destruct (sessionTimeoutTimer m). Qed.



(** After [resetSessionTimeout] exactly one timeout is pending: the new
    one, due one delay from now. *)
Lemma resetSessionTimeout_spec m h m' h' :
  (forall handle deadline,
      timers h !! handle = Some deadline -> sessionTimeoutTimer m = Some handle) ->
  resetSessionTimeout m h = (m', h') ->
  m' = withTimer (Some (nextTimer h)) m
  /\ timers h' = {[ nextTimer h := now h + timeoutDelay h ]}
  /\ nextTimer h' = S (nextTimer h)
  /\ now h' = now h /\ effects h' = effects h
  /\ sessionTimeoutMinutes h' = sessionTimeoutMinutes h
  /\ draws h' = draws h.
Proof.
  intros Hown. unfold resetSessionTimeout, setTimeout. intros [= <- <-]; simpl.
  rewrite clearSessionTimer_timers, clearSessionTimer_nextTimer,
    clearSessionTimer_now, clearSessionTimer_config, clearSessionTimer_effects by done.
  repeat split; try done.
  unfold clearSessionTimer. by destruct (sessionTimeoutTimer m).
Qed.

Lemma endSession_none m h :
  currentSession m = None -> endSession m h = (None, m, h).
Proof. unfold endSession. by intros ->. Qed.

Lemma endSession_some m h s :
  EventBuffer.flushCallback (eventBuffer m) = Some attribute ->
  currentSession m = Some s ->
  let ended := finalize (now h) (pushEvents (EventBuffer.buffer (eventBuffer m)) s) in
  endSession m h =
    (Some ended,
     {| currentSession := None; sessions := sessions m ++ [ended];
        eventBuffer := EventBuffer.clear (eventBuffer m);
        lastActivityTime := lastActivityTime m;
        sessionTimeoutTimer := sessionTimeoutTimer m;
        onSessionEndCallbacks := onSessionEndCallbacks m;
        onEventCallbacks := onEventCallbacks m |},
     emit [ShowInformationMessage "Log Close: Session ended"]
       (emit (map (fun cb => SessionEndCallback cb ended) (onSessionEndCallbacks m))
          (clearSessionTimer m h))).
Proof.
  intros Hcb Hcur. unfold endSession. rewrite Hcur, flushBuffer_eq by done.
  rewrite Hcur. reflexivity.
Qed.

Lemma endSession_current m h : currentSession (endSession m h).1.2 = None.
Proof.
  unfold endSession. destruct (currentSession m) eqn:Hcur; simpl; [| done].
  by destruct (currentSession (flushBuffer m)) eqn:Hcur'.
Qed.

(** Starting while a session is active is ending it, then starting. *)
Lemma startSession_active m h s :
  currentSession m = Some s -> isActive s = true ->
  startSession m h = startSession (endSession m h).1.2 (endSession m h).2.
Proof.
  intros Hcur Hact. pose proof (endSession_current m h) as Hnone.
  unfold startSession at 1. rewrite Hcur, Hact.
  destruct (endSession m h) as [[r m1] h1]; simpl in *.
  unfold startSession. by rewrite Hnone.
Qed.

Lemma startSession_idle m h :
  (forall handle deadline,
      timers h !! handle = Some deadline -> sessionTimeoutTimer m = Some handle) ->
  currentSession m = None ->
  let session :=
    {| id := pretty (now h) +:+ "-" +:+ random h (draws h);
       startTime := DateObj (now h); endTime := None;
       workspacePath := workspaceFolder h; events := []; summary := None;
       tasks := []; issues := []; isActive := true |} in
  exists h',
    startSession m h =
      (session,
       {| currentSession := Some session; sessions := sessions m;
          eventBuffer := eventBuffer m; lastActivityTime := now h;
          sessionTimeoutTimer := Some (nextTimer h);
          onSessionEndCallbacks := onSessionEndCallbacks m;
          onEventCallbacks := onEventCallbacks m |}, h')
    /\ timers h' = {[ nextTimer h := now h + timeoutDelay h ]}
    /\ nextTimer h' = S (nextTimer h)
    /\ now h' = now h
    /\ effects h' = effects h ++ [ShowInformationMessage "Log Close: Session started"]
    /\ sessionTimeoutMinutes h' = sessionTimeoutMinutes h
    /\ draws h' = S (draws h).
Proof.
  intros Hown Hcur session. unfold startSession. rewrite Hcur.
  unfold generateId.
  match goal with
  | |- context [resetSessionTimeout ?m2 ?h2] =>
      destruct (resetSessionTimeout m2 h2) as [m3 h3] eqn:Hreset
  end.
  apply resetSessionTimeout_spec in Hreset as (-> & Ht & Hn & Hnow & Heff & Hcfg & Hdr);
    [| done].
  simpl in *. eexists; split; [reflexivity |]. simpl.
  repeat split; try done. by rewrite Heff.
Qed.

Lemma startSession_current m h :
  currentSession (startSession m h).1.2 = Some (startSession m h).1.1.
Proof.
  unfold startSession.
  destruct (match currentSession m with
            | Some s => if isActive s
                        then let '(_, m', h') := endSession m h in (m', h')
                        else (m, h)
            | None => (m, h)
            end) as [m1 h1].
  by unfold generateId, resetSessionTimeout, setTimeout.
Qed.

(** An event that arrives when there is no session starts one, and is then
    added as to any session. *)
Lemma addEvent_idle e m h :
  currentSession m = None ->
  addEvent e m h = addEvent e (startSession m h).1.2 (startSession m h).2.
Proof.
  intros Hcur. pose proof (startSession_current m h) as Hsome.
  unfold addEvent at 1. rewrite Hcur.
  destruct (startSession m h) as [[s1 m1] h1]; simpl in Hsome.
  cbn [fst snd]. unfold addEvent. by rewrite Hsome.
Qed.

Lemma addEvent_active e m h s :
  wf m h -> currentSession m = Some s ->
  exists b cur h',
    addEvent e m h =
      ({| currentSession := cur; sessions := sessions m; eventBuffer := b;
          lastActivityTime := now h; sessionTimeoutTimer := Some (nextTimer h);
          onSessionEndCallbacks := onSessionEndCallbacks m;
          onEventCallbacks := onEventCallbacks m |}, h')
    /\ EventBuffer.push e (eventBuffer m) (Some s) = (b, cur)
    /\ timers h' = {[ nextTimer h := now h + timeoutDelay h ]}
    /\ nextTimer h' = S (nextTimer h)
    /\ now h' = now h
    /\ effects h' = effects h ++ map (fun cb => EventCallback cb e) (onEventCallbacks m)
    /\ sessionTimeoutMinutes h' = sessionTimeoutMinutes h
    /\ draws h' = draws h.
Proof.
  intros Hwf Hcur. unfold addEvent. rewrite Hcur.
  match goal with
  | |- context [resetSessionTimeout ?m2 ?h2] =>
      destruct (resetSessionTimeout m2 h2) as [m3 h3] eqn:Hreset
  end.
  apply resetSessionTimeout_spec in Hreset as (-> & Ht & Hn & Hnow & Heff & Hcfg & Hdr);
    [| apply Hwf].
  simpl. rewrite Hcur.
  destruct (EventBuffer.push e (eventBuffer m) (Some s)) as [b cur] eqn:Hpush.
  eexists b, cur, _. split; [reflexivity |]. simpl.
  repeat split; try done. by rewrite Heff.
Qed.

(** *** The invariant is kept by every call *)

Lemma wf_new h : timers h = ∅ -> wf (new h) h.
Proof.
  intros Ht. split; simpl; try done.
  - lia.
  - intros handle deadline. by rewrite Ht, lookup_empty.
Qed.

Lemma wf_elapse m h dt : wf m h -> wf m (elapse dt h).
Proof. intros [? ? ? ? ? ? ? ? ?]. by split. Qed.

Lemma wf_endSession m h : wf m h -> wf (endSession m h).1.2 (endSession m h).2.
Proof.
  intros Hwf. destruct (currentSession m) as [s|] eqn:Hcur.
  - rewrite (endSession_some m h s) by (done || apply Hwf). simpl.
    destruct Hwf as [Hhist Hact Hcb Hmax Hlen Hown Htim Harm Hhan].
    split; simpl; try done.
    + apply Forall_app; split; [done |]. by constructor.
    + lia.
    + intros handle deadline. rewrite clearSessionTimer_timers by done.
      by rewrite lookup_empty.
    + intros handle Hh. rewrite clearSessionTimer_nextTimer. by apply Hhan.
  - by rewrite endSession_none.
Qed.

Lemma wf_startSession m h : wf m h -> wf (startSession m h).1.2 (startSession m h).2.
Proof.
  assert (Hidle : forall m h, wf m h -> currentSession m = None ->
            wf (startSession m h).1.2 (startSession m h).2).
  { clear m h. intros m h Hwf Hcur.
    destruct (startSession_idle m h) as (h' & -> & Ht & Hn & Hnow & Heff & Hcfg & Hdr);
      [apply Hwf | done |]. simpl.
    destruct Hwf as [Hhist Hact Hcb Hmax Hlen Hown Htim Harm Hhan].
    split; simpl; try done.
    - by intros s [= <-].
    - intros handle deadline. rewrite Ht.
      intros [-> _]%lookup_singleton_Some. done.
    - intros s _. exists (nextTimer h). split; [done |].
      rewrite Ht, lookup_singleton_eq. unfold timeoutDelay. by rewrite Hcfg.
    - intros handle [= <-]. lia. }
  intros Hwf. destruct (currentSession m) as [s|] eqn:Hcur.
  - rewrite (startSession_active m h s) by (done || by apply Hwf).
    apply Hidle; [by apply wf_endSession | apply endSession_current].
  - by apply Hidle.
Qed.

Lemma wf_addEvent e m h : wf m h -> wf (addEvent e m h).1 (addEvent e m h).2.
Proof.
  assert (Hactive : forall m h s, wf m h -> currentSession m = Some s ->
            wf (addEvent e m h).1 (addEvent e m h).2).
  { clear m h. intros m h s Hwf Hcur.
    destruct (addEvent_active e m h s Hwf Hcur)
      as (b & cur & h' & -> & Hpush & Ht & Hn & Hnow & Heff & Hcfg & Hdr). simpl.
    destruct Hwf as [Hhist Hact Hcb Hmax Hlen Hown Htim Harm Hhan].
    rewrite <- Hcur, push_attribute in Hpush by done.
    assert (Hcase : is_Some cur /\ (forall s', cur = Some s' -> isActive s' = true)
              /\ EventBuffer.flushCallback b = Some attribute
              /\ EventBuffer.maxSize b = 50
              /\ (length (EventBuffer.buffer b) < 50)%nat).
    { case_decide; injection Hpush as <- <-; rewrite Hcur; simpl.
      - rewrite length_app; simpl. repeat split; eauto with lia.
        intros s' [= <-]. by apply Hact.
      - repeat split; eauto with lia.
        intros s' [= <-]. simpl. by apply Hact. }
    destruct Hcase as ([s' Hs'] & Hact' & Hcb' & Hmax' & Hlen').
    split; simpl; try done.
    - intros Hnone. congruence.
    - intros handle deadline. rewrite Ht.
      intros [-> _]%lookup_singleton_Some. done.
    - intros s0 _. exists (nextTimer h). split; [done |].
      rewrite Ht, lookup_singleton_eq. unfold timeoutDelay. by rewrite Hcfg.
    - intros handle [= <-]. lia. }
  intros Hwf. destruct (currentSession m) as [s|] eqn:Hcur.
  - by apply (Hactive m h s).
  - rewrite addEvent_idle by done.
    pose proof (startSession_current m h) as Hsome.
    eapply Hactive; [by apply wf_startSession | exact Hsome].
Qed.

Lemma wf_endSession_cleared m h h0 :
  wf m h0 -> timers h = ∅ -> nextTimer h = nextTimer h0 ->
  wf (endSession m h).1.2 (endSession m h).2.
Proof.
  intros [Hhist Hact Hcb Hmax Hlen Hown Htim Harm Hhan] Ht Hn.
  assert (Hnone : forall handle deadline,
             timers h !! handle = Some deadline -> sessionTimeoutTimer m = Some handle).
  { intros handle deadline. by rewrite Ht, lookup_empty. }
  destruct (currentSession m) as [s|] eqn:Hcur.
  - rewrite (endSession_some m h s) by done. simpl.
    split; simpl; try done.
    + apply Forall_app; split; [done |]. by constructor.
    + lia.
    + intros handle deadline. rewrite clearSessionTimer_timers by done.
      by rewrite lookup_empty.
    + intros handle Hh. rewrite clearSessionTimer_nextTimer, Hn. by apply Hhan.
  - rewrite endSession_none by done. simpl.
    split; try done.
    + intros s. by rewrite Hcur.
    + intros _. by apply Hown.
    + intros s. by rewrite Hcur.
    + intros handle Hh. rewrite Hn. by apply Hhan.
Qed.

Lemma wf_dispose m h : wf m h -> wf (dispose m h).1 (dispose m h).2.
Proof.
  intros Hwf. unfold dispose.
  assert (Ht : timers (clearSessionTimer m h) = ∅)
    by (apply clearSessionTimer_timers, Hwf).
  pose proof (wf_endSession_cleared m (clearSessionTimer m h) h Hwf Ht
                (clearSessionTimer_nextTimer m h)) as Hend.
  destruct (currentSession m) as [s|] eqn:Hcur.
  - rewrite (wf_current _ _ Hwf s Hcur).
    by destruct (endSession m (clearSessionTimer m h)) as [[r m'] h'].
  - by rewrite endSession_none in Hend.
Qed.

Lemma wf_fireTimer handle m h : wf m h -> wf (fireTimer handle m h).1 (fireTimer handle m h).2.
Proof.
  intros Hwf. unfold fireTimer.
  destruct (timers h !! handle) as [deadline|] eqn:Hpending; [| done].
  destruct (deadline <=? now h); [| done].
  assert (Hmine : sessionTimeoutTimer m = Some handle)
    by (eapply wf_timers; eauto).
  assert (Hclear : clearTimeout handle h = clearSessionTimer m h)
    by (unfold clearSessionTimer; by rewrite Hmine).
  rewrite Hclear.
  assert (Ht : timers (clearSessionTimer m h) = ∅)
    by (apply clearSessionTimer_timers, Hwf).
  unfold onSessionTimeout.
  destruct (currentSession m) as [s|] eqn:Hcur.
  - rewrite (wf_current _ _ Hwf s Hcur).
    match goal with
    | |- context [endSession m ?h1] =>
        pose proof (wf_endSession_cleared m h1 h Hwf Ht
                      (clearSessionTimer_nextTimer m h)) as Hend;
        by destruct (endSession m h1) as [[r m'] h']
    end.
  - pose proof (wf_endSession_cleared m (clearSessionTimer m h) h Hwf Ht
                  (clearSessionTimer_nextTimer m h)) as Hend.
    by rewrite endSession_none in Hend.
Qed.

Lemma wf_addTask task m h : wf m h -> wf (addTask task m h).1.2 (addTask task m h).2.
Proof.
  intros [Hhist Hact Hcb Hmax Hlen Hown Htim Harm Hhan]. unfold addTask.
  destruct (currentSession m) as [s|] eqn:Hcur; simpl; [| by split; rewrite ?Hcur].
  split; simpl; try done.
  - intros s' [= <-]. simpl. by apply Hact.
  - intros s' _. by apply (Harm s).
Qed.

Lemma wf_addIssue issue m h : wf m h -> wf (addIssue issue m h).1.2 (addIssue issue m h).2.
Proof.
  intros [Hhist Hact Hcb Hmax Hlen Hown Htim Harm Hhan]. unfold addIssue.
  destruct (currentSession m) as [s|] eqn:Hcur; simpl; [| by split; rewrite ?Hcur].
  split; simpl; try done.
  - intros s' [= <-]. simpl. by apply Hact.
  - intros s' _. by apply (Harm s).
Qed.

Lemma updateFirst_inactive sid sm l :
  Forall (fun s => isActive s = false) l ->
  Forall (fun s => isActive s = false) (updateFirst sid sm l).
Proof.
  induction 1 as [|s l Hs Hl IH]; simpl; [done |].
  destruct (String.eqb (id s) sid); by constructor.
Qed.

Lemma wf_updateSummary sid sm m h : wf m h -> wf (updateSummary sid sm m) h.
Proof.
  intros [Hhist Hact Hcb Hmax Hlen Hown Htim Harm Hhan]. unfold updateSummary. simpl.
  destruct (currentSession m) as [s|] eqn:Hcur; simpl.
  - destruct (String.eqb (id s) sid); split; simpl; rewrite ?Hcur;
      try done; try (by apply updateFirst_inactive).
    + intros s' [= <-]. simpl. by apply Hact.
    + intros s' _. by apply (Harm s).
  - split; simpl; rewrite ?Hcur; try done. by apply updateFirst_inactive.
Qed.

Lemma wf_onSessionEnd cb m h : wf m h -> wf (onSessionEnd cb m) h.
Proof. intros [? ? ? ? ? ? ? ? ?]. by split. Qed.

Lemma wf_onEvent cb m h : wf m h -> wf (onEvent cb m) h.
Proof. intros [? ? ? ? ? ? ? ? ?]. by split. Qed.

(** Sessions read back from the store are finished ones. *)
Lemma wf_loadSessions l m h :
  Forall (fun s => isActive s = false) l -> wf m h -> wf (loadSessions l m) h.
Proof. intros Hl [? ? ? ? ? ? ? ? ?]. by split. Qed.

Lemma wf_run c m h : wf m h -> wf (run c m h).1 (run c m h).2.
Proof.
  intros Hwf. destruct c; simpl.
  - pose proof (wf_startSession m h Hwf). by destruct (startSession m h) as [[? ?] ?].
  - pose proof (wf_endSession m h Hwf). by destruct (endSession m h) as [[? ?] ?].
  - by apply wf_addEvent.
  - pose proof (wf_addTask task m h Hwf). by destruct (addTask task m h) as [[? ?] ?].
  - pose proof (wf_addIssue issue m h Hwf). by destruct (addIssue issue m h) as [[? ?] ?].
  - by apply wf_updateSummary.
  - by apply wf_onSessionEnd.
  - by apply wf_onEvent.
  - by apply wf_dispose.
  - by apply wf_elapse.
  - by apply wf_fireTimer.
Qed.

(** Every state reached from the constructor satisfies the invariant. *)
Lemma wf_runAll cs m h : wf m h -> wf (runAll cs m h).1 (runAll cs m h).2.
Proof.
  revert m h; induction cs as [|c cs IH]; intros m h Hwf; simpl; [done |].
  pose proof (wf_run c m h Hwf) as Hstep.
  destruct (run c m h) as [m1 h1]. by apply IH.
Qed.

Lemma wf_activeCount m h :
  wf m h ->
  activeCount m = match currentSession m with Some _ => 1%nat | None => 0%nat end.
Proof.
  intros Hwf. unfold activeCount, allSessions.
  rewrite List.filter_app, length_app.
  assert (Hhist : List.filter isActive (sessions m) = []).
  { pose proof (wf_history _ _ Hwf) as Hall.
    induction Hall as [|s l Hs Hl IH]; simpl; [done |]. by rewrite Hs. }
  rewrite Hhist. simpl.
  destruct (currentSession m) as [s|] eqn:Hcur; simpl; [| done].
  by rewrite (wf_current _ _ Hwf s Hcur).
Qed.

(** *** Where the events go *)

Lemma addEvent_received e m h :
  wf m h ->
  sessions (addEvent e m h).1 = sessions m
  /\ received (addEvent e m h).1 = received m ++ [e]
  /\ exists s, currentSession (addEvent e m h).1 = Some s
       /\ forall s0, currentSession m = Some s0 ->
            id s = id s0 /\ startTime s = startTime s0.
Proof.
  assert (Hactive : forall m h s0, wf m h -> currentSession m = Some s0 ->
            sessions (addEvent e m h).1 = sessions m
            /\ received (addEvent e m h).1 = received m ++ [e]
            /\ exists s, currentSession (addEvent e m h).1 = Some s
                 /\ id s = id s0 /\ startTime s = startTime s0).
  { clear m h. intros m h s0 Hwf Hcur.
    destruct (addEvent_active e m h s0 Hwf Hcur) as (b & cur & h' & -> & Hpush & _).
    rewrite <- Hcur, push_attribute in Hpush by apply Hwf.
    unfold received. simpl. rewrite Hcur in *. simpl.
    case_decide; injection Hpush as <- <-; simpl.
    - split; [done |]. split; [by rewrite app_assoc |]. by exists s0.
    - split; [done |]. split; [by rewrite app_nil_r, app_assoc |]. by eexists. }
  intros Hwf. destruct (currentSession m) as [s0|] eqn:Hcur.
  - destruct (Hactive m h s0 Hwf Hcur) as (Hs & Hr & s & Hc & Hid).
    split; [done |]. split; [done |]. exists s. split; [done |]. by intros ? [= <-].
  - rewrite addEvent_idle by done.
    pose proof (startSession_current m h) as Hsome.
    pose proof (wf_startSession m h Hwf) as Hwf1.
    destruct (Hactive _ _ _ Hwf1 Hsome) as (Hs & Hr & s & Hc & _).
    destruct (startSession_idle m h) as (h' & Heq & _); [apply Hwf | done |].
    rewrite Heq in *. simpl in *.
    split; [done |]. split; [| by exists s].
    rewrite Hr. unfold received. simpl. by rewrite Hcur.
Qed.

Lemma addEvents_snoc calls dt e m h :
  addEvents (calls ++ [(dt, e)]) m h =
    addEvent e (addEvents calls m h).1 (elapse dt (addEvents calls m h).2).
Proof.
  revert m h; induction calls as [|[dt0 e0] calls IH]; intros m h; simpl.
  - by destruct (addEvent e m (elapse dt h)).
  - destruct (addEvent e0 m (elapse dt0 h)) as [m1 h1]. apply IH.
Qed.

Lemma wf_addEvents calls m h :
  wf m h -> wf (addEvents calls m h).1 (addEvents calls m h).2.
Proof.
  revert m h; induction calls as [|[dt e] calls IH]; intros m h Hwf; simpl; [done |].
  pose proof (wf_addEvent e m (elapse dt h) (wf_elapse _ _ dt Hwf)) as Hstep.
  destruct (addEvent e m (elapse dt h)) as [m1 h1]. by apply IH.
Qed.

Lemma addEvents_received calls m h :
  wf m h ->
  sessions (addEvents calls m h).1 = sessions m
  /\ received (addEvents calls m h).1 = received m ++ calls.*2
  /\ (calls <> [] -> exists s, currentSession (addEvents calls m h).1 = Some s)
  /\ forall s0, currentSession m = Some s0 ->
       exists s, currentSession (addEvents calls m h).1 = Some s
         /\ id s = id s0 /\ startTime s = startTime s0.
Proof.
  intros Hwf. induction calls as [|[dt e] calls IH] using rev_ind; simpl.
  - rewrite app_nil_r. repeat split; try done. intros s0 Hs0. by exists s0.
  - rewrite addEvents_snoc.
    destruct IH as (Hs & Hr & _ & Hsame).
    pose proof (wf_elapse _ _ dt (wf_addEvents calls m h Hwf)) as Hwf1.
    destruct (addEvent_received e _ _ Hwf1) as (Hs1 & Hr1 & s & Hc & Hid).
    split; [congruence |]. split; [| split].
    + rewrite Hr1, Hr, fmap_app. simpl. by rewrite app_assoc.
    + intros _. by exists s.
    + intros s0 Hs0. destruct (Hsame s0 Hs0) as (s1 & Hc1 & Hid1 & Hst1).
      exists s. split; [done |]. destruct (Hid s1 Hc1). split; congruence.
Qed.

Lemma wf_flushBuffer m h : wf m h -> wf (flushBuffer m) h.
Proof.
  intros [Hhist Hact Hcb Hmax Hlen Hown Htim Harm Hhan].
  rewrite flushBuffer_eq by done.
  split; simpl; try done.
  - intros s. destruct (currentSession m) as [s0|] eqn:Hcur; [| done].
    simpl. intros [= <-]. simpl. by apply Hact.
  - lia.
  - intros s. destruct (currentSession m) as [s0|] eqn:Hcur; [| done].
    intros _. by apply (Harm s0).
Qed.

Lemma flushBuffer_received m :
  EventBuffer.flushCallback (eventBuffer m) = Some attribute ->
  sessions (flushBuffer m) = sessions m
  /\ EventBuffer.buffer (eventBuffer (flushBuffer m)) = []
  /\ forall s0, currentSession m = Some s0 ->
       exists s, currentSession (flushBuffer m) = Some s
         /\ events s = received m
         /\ id s = id s0 /\ startTime s = startTime s0 /\ isActive s = isActive s0.
Proof.
  intros Hcb. rewrite flushBuffer_eq by done. simpl.
  split; [done |]. split; [done |].
  intros s0 Hs0. unfold received. rewrite Hs0. simpl. by eexists.
Qed.

End ManagerFacts.

(** C1. Along any run of [addEvent] calls (time passing in between, no
    [endSession]) from a state of the manager, at most one session is active
    after each call; no session is ended; and after the next flush of the
    buffer the one active session holds, in order, every event received. *)
Theorem C1_addEvents_one_active_session
    (calls : list (Z * SessionEvent)) (m : SessionManager.t) (h : Host) :
  State.wf m h ->
  let m1 := (SessionManager.addEvents calls m h).1 in
  let m2 := SessionManager.flushBuffer m1 in
  (forall k, (State.activeCount (SessionManager.addEvents (take k calls) m h).1 <= 1)%nat)
  /\ (State.activeCount m2 <= 1)%nat
  /\ SessionManager.sessions m2 = SessionManager.sessions m
  /\ (calls <> [] ->
       exists s, SessionManager.currentSession m2 = Some s
         /\ isActive s = true
         /\ State.activeCount m2 = 1%nat
         /\ events s = State.received m ++ calls.*2
         /\ EventBuffer.buffer (SessionManager.eventBuffer m2) = []
         /\ forall s0, SessionManager.currentSession m = Some s0 ->
              id s = id s0 /\ startTime s = startTime s0).
Proof.
  intros Hwf m1 m2.
  assert (Hle : forall m' h', State.wf m' h' -> (State.activeCount m' <= 1)%nat).
  { intros m' h' Hwf'. rewrite (wf_activeCount _ _ Hwf').
    destruct (SessionManager.currentSession m'); lia. }
  pose proof (wf_addEvents calls m h Hwf) as Hwf1.
  pose proof (wf_flushBuffer _ _ Hwf1) as Hwf2. fold m1 in Hwf1, Hwf2. fold m2 in Hwf2.
  destruct (addEvents_received calls m h Hwf) as (Hs & Hr & Hsome & Hsame).
  fold m1 in Hs, Hr, Hsome, Hsame.
  destruct (flushBuffer_received m1 (State.wf_callback _ _ Hwf1)) as (Hs2 & Hb2 & Hcur2).
  fold m2 in Hs2, Hb2, Hcur2.
  split; [| split; [| split]].
  - intros k. eapply Hle, wf_addEvents, Hwf.
  - by eapply Hle.
  - congruence.
  - intros Hne. destruct (Hsome Hne) as (s1 & Hs1).
    destruct (Hcur2 s1 Hs1) as (s & Hc & Hev & Hid & Hst & Hact).
    exists s. split; [done |].
    assert (Hactive : isActive s = true) by (eapply State.wf_current; eauto).
    split; [done |]. split; [| split; [| split]].
    + by rewrite (wf_activeCount _ _ Hwf2), Hc.
    + by rewrite Hev, Hr.
    + done.
    + intros s0 Hs0. destruct (Hsame s0 Hs0) as (s1' & Hs1' & Hid' & Hst').
      assert (s1' = s1) as -> by congruence. split; congruence.
Qed.

Lemma C1_witness :
  State.wf (SessionManager.new sampleHost) sampleHost
  /\ exists s,
       SessionManager.currentSession
         (SessionManager.flushBuffer
            (SessionManager.addEvents [(0, sampleEvent 1); (250, sampleEvent 2)]
               (SessionManager.new sampleHost) sampleHost).1) = Some s
       /\ isActive s = true
       /\ events s = [sampleEvent 1; sampleEvent 2].
Proof.
  assert (Hwf : State.wf (SessionManager.new sampleHost) sampleHost)
    by (apply wf_new; reflexivity).
  split; [exact Hwf |].
  destruct (C1_addEvents_one_active_session
              [(0, sampleEvent 1); (250, sampleEvent 2)] _ _ Hwf)
    as (_ & _ & _ & Hlast).
  destruct (Hlast ltac:(discriminate)) as (s & Hc & Hact & _ & Hev & _).
  exists s. split; [exact Hc |]. split; [exact Hact | exact Hev].
Defined.

(** *** Session ids *)








(** C6. When no session is active, there is no current session, and
    [addTask] and [addIssue] return [null] (they return, they do not throw)
    and leave the manager (history, current session, buffer, timer) and the
    host (no id drawn, nothing shown) exactly as they were. *)
Theorem C6_addTask_addIssue_without_session
    (task : TaskInput) (issue : IssueInput) (m : SessionManager.t) (h : Host) :
  State.wf m h ->
  State.activeCount m = 0%nat ->
  SessionManager.currentSession m = None
  /\ SessionManager.addTask task m h = (None, m, h)
  /\ SessionManager.addIssue issue m h = (None, m, h).
Proof.
  intros Hwf Hcount.
  assert (Hcur : SessionManager.currentSession m = None).
  { rewrite (wf_activeCount _ _ Hwf) in Hcount.
    by destruct (SessionManager.currentSession m). }
  unfold SessionManager.addTask, SessionManager.addIssue. by rewrite Hcur.
Qed.

Lemma C6_witness :
  State.wf (SessionManager.new sampleHost) sampleHost
  /\ State.activeCount (SessionManager.new sampleHost) = 0%nat
  /\ SessionManager.addTask
       {| ti_description := "write tests"; ti_status := pending; ti_completedAt := None |}
       (SessionManager.new sampleHost) sampleHost
     = (None, SessionManager.new sampleHost, sampleHost)
  /\ SessionManager.addIssue
       {| ii_description := "build fails"; ii_resolution := None; ii_resolved := false;
          ii_resolvedAt := None |}
       (SessionManager.new sampleHost) sampleHost
     = (None, SessionManager.new sampleHost, sampleHost).
Proof.
  assert (Hwf : State.wf (SessionManager.new sampleHost) sampleHost)
    by (apply wf_new; reflexivity).
  split; [exact Hwf |]. split; [reflexivity |].
  apply (C6_addTask_addIssue_without_session _ _ _ _ Hwf). reflexivity.
Defined.

(** C10. [endSession] without a current session returns [null] and changes
    nothing: the manager (history, buffer and its content, timer) and the host
    (no observer called, nothing shown, no timer cleared) are as before. *)
Theorem C10_endSession_without_session (m : SessionManager.t) (h : Host) :
  SessionManager.currentSession m = None ->
  SessionManager.endSession m h = (None, m, h)
  /\ SessionManager.sessions (SessionManager.endSession m h).1.2 = SessionManager.sessions m
  /\ SessionManager.eventBuffer (SessionManager.endSession m h).1.2
     = SessionManager.eventBuffer m
  /\ effects (SessionManager.endSession m h).2 = effects h.
Proof.
  intros Hcur. rewrite endSession_none by done. done.
Qed.

Lemma C10_witness :
  SessionManager.currentSession
    (SessionManager.onSessionEnd 7 (SessionManager.new sampleHost)) = None
  /\ SessionManager.endSession
       (SessionManager.onSessionEnd 7 (SessionManager.new sampleHost)) sampleHost
     = (None, SessionManager.onSessionEnd 7 (SessionManager.new sampleHost), sampleHost).
Proof.
  split; [reflexivity |].
  apply (C10_endSession_without_session
           (SessionManager.onSessionEnd 7 (SessionManager.new sampleHost)) sampleHost).
  reflexivity.
Defined.

Section TimeoutFacts.
Import SessionManager State.

(** While a session is current exactly one timeout is pending: the
    manager's, due one delay after the last activity. *)
Lemma wf_pending m h s :
  wf m h -> currentSession m = Some s ->
  exists handle,
    sessionTimeoutTimer m = Some handle
    /\ timers h = {[ handle := lastActivityTime m + timeoutDelay h ]}.
Proof.
  intros Hwf Hcur. destruct (wf_armed _ _ Hwf s Hcur) as (handle & Hh & Hd).
  exists handle. split; [done |].
  apply map_eq; intros k.
  destruct (decide (k = handle)) as [-> | Hne].
  - by rewrite lookup_singleton_eq.
  - rewrite lookup_singleton_ne by done.
    destruct (timers h !! k) eqn:Hk; [| done].
    apply (wf_timers _ _ Hwf) in Hk. congruence.
Qed.

Lemma timeoutDelay_ten h : sessionTimeoutMinutes h = 10 -> timeoutDelay h = 600000.
Proof. unfold timeoutDelay. by intros ->. Qed.

Lemma startSession_activity m h :
  wf m h ->
  lastActivityTime (startSession m h).1.2 = now h
  /\ now (startSession m h).2 = now h
  /\ sessionTimeoutMinutes (startSession m h).2 = sessionTimeoutMinutes h.
Proof.
  assert (Hidle : forall m h, wf m h -> currentSession m = None ->
            lastActivityTime (startSession m h).1.2 = now h
            /\ now (startSession m h).2 = now h
            /\ sessionTimeoutMinutes (startSession m h).2 = sessionTimeoutMinutes h).
  { clear m h. intros m h Hwf Hcur.
    destruct (startSession_idle m h) as (h' & -> & _ & _ & Hnow & _ & Hcfg & _);
      [apply Hwf | done |]. done. }
  intros Hwf. destruct (currentSession m) as [s|] eqn:Hcur.
  - rewrite (startSession_active m h s) by (done || by apply (wf_current _ _ Hwf)).
    destruct (Hidle _ _ (wf_endSession m h Hwf) (endSession_current m h))
      as (Hlast & Hnow & Hcfg).
    rewrite Hlast, Hnow, Hcfg.
    rewrite (endSession_some m h s) by (done || apply Hwf). simpl.
    by rewrite clearSessionTimer_now, clearSessionTimer_config.
  - by apply Hidle.
Qed.

Lemma addEvent_activity e m h :
  wf m h ->
  lastActivityTime (addEvent e m h).1 = now h
  /\ now (addEvent e m h).2 = now h
  /\ sessionTimeoutMinutes (addEvent e m h).2 = sessionTimeoutMinutes h.
Proof.
  assert (Hactive : forall m h s, wf m h -> currentSession m = Some s ->
            lastActivityTime (addEvent e m h).1 = now h
            /\ now (addEvent e m h).2 = now h
            /\ sessionTimeoutMinutes (addEvent e m h).2 = sessionTimeoutMinutes h).
  { clear m h. intros m h s Hwf Hcur.
    destruct (addEvent_active e m h s Hwf Hcur)
      as (b & cur & h' & -> & _ & _ & _ & Hnow & _ & Hcfg & _). done. }
  intros Hwf. destruct (currentSession m) as [s|] eqn:Hcur.
  - by apply (Hactive m h s).
  - rewrite addEvent_idle by done.
    destruct (Hactive _ _ _ (wf_startSession m h Hwf) (startSession_current m h))
      as (Hlast & Hnow & Hcfg).
    destruct (startSession_activity m h Hwf) as (_ & Hnow' & Hcfg').
    rewrite Hlast, Hnow, Hcfg. done.
Qed.

End TimeoutFacts.

(** C7. With [sessionTimeoutMinutes = 10] and a session current: exactly one
    timeout is pending, due 600000 ms after the last activity.  It does not
    run before that; run by the scheduler at a time [now] at or after it, it
    ends the session with [endTime = now] (so last activity + 10 minutes when
    the scheduler is on time) and leaves no timeout pending.  Every activity
    call ([addEvent], [startSession]) at a time [t] replaces it by one due at
    [t] + 600000, and [endSession] cancels it. *)
Theorem C7_inactivity_timeout (m : SessionManager.t) (h : Host) (s : Session) :
  State.wf m h ->
  sessionTimeoutMinutes h = 10 ->
  SessionManager.currentSession m = Some s ->
  let deadline := SessionManager.lastActivityTime m + 600000 in
  exists handle,
    SessionManager.sessionTimeoutTimer m = Some handle
    /\ timers h = {[ handle := deadline ]}
    /\ (forall dt, now h + dt < deadline ->
          SessionManager.fireTimer handle m (elapse dt h) = (m, elapse dt h))
    /\ (forall dt, deadline <= now h + dt ->
          exists ended m' h',
            SessionManager.fireTimer handle m (elapse dt h) = (m', h')
            /\ SessionManager.currentSession m' = None
            /\ SessionManager.sessions m' = SessionManager.sessions m ++ [ended]
            /\ id ended = id s /\ isActive ended = false
            /\ endTime ended = Some (DateObj (now h + dt))
            /\ timers h' = ∅)
    /\ (forall dt e,
          let r := SessionManager.addEvent e m (elapse dt h) in
          SessionManager.lastActivityTime r.1 = now h + dt
          /\ exists handle', SessionManager.sessionTimeoutTimer r.1 = Some handle'
               /\ timers r.2 = {[ handle' := now h + dt + 600000 ]})
    /\ (forall dt,
          let r := SessionManager.startSession m (elapse dt h) in
          SessionManager.lastActivityTime r.1.2 = now h + dt
          /\ exists handle', SessionManager.sessionTimeoutTimer r.1.2 = Some handle'
               /\ timers r.2 = {[ handle' := now h + dt + 600000 ]})
    /\ timers (SessionManager.endSession m h).2 = ∅.
Proof.
  intros Hwf Hcfg Hcur deadline.
  destruct (wf_pending m h s Hwf Hcur) as (handle & Hh & Ht).
  rewrite (timeoutDelay_ten h Hcfg) in Ht. fold deadline in Ht.
  assert (Hact : isActive s = true) by (by apply (State.wf_current _ _ Hwf)).
  assert (Hcb := State.wf_callback _ _ Hwf).
  exists handle. split; [done |]. split; [done |].
  split; [| split; [| split; [| split]]].
  - intros dt Hdt. unfold SessionManager.fireTimer. simpl.
    rewrite Ht, lookup_singleton_eq.
    destruct (deadline <=? now h + dt) eqn:E; [lia | done].
  - intros dt Hdt. unfold SessionManager.fireTimer. simpl.
    rewrite Ht, lookup_singleton_eq.
    destruct (deadline <=? now h + dt) eqn:E; [| lia].
    unfold SessionManager.onSessionTimeout. rewrite Hcur, Hact.
    rewrite (endSession_some m _ s Hcb Hcur).
    do 3 eexists. split; [reflexivity |]. simpl.
    repeat split; try done.
    unfold SessionManager.clearSessionTimer. rewrite Hh. simpl.
    rewrite Ht. by rewrite delete_singleton_eq, delete_empty.
  - intros dt e r.
    pose proof (wf_elapse _ _ dt Hwf) as Hwf0.
    pose proof (wf_addEvent e _ _ Hwf0) as Hwf1. fold r in Hwf1.
    destruct (addEvent_activity e _ _ Hwf0) as (Hlast & _ & Hcfg1). fold r in Hlast, Hcfg1.
    destruct (addEvent_received e _ _ Hwf0) as (_ & _ & s1 & Hs1 & _). fold r in Hs1.
    destruct (wf_pending _ _ s1 Hwf1 Hs1) as (handle' & Hh' & Ht').
    split; [done |]. exists handle'. split; [done |].
    rewrite Ht', Hlast, timeoutDelay_ten; [done |]. by rewrite Hcfg1.
  - intros dt r.
    pose proof (wf_elapse _ _ dt Hwf) as Hwf0.
    pose proof (wf_startSession _ _ Hwf0) as Hwf1. fold r in Hwf1.
    destruct (startSession_activity _ _ Hwf0) as (Hlast & _ & Hcfg1). fold r in Hlast, Hcfg1.
    pose proof (startSession_current m (elapse dt h)) as Hs1. fold r in Hs1.
    destruct (wf_pending _ _ _ Hwf1 Hs1) as (handle' & Hh' & Ht').
    split; [done |]. exists handle'. split; [done |].
    rewrite Ht', Hlast, timeoutDelay_ten; [done |]. by rewrite Hcfg1.
  - rewrite (endSession_some m h s Hcb Hcur). simpl.
    apply clearSessionTimer_timers, Hwf.
Qed.

Lemma C7_witness :
  let r := SessionManager.startSession (SessionManager.new sampleHost) sampleHost in
  State.wf r.1.2 r.2
  /\ sessionTimeoutMinutes r.2 = 10
  /\ SessionManager.currentSession r.1.2 = Some r.1.1
  /\ exists handle,
       SessionManager.sessionTimeoutTimer r.1.2 = Some handle
       /\ timers r.2 = {[ handle := 1793649600123 + 600000 ]}.
Proof.
  intros r.
  assert (Hwf : State.wf r.1.2 r.2) by (apply wf_startSession, wf_new; reflexivity).
  split; [exact Hwf |]. split; [reflexivity |]. split; [reflexivity |].
  destruct (C7_inactivity_timeout r.1.2 r.2 r.1.1 Hwf eq_refl eq_refl)
    as (handle & Hh & Ht & _).
  exists handle. split; [exact Hh | exact Ht].
Defined.

(** ** Today's sessions *)

Section TodayFacts.
Import SessionManager State.

Lemma filterKnown_known {A} (p : A -> option bool) (l : list A) :
  Forall (fun x => is_Some (p x)) l ->
  filterKnown p l = Some (List.filter (fun x => default false (p x)) l).
Proof.
  induction 1 as [|x l [keep Hx] _ IH]; [done |].
  cbn [filterKnown List.filter]. rewrite Hx, IH. simpl. by destruct keep.
Qed.

Lemma filterKnown_Some {A} (p : A -> option bool) (l r : list A) :
  filterKnown p l = Some r ->
  Forall (fun x => is_Some (p x)) l
  /\ r = List.filter (fun x => default false (p x)) l.
Proof.
  revert r. induction l as [|x l IH]; intros r Hr.
  - injection Hr as <-. by split.
  - cbn [filterKnown] in Hr.
    destruct (p x) as [keep|] eqn:Hx; [| done].
    destruct (filterKnown p l) as [rest|]; [| done].
    destruct (IH rest eq_refl) as [Hall ->]. simpl in Hr. injection Hr as <-.
    split; [by constructor |]. cbn [List.filter]. rewrite Hx. by destruct keep.
Qed.

Lemma timeClip_Some t u : timeClip t = Some u -> u = t.
Proof. unfold timeClip. case_match; [by intros [= <-] | done]. Qed.

(** In a zone without clock changes the local day of [t] is the 24 hours
    from its midnight, and holds [t]. *)
Lemma fixedZone_day offset t lo hi :
  localMidnight (fixedZone offset) t = Some lo ->
  localEndOfDay (fixedZone offset) t = Some hi ->
  lo <= t <= hi /\ hi = lo + msPerDay - 1.
Proof.
  unfold localMidnight, localEndOfDay, setHours, makeTime, msPerDay. simpl.
  intros ->%timeClip_Some ->%timeClip_Some.
  pose proof (Z.mod_pos_bound (t + offset) 86400000).
  pose proof (Z.div_mod (t + offset) 86400000). lia.
Qed.

(** *** Start times never lie ahead of a forward clock *)

Lemma starts_endSession m h :
  EventBuffer.flushCallback (eventBuffer m) = Some attribute ->
  startTime <$> allSessions (endSession m h).1.2 = startTime <$> allSessions m.
Proof.
  intros Hcb. destruct (currentSession m) as [s|] eqn:Hcur.
  - rewrite (endSession_some m h s) by done. unfold allSessions. simpl.
    rewrite Hcur, !fmap_app. simpl. by rewrite app_nil_r.
  - by rewrite endSession_none.
Qed.

Lemma now_endSession m h : now (endSession m h).2 = now h.
Proof.
  unfold endSession. destruct (currentSession m); [| done].
  destruct (currentSession (flushBuffer m)); [| done].
  simpl. apply clearSessionTimer_now.
Qed.

Lemma starts_startSession m h :
  wf m h ->
  startTime <$> allSessions (startSession m h).1.2
  = (startTime <$> allSessions m) ++ [DateObj (now h)].
Proof.
  assert (Hidle : forall m h, wf m h -> currentSession m = None ->
            startTime <$> allSessions (startSession m h).1.2
            = (startTime <$> allSessions m) ++ [DateObj (now h)]).
  { clear m h. intros m h Hwf Hcur.
    destruct (startSession_idle m h) as (h' & -> & _); [apply Hwf | done |].
    unfold allSessions. simpl. rewrite Hcur, !fmap_app. simpl. by rewrite app_nil_r. }
  intros Hwf. destruct (currentSession m) as [s|] eqn:Hcur.
  - rewrite (startSession_active m h s) by (done || by apply (wf_current _ _ Hwf)).
    rewrite (Hidle _ _ (wf_endSession m h Hwf) (endSession_current m h)).
    by rewrite starts_endSession, now_endSession by apply Hwf.
  - by apply Hidle.
Qed.

Lemma starts_addEvent e m h :
  wf m h ->
  exists extra,
    startTime <$> allSessions (addEvent e m h).1 = (startTime <$> allSessions m) ++ extra
    /\ Forall (fun st => st = DateObj (now h)) extra.
Proof.
  assert (Hactive : forall m h s, wf m h -> currentSession m = Some s ->
            startTime <$> allSessions (addEvent e m h).1 = startTime <$> allSessions m).
  { clear m h. intros m h s0 Hwf Hcur.
    destruct (addEvent_received e m h Hwf) as (Hs & _ & s & Hc & Hsame).
    destruct (Hsame s0 Hcur) as (_ & Hst).
    unfold allSessions. rewrite Hs, Hc, Hcur, !fmap_app. simpl. by rewrite Hst. }
  intros Hwf. destruct (currentSession m) as [s|] eqn:Hcur.
  - exists []. rewrite app_nil_r. split; [by apply (Hactive m h s) | done].
  - exists [DateObj (now h)]. split; [| by repeat constructor].
    rewrite addEvent_idle by done.
    rewrite (Hactive _ _ _ (wf_startSession m h Hwf) (startSession_current m h)).
    by apply starts_startSession.
Qed.

Lemma starts_updateFirst sid sm l :
  startTime <$> updateFirst sid sm l = startTime <$> l.
Proof.
  induction l as [|s l IH]; [done |]. cbn [updateFirst].
  destruct (String.eqb (id s) sid); rewrite !fmap_cons; [done |]. by rewrite IH.
Qed.

Lemma run_starts c m h :
  wf m h ->
  exists extra,
    startTime <$> allSessions (run c m h).1 = (startTime <$> allSessions m) ++ extra
    /\ Forall (fun st => st = DateObj (now h)) extra
    /\ now (run c m h).2 = now h + match c with Elapse dt => dt | _ => 0 end.
Proof.
  intros Hwf.
  assert (Hcb := wf_callback _ _ Hwf).
  assert (Hsame : forall m' h',
            startTime <$> allSessions m' = startTime <$> allSessions m ->
            now h' = now h ->
            exists extra,
              startTime <$> allSessions m' = (startTime <$> allSessions m) ++ extra
              /\ Forall (fun st => st = DateObj (now h)) extra
              /\ now h' = now h + 0).
  { intros m' h' Hst Hnow. exists []. rewrite app_nil_r, Z.add_0_r. by repeat split. }
  destruct c; simpl.
  - pose proof (starts_startSession m h Hwf) as Hst.
    destruct (startSession_activity m h Hwf) as (_ & Hnow & _).
    destruct (startSession m h) as [[s1 m1] h1]. simpl in *.
    exists [DateObj (now h)]. rewrite Z.add_0_r. by repeat constructor.
  - pose proof (starts_endSession m h Hcb) as Hst.
    pose proof (now_endSession m h) as Hnow.
    destruct (endSession m h) as [[r m1] h1]. by apply Hsame.
  - destruct (starts_addEvent event m h Hwf) as (extra & Hst & Hextra).
    destruct (addEvent_activity event m h Hwf) as (_ & Hnow & _).
    exists extra. rewrite Z.add_0_r. by repeat split.
  - unfold addTask. destruct (currentSession m) as [s|] eqn:Hcur; simpl.
    + apply Hsame; [| done]. unfold allSessions, withCurrent.
      cbn [currentSession sessions]. by rewrite Hcur, !fmap_app.
    + by apply Hsame.
  - unfold addIssue. destruct (currentSession m) as [s|] eqn:Hcur; simpl.
    + apply Hsame; [| done]. unfold allSessions, withCurrent.
      cbn [currentSession sessions]. by rewrite Hcur, !fmap_app.
    + by apply Hsame.
  - apply Hsame; [| done]. unfold updateSummary, allSessions. simpl.
    destruct (currentSession m) as [s|] eqn:Hcur; simpl.
    + destruct (String.eqb (id s) sessionId); simpl;
        by rewrite ?Hcur, !fmap_app, starts_updateFirst.
    + by rewrite Hcur, !fmap_app, starts_updateFirst.
  - by apply Hsame.
  - by apply Hsame.
  - unfold dispose.
    pose proof (starts_endSession m (clearSessionTimer m h) Hcb) as Hst.
    pose proof (now_endSession m (clearSessionTimer m h)) as Hnow.
    rewrite clearSessionTimer_now in Hnow.
    destruct (currentSession m) as [s|] eqn:Hcur.
    + rewrite (wf_current _ _ Hwf s Hcur).
      destruct (endSession m (clearSessionTimer m h)) as [[r m1] h1]. by apply Hsame.
    + apply Hsame; [done |]. apply clearSessionTimer_now.
  - exists []. rewrite app_nil_r. by repeat split.
  - unfold fireTimer.
    destruct (timers h !! handle) as [deadline|]; [| by apply Hsame].
    destruct (deadline <=? now h); [| by apply Hsame].
    unfold onSessionTimeout.
    destruct (currentSession m) as [s|] eqn:Hcur; [| by apply Hsame].
    destruct (isActive s); [| by apply Hsame].
    match goal with
    | |- context [endSession m ?h1] =>
        pose proof (starts_endSession m h1 Hcb) as Hst;
        pose proof (now_endSession m h1) as Hnow;
        destruct (endSession m h1) as [[r m1] h1']
    end.
    by apply Hsame.
Qed.

Lemma noFuture_run c m h :
  wf m h -> Clock.noFuture m h ->
  match c with Elapse dt => 0 <= dt | _ => True end ->
  Clock.noFuture (run c m h).1 (run c m h).2.
Proof.
  intros Hwf Hno Hdt. destruct (run_starts c m h Hwf) as (extra & Hst & Hextra & Hnow).
  unfold Clock.noFuture in *. rewrite Hst, Hnow.
  assert (Hle : 0 <= match c with Elapse dt => dt | _ => 0 end) by (destruct c; lia).
  apply Forall_app; split.
  - eapply Forall_impl; [exact Hno |]. intros st Hst' t Ht. specialize (Hst' t Ht). lia.
  - eapply Forall_impl; [exact Hextra |]. intros st -> t [= <-]. lia.
Qed.

Lemma noFuture_runAll cs m h :
  wf m h -> Clock.noFuture m h -> Clock.forward cs ->
  Clock.noFuture (runAll cs m h).1 (runAll cs m h).2.
Proof.
  revert m h; induction cs as [|c cs IH]; intros m h Hwf Hno Hfw; simpl; [done |].
  apply Forall_cons in Hfw as [Hc Hcs].
  pose proof (wf_run c m h Hwf) as Hwf1.
  pose proof (noFuture_run c m h Hwf Hno Hc) as Hno1.
  destruct (run c m h) as [m1 h1]. by apply IH.
Qed.

End TodayFacts.

(** C9.  [getTodaySessions] keeps the history sessions that start at or
    after local midnight of the current day and has no upper bound, where
    [getSessionsByDate] of the store bounds the day on both sides.  At
    activation the extension hands the stored sessions to the manager; with a
    stored session dated two days after today, [getTodaySessions] returns
    that session, which is outside today's calendar day, while
    [getSessionsByDate] for today, on the same store, does not. *)
Theorem C9_today_sessions_not_bounded_above :
  (forall (m : SessionManager.t) (h : Host) (today : Z),
      localMidnight (timeZone h) (now h) = Some today ->
      Forall (fun s => exists t, startTime s = DateObj t) (SessionManager.sessions m) ->
      SessionManager.getTodaySessions m h
      = Some (List.filter (fun s => match startTime s with
                                    | DateObj t => today <=? t
                                    | _ => false
                                    end) (SessionManager.sessions m)))
  /\ (let db := LocalDb.new "/home/dev/.store" futureDisk in
      exists m,
        loadExisting db (SessionManager.new sampleHost) = Some m
        /\ SessionManager.sessions m = [futureSession]
        /\ localMidnight (timeZone sampleHost) (now sampleHost) = Some 1793574000000
        /\ startTime futureSession = DateObj (1793574000000 + 2 * msPerDay + 75600123)
        /\ SessionManager.getTodaySessions m sampleHost = Some [futureSession]
        /\ Spec.todaySessions m sampleHost = []
        /\ Queries.getSessionsByDate (timeZone sampleHost) (now sampleHost) db = Some []).
Proof.
  split.
  - intros m h today Htoday Hdates. unfold SessionManager.getTodaySessions.
    rewrite Htoday, filterKnown_known.
    + f_equal. apply List.filter_ext_in. intros s Hin.
      rewrite Forall_forall in Hdates.
      destruct (Hdates s) as [t Ht]; [by apply list_elem_of_In |]. by rewrite Ht.
    + eapply Forall_impl; [exact Hdates |]. intros s [t ->]. by eexists.
  - eexists. split; [vm_compute; reflexivity |]. by vm_compute.
Qed.

(** ** GitSyncer *)

Section SyncFacts.
Import GitSyncer.

Example sync_offline :
  sync readySyncer offlineEnv [] =
    (Returned false,
     [Git Status; Git Add; Git (Commit "Session log update: 2026-11-02T20:00:00.123Z");
      Git PullRebase; ConsoleLog "Git pull skipped: couldn't find remote ref main";
      Git Push; Git PushUpstream; ConsoleError "Git push error: rejected";
      WarningMessage "Log Close: Could not push to GitHub. Check your repository settings."]).
Proof. vm_compute. reflexivity. Qed.

End SyncFacts.

(** C5. [sync] never throws: from any state, against any repository and
    remote, it returns a boolean.  In every run in which the push is
    attempted and fails, the push is attempted once more, with upstream
    tracking, exactly once and right after the failed one; the result is
    whether that second attempt succeeded, so [false] when both fail. *)
Theorem C5_sync_push_retry (g : GitSyncer.t) (env : GitSyncer.Env) :
  (forall tr, exists b tr', GitSyncer.sync g env tr = (GitSyncer.Returned b, tr'))
  /\ exists b evs,
       GitSyncer.sync g env [] = (GitSyncer.Returned b, evs)
       /\ (GitSyncer.Push ∈ GitSyncer.gitCalls evs ->
           is_Some (GitSyncer.failure env GitSyncer.Push) ->
           GitSyncer.upstreamPushes evs = 1%nat
           /\ GitSyncer.gitCalls evs =
                [GitSyncer.Status; GitSyncer.Add;
                 GitSyncer.Commit ("Session log update: "
                                   +:+ IsoDate.toISOString (GitSyncer.clock env));
                 GitSyncer.PullRebase; GitSyncer.Push; GitSyncer.PushUpstream]
           /\ b = bool_decide (GitSyncer.failure env GitSyncer.PushUpstream = None)
           /\ (is_Some (GitSyncer.failure env GitSyncer.PushUpstream) -> b = false)).
Proof.
  unfold GitSyncer.sync. split.
  - intros tr.
    destruct (GitSyncer.hasGit g), (GitSyncer.isInitialized g); simpl;
      try (by eexists _, _).
    unfold GitSyncer.tryCatch, mbind, GitSyncer.sync_bind, GitSyncer.bind,
      GitSyncer.git, GitSyncer.note, GitSyncer.ret, GitSyncer.ask.
    destruct (GitSyncer.failure env GitSyncer.Status); [by eexists _, _ |].
    destruct (GitSyncer.changedFiles env =? 0)%nat; [by eexists _, _ |].
    destruct (GitSyncer.failure env GitSyncer.Add); [by eexists _, _ |].
    destruct (GitSyncer.failure env (GitSyncer.Commit _)); [by eexists _, _ |].
    destruct (GitSyncer.failure env GitSyncer.PullRebase);
      destruct (GitSyncer.failure env GitSyncer.Push);
      destruct (GitSyncer.failure env GitSyncer.PushUpstream); by eexists _, _.
  - destruct (GitSyncer.hasGit g), (GitSyncer.isInitialized g); simpl;
      try (eexists _, _; split; [reflexivity |]; by intros ?%elem_of_nil).
    unfold GitSyncer.tryCatch, mbind, GitSyncer.sync_bind, GitSyncer.bind,
      GitSyncer.git, GitSyncer.note, GitSyncer.ret, GitSyncer.ask.
    simpl.
    destruct (GitSyncer.failure env GitSyncer.Status);
      [eexists _, _; split; [reflexivity |]; simpl; intros Hin;
       repeat (apply elem_of_cons in Hin as [? | Hin]; [discriminate |]);
       by apply elem_of_nil in Hin |].
    destruct (GitSyncer.changedFiles env =? 0)%nat;
      [eexists _, _; split; [reflexivity |]; simpl; intros Hin;
       repeat (apply elem_of_cons in Hin as [? | Hin]; [discriminate |]);
       by apply elem_of_nil in Hin |].
    destruct (GitSyncer.failure env GitSyncer.Add);
      [eexists _, _; split; [reflexivity |]; simpl; intros Hin;
       repeat (apply elem_of_cons in Hin as [? | Hin]; [discriminate |]);
       by apply elem_of_nil in Hin |].
    destruct (GitSyncer.failure env (GitSyncer.Commit _));
      [eexists _, _; split; [reflexivity |]; simpl; intros Hin;
       repeat (apply elem_of_cons in Hin as [? | Hin]; [discriminate |]);
       by apply elem_of_nil in Hin |].
    destruct (GitSyncer.failure env GitSyncer.PullRebase);
      destruct (GitSyncer.failure env GitSyncer.Push) eqn:Hpush;
      destruct (GitSyncer.failure env GitSyncer.PushUpstream) eqn:Hup;
      eexists _, _; (split; [reflexivity |]); intros _ Hfail;
      try (by destruct Hfail);
      repeat split; try done; by intros [? [=]].
Qed.

Lemma C5_witness :
  GitSyncer.upstreamPushes (GitSyncer.sync readySyncer offlineEnv []).2 = 1%nat
  /\ (GitSyncer.sync readySyncer offlineEnv []).1 = GitSyncer.Returned false.
Proof.
  destruct (C5_sync_push_retry readySyncer offlineEnv) as (_ & b & evs & Heq & Hretry).
  rewrite Heq. simpl.
  assert (Hpush : GitSyncer.Push ∈ GitSyncer.gitCalls evs).
  { assert (evs = (GitSyncer.sync readySyncer offlineEnv []).2) as -> by (by rewrite Heq).
    vm_compute. do 4 apply list_elem_of_further. apply list_elem_of_here. }
  destruct (Hretry Hpush ltac:(by eexists)) as (Hcount & _ & _ & Hfalse).
  split; [exact Hcount |]. f_equal. apply Hfalse. by eexists.
Defined.

(** C8. [forceSync] returns [true] whatever the [sync] it starts returns:
    with a remote that refuses every push, [sync] returns [false] (and warns)
    while [forceSync], on the same repository, returns [true]. *)
Theorem C8_forceSync_ignores_sync_result :
  (forall g env tr, exists tr',
      GitSyncer.forceSync g env tr = (GitSyncer.Returned true, tr'))
  /\ (GitSyncer.sync readySyncer offlineEnv []).1 = GitSyncer.Returned false
  /\ (GitSyncer.forceSync readySyncer offlineEnv []).1 = GitSyncer.Returned true
  /\ (GitSyncer.sync GitSyncer.fresh offlineEnv []).1 = GitSyncer.Returned false
  /\ (GitSyncer.forceSync GitSyncer.fresh offlineEnv []).1 = GitSyncer.Returned true.
Proof.
  split; [| by vm_compute].
  intros g env tr. unfold GitSyncer.forceSync, GitSyncer.withProgressDropped,
    mbind, GitSyncer.sync_bind, GitSyncer.bind, GitSyncer.ret.
  destruct (GitSyncer.sync g env _) as [r tr']. by eexists.
Qed.

(** ** LocalDb *)

Example reload_summarized :
  saveThenReload "/home/dev/.store" summarizedSession emptyDisk
  = Some
      {| id := "1793649600123-k3j9x2m0"; startTime := DateObj 1793649600123;
         endTime := Some (DateObj 1793650200123);
         workspacePath := Some "/home/dev/project";
         events := [sampleEvent 1793649601000];
         summary := Some
           {| summary_text := "Fixed the build";
              tasksCompleted := ["fix build"];
              issuesResolved :=
                [{| issue_id := "issue-1793650201000";
                    issue_description := "build fails";
                    resolution := Some "pinned the compiler";
                    resolved := true;
                    issue_sessionId := "1793649600123-k3j9x2m0";
                    issue_createdAt := DateStr "2026-11-02T20:10:01.000Z";
                    resolvedAt := Some (DateStr "2026-11-02T20:10:01.000Z") |}];
              keyConversations := [];
              filesModified := ["Makefile"] |};
         tasks := []; issues := []; isActive := false |}.
Proof. vm_compute. reflexivity. Qed.

(** *** Dates survive the ISO text *)

Example toISOString_epoch : IsoDate.toISOString 0 = "1970-01-01T00:00:00.000Z".
Proof. vm_compute. reflexivity. Qed.

Example toISOString_2026 :
  IsoDate.toISOString 1793649600123 = "2026-11-02T20:00:00.123Z".
Proof. vm_compute. reflexivity. Qed.

Example parse_2026 :
  IsoDate.parse "2026-11-02T20:00:00.123Z" = Some 1793649600123.
Proof. vm_compute. reflexivity. Qed.

Example toISOString_bc : IsoDate.toISOString (-62167219200001) = "-000001-12-31T23:59:59.999Z".
Proof. vm_compute. reflexivity. Qed.

Section IsoFacts.
Import IsoDate.

Lemma yearOfEra_bounds doe :
  0 <= doe <= 146096 ->
  let yoe := (doe - doe / 1460 + doe / 36524 - doe / 146096) / 365 in
  0 <= yoe <= 399 /\ 0 <= doe - (365 * yoe + yoe / 4 - yoe / 100) <= 365.
Proof. intros H yoe. subst yoe. Z.to_euclidean_division_equations; lia. Qed.

Lemma civilFromDays_spec z :
  exists y m d,
    civilFromDays z = (y, m, d)
    /\ daysFromCivil y m d = z
    /\ 1 <= m <= 12 /\ 1 <= d <= 31
    /\ (-100000000 <= z <= 100000000 -> -999999 <= y <= 999999).
Proof.
  unfold civilFromDays, daysFromCivil.
  set (era := (z + 719468) / 146097).
  set (doe := z + 719468 - era * 146097).
  assert (Hdoe : 0 <= doe <= 146096).
  { subst doe era. Z.to_euclidean_division_equations; lia. }
  assert (Hera : -100000000 <= z <= 100000000 -> -700 <= era <= 700).
  { subst era. Z.to_euclidean_division_equations; lia. }
  pose proof (yearOfEra_bounds doe Hdoe) as Hy. cbv zeta in Hy.
  set (yoe := (doe - doe / 1460 + doe / 36524 - doe / 146096) / 365) in *.
  set (doy := doe - (365 * yoe + yoe / 4 - yoe / 100)) in *.
  set (mp := (5 * doy + 2) / 153).
  assert (Hmp : 0 <= mp <= 11) by (subst mp; Z.to_euclidean_division_equations; lia).
  set (d := doy - (153 * mp + 2) / 5 + 1).
  assert (Hd : 1 <= d <= 31) by (subst d mp; Z.to_euclidean_division_equations; lia).
  do 3 eexists. split; [reflexivity |].
  destruct (mp <? 10) eqn:E1.
  - destruct (mp + 3 <=? 2) eqn:E2; [lia |].
    destruct (2 <? mp + 3) eqn:E3; [| lia].
    replace (yoe + era * 400 + 0) with (yoe + era * 400) by lia.
    replace ((yoe + era * 400) / 400) with era by (Z.to_euclidean_division_equations; lia).
    replace (yoe + era * 400 - era * 400) with yoe by lia.
    replace (mp + 3 - 3) with mp by lia.
    subst d doy doe. repeat split; lia.
  - destruct (mp - 9 <=? 2) eqn:E2; [| lia].
    destruct (2 <? mp - 9) eqn:E3; [lia |].
    replace (yoe + era * 400 + 1 - 1) with (yoe + era * 400) by lia.
    replace ((yoe + era * 400) / 400) with era by (Z.to_euclidean_division_equations; lia).
    replace (yoe + era * 400 - era * 400) with yoe by lia.
    replace (mp - 9 + 9) with mp by lia.
    subst d doy doe. repeat split; lia.
Qed.

Lemma digitValue_digitChar k : 0 <= k <= 9 -> digitValue (digitChar k) = Some k.
Proof.
  intros Hk.
  assert (Hcases : k = 0 \/ k = 1 \/ k = 2 \/ k = 3 \/ k = 4 \/ k = 5 \/ k = 6
                   \/ k = 7 \/ k = 8 \/ k = 9) by lia.
  repeat (destruct Hcases as [-> | Hcases]; [reflexivity |]). by subst.
Qed.

Lemma digitChar_not_sign k :
  0 <= k <= 9 -> digitChar k <> "+"%char /\ digitChar k <> "-"%char.
Proof.
  intros Hk.
  assert (Hcases : k = 0 \/ k = 1 \/ k = 2 \/ k = 3 \/ k = 4 \/ k = 5 \/ k = 6
                   \/ k = 7 \/ k = 8 \/ k = 9) by lia.
  repeat (destruct Hcases as [-> | Hcases]; [by split |]). by subst.
Qed.

Lemma append_String c s rest : String c s +:+ rest = String c (s +:+ rest).
Proof. reflexivity. Qed.

Lemma readDigits_pad w n acc rest :
  0 <= n < 10 ^ Z.of_nat w ->
  readDigits w acc (pad w n +:+ rest) = Some (acc * 10 ^ Z.of_nat w + n, rest).
Proof.
  revert n acc; induction w as [|w IH]; intros n acc Hn.
  - simpl in *. f_equal. f_equal. lia.
  - rewrite Nat2Z.inj_succ, Z.pow_succ_r in * by lia.
    assert (Hpow : 0 < 10 ^ Z.of_nat w) by (apply Z.pow_pos_nonneg; lia).
    cbn [pad readDigits]. rewrite append_String. cbn [readDigits].
    rewrite digitValue_digitChar; cbn [mbind option_bind].
    + rewrite IH by (apply Z.mod_pos_bound; lia).
      f_equal. f_equal.
      pose proof (Z.div_mod n (10 ^ Z.of_nat w)). lia.
    + split; [apply Z.div_pos; lia |].
      assert (n / 10 ^ Z.of_nat w < 10); [| lia].
      apply Z.div_lt_upper_bound; lia.
Qed.

Lemma pad_S w n :
  pad (S w) n = String (digitChar (n / 10 ^ Z.of_nat w)) (pad w (n `mod` 10 ^ Z.of_nat w)).
Proof. reflexivity. Qed.

Lemma readDigits_pad0 w n rest :
  0 <= n < 10 ^ Z.of_nat w -> readDigits w 0 (pad w n +:+ rest) = Some (n, rest).
Proof. intros Hn. rewrite readDigits_pad by done. by rewrite Z.mul_0_l, Z.add_0_l. Qed.

Lemma readChar_here c rest : readChar c (String c EmptyString +:+ rest) = Some rest.
Proof. rewrite append_String. cbn [readChar]. by rewrite Ascii.eqb_refl. Qed.

Lemma readYear_unsigned c s :
  c <> "+"%char -> c <> "-"%char -> readYear (String c s) = readDigits 4 0 (String c s).
Proof.
  intros Hplus Hminus.
  destruct c as [[] [] [] [] [] [] [] []]; try reflexivity; congruence.
Qed.

Lemma readYear_yearText y rest :
  -999999 <= y <= 999999 -> readYear (yearText y +:+ rest) = Some (y, rest).
Proof.
  intros Hy. unfold yearText.
  destruct ((0 <=? y) && (y <=? 9999)) eqn:Hsmall.
  - assert (Hdigit : 0 <= y / 10 ^ Z.of_nat 3 <= 9).
    { change (10 ^ Z.of_nat 3) with 1000. Z.to_euclidean_division_equations; lia. }
    destruct (digitChar_not_sign _ Hdigit) as [Hplus Hminus].
    rewrite (pad_S 3 y), append_String, readYear_unsigned by done.
    rewrite <- append_String, <- (pad_S 3 y).
    apply readDigits_pad0. change (10 ^ Z.of_nat 4) with 10000. lia.
  - destruct (y <? 0) eqn:Hneg.
    + rewrite append_String. cbn [readYear].
      rewrite readDigits_pad0 by (change (10 ^ Z.of_nat 6) with 1000000; lia).
      cbn [mbind option_bind]. destruct (- y =? 0) eqn:Hz; [lia |].
      f_equal. f_equal. lia.
    + rewrite append_String. cbn [readYear].
      apply readDigits_pad0. change (10 ^ Z.of_nat 6) with 1000000. lia.
Qed.

(** [new Date(d.toISOString()).getTime() === d.getTime()] for every valid
    date [d]. *)
Lemma parse_toISOString ms :
  inRange ms = true -> parse (toISOString ms) = Some ms.
Proof.
  intros Hrange. unfold toISOString, parse.
  destruct (civilFromDays_spec (ms / msPerDay)) as (y & m & d & -> & Hdays & Hm & Hd & Hy).
  set (tod := ms `mod` msPerDay).
  assert (Htod : 0 <= tod < 86400000) by (apply Z.mod_pos_bound; done).
  assert (Hms : ms = (ms / msPerDay) * msPerDay + tod).
  { subst tod. pose proof (Z.div_mod ms msPerDay). unfold msPerDay in *. lia. }
  assert (Hyear : -999999 <= y <= 999999).
  { apply Hy. unfold inRange, msPerDay in *. Z.to_euclidean_division_equations; lia. }
  rewrite readYear_yearText by done. cbn [mbind option_bind].
  rewrite readChar_here. cbn [mbind option_bind].
  rewrite readDigits_pad0 by (change (10 ^ Z.of_nat 2) with 100; lia).
  cbn [mbind option_bind].
  rewrite readChar_here. cbn [mbind option_bind].
  rewrite readDigits_pad0 by (change (10 ^ Z.of_nat 2) with 100; lia).
  cbn [mbind option_bind].
  rewrite readChar_here. cbn [mbind option_bind].
  rewrite readDigits_pad0
    by (change (10 ^ Z.of_nat 2) with 100; Z.to_euclidean_division_equations; lia).
  cbn [mbind option_bind].
  rewrite readChar_here. cbn [mbind option_bind].
  rewrite readDigits_pad0
    by (change (10 ^ Z.of_nat 2) with 100; Z.to_euclidean_division_equations; lia).
  cbn [mbind option_bind].
  rewrite readChar_here. cbn [mbind option_bind].
  rewrite readDigits_pad0
    by (change (10 ^ Z.of_nat 2) with 100; Z.to_euclidean_division_equations; lia).
  cbn [mbind option_bind].
  rewrite readChar_here. cbn [mbind option_bind].
  rewrite readDigits_pad0
    by (change (10 ^ Z.of_nat 3) with 1000; Z.to_euclidean_division_equations; lia).
  cbn [mbind option_bind readChar]. rewrite Ascii.eqb_refl. cbn [mbind option_bind].
  change (negb (String.eqb EmptyString EmptyString)) with false. cbv iota.
  set (hh := tod / 3600000). set (mm := (tod / 60000) `mod` 60).
  set (ss := (tod / 1000) `mod` 60). set (mss := tod `mod` 1000).
  assert (Hparts : hh * 3600000 + mm * 60000 + ss * 1000 + mss = tod
                   /\ 0 <= hh <= 23 /\ 0 <= mm <= 59 /\ 0 <= ss <= 59 /\ 0 <= mss <= 999).
  { subst hh mm ss mss. Z.to_euclidean_division_equations; lia. }
  destruct Hparts as (Hsum & Hhh & Hmm & Hss & Hmss).
  destruct (negb _) eqn:Hbounds; [lia |].
  destruct ((hh =? 24) && _) eqn:H24; [lia |].
  rewrite Hdays.
  replace (ms / msPerDay * msPerDay + hh * 3600000 + mm * 60000 + ss * 1000 + mss)
    with ms by lia.
  by rewrite Hrange.
Qed.

End IsoFacts.

Section StoreFacts.
Import LocalDb Live.

Lemma toISOString_nonempty ms : String.eqb (IsoDate.toISOString ms) EmptyString = false.
Proof.
  unfold IsoDate.toISOString.
  destruct (IsoDate.civilFromDays (ms / msPerDay)) as [[y m] d].
  unfold IsoDate.yearText.
  destruct ((0 <=? y) && (y <=? 9999)); [| destruct (y <? 0)];
    rewrite ?(pad_S 3 y), append_String; reflexivity.
Qed.

Lemma revive_date t : liveDate t = true -> newDate (jsonTemporal t) = t.
Proof.
  destruct t as [ms| | |]; simpl; try done.
  intros Hrange. rewrite Hrange. simpl. by rewrite parse_toISOString.
Qed.

Lemma revive_optional o :
  liveOptional o = true -> reviveOptional (jsonTemporal <$> o) = o.
Proof.
  destruct o as [t|]; simpl; [| done].
  intros Hlive. destruct t as [ms| | |]; simpl in *; try done.
  rewrite Hlive. simpl. by rewrite toISOString_nonempty, parse_toISOString.
Qed.

Lemma revive_list {A} (f g : A -> A) (p : A -> bool) (l : list A) :
  (forall x, p x = true -> g (f x) = x) ->
  forallb p l = true -> g <$> (f <$> l) = l.
Proof.
  intros Hfg. induction l as [|x l IH]; [done |].
  rewrite !fmap_cons. cbn [forallb]. intros [Hx Hl]%andb_prop.
  by rewrite Hfg, IH.
Qed.

(** What [reviveSession] rebuilds comes back as it was saved; the summary
    comes back as JSON left it. *)
Lemma revive_session s :
  liveSession s = true ->
  reviveSession (jsonSession s) =
    {| id := id s; startTime := startTime s; endTime := endTime s;
       workspacePath := workspacePath s; events := events s;
       summary := jsonSummary <$> summary s;
       tasks := tasks s; issues := issues s; isActive := isActive s |}.
Proof.
  unfold liveSession. intros Hlive.
  repeat (apply andb_prop in Hlive as [Hlive ?]).
  unfold reviveSession, jsonSession. simpl. f_equal.
  - by apply revive_date.
  - by apply revive_optional.
  - apply (revive_list _ _ liveEvent); [| done].
    intros [? ? ? ? ? ?] He. unfold liveEvent in He. simpl in *. by rewrite revive_date.
  - apply (revive_list _ _ liveTask); [| done].
    intros [? ? ? ? ? ?] [Hc Ho]%andb_prop. simpl in *.
    by rewrite revive_date, revive_optional.
  - apply (revive_list _ _ liveIssue); [| done].
    intros [? ? ? ? ? ? ?] [Hc Ho]%andb_prop. simpl in *.
    by rewrite revive_date, revive_optional.
Qed.

Lemma find_upsert (f : Session -> Session) s l :
  (forall x, id (f x) = id x) ->
  List.find (fun x => String.eqb (id x) (id s)) (f <$> upsert s l) = Some (f s).
Proof.
  intros Hid. induction l as [|x l IH]; simpl.
  - by rewrite Hid, String.eqb_refl.
  - destruct (String.eqb (id x) (id s)) eqn:Hx; simpl.
    + by rewrite Hid, String.eqb_refl.
    + by rewrite Hid, Hx.
Qed.

(** The session read back after [saveSession]: the saved one through JSON
    and [reviveSession]. *)
Lemma saveThenReload_eq path s disk :
  writable disk = true ->
  saveThenReload path s disk = Some (reviveSession (jsonSession s)).
Proof.
  intros Hw. unfold saveThenReload, saveSession, save, LocalDb.new, load, getSession.
  simpl. rewrite Hw. simpl. rewrite lookup_insert_eq.
  rewrite <- list_fmap_compose. by apply (find_upsert (reviveSession ∘ jsonSession)).
Qed.

(** A session without issues in its summary is read back exactly. *)
Lemma reload_exact path s disk :
  writable disk = true -> liveSession s = true -> summaryIssues s = [] ->
  saveThenReload path s disk = Some s.
Proof.
  intros Hw Hlive Hnone. rewrite saveThenReload_eq, revive_session by done.
  f_equal. destruct s as [? ? ? ? ? sm ? ? ?]. unfold summaryIssues in Hnone.
  simpl in *. f_equal.
  destruct sm as [[? ? ir ? ?]|]; simpl in *; [| done]. by subst ir.
Qed.

(** A session with an issue in its summary is not: the dates of that issue
    come back as text. *)
Lemma reload_summary_issue path s disk i :
  writable disk = true -> liveSession s = true -> i ∈ summaryIssues s ->
  exists s',
    saveThenReload path s disk = Some s'
    /\ s' <> s
    /\ startTime s' = startTime s /\ endTime s' = endTime s
    /\ events s' = events s /\ tasks s' = tasks s /\ issues s' = issues s
    /\ summaryIssues s' = jsonIssue <$> summaryIssues s
    /\ exists text, issue_createdAt (jsonIssue i) = DateStr text.
Proof.
  intros Hw Hlive Hin. rewrite saveThenReload_eq, revive_session by done.
  eexists. split; [reflexivity |].
  assert (Hi : liveIssue i = true).
  { unfold liveSession in Hlive. apply andb_prop in Hlive as [_ Hall].
    rewrite forallb_forall in Hall. by apply Hall, list_elem_of_In. }
  assert (Htext : exists text, issue_createdAt (jsonIssue i) = DateStr text).
  { apply andb_prop in Hi as [Hc _]. destruct i as [? ? ? ? ? c ?]; simpl in *.
    destruct c as [ms| | |]; simpl in *; try done. rewrite Hc. by eexists. }
  assert (Hsm : summaryIssues
                  {| id := id s; startTime := startTime s; endTime := endTime s;
                     workspacePath := workspacePath s; events := events s;
                     summary := jsonSummary <$> summary s; tasks := tasks s;
                     issues := issues s; isActive := isActive s |}
                = jsonIssue <$> summaryIssues s).
  { unfold summaryIssues. simpl. by destruct (summary s). }
  repeat split; try done.
  intros Heq. rewrite Heq in Hsm.
  assert (Hin' : jsonIssue i ∈ summaryIssues s).
  { rewrite Hsm. by apply list_elem_of_fmap_2. }
  unfold liveSession in Hlive. apply andb_prop in Hlive as [_ Hall].
  rewrite forallb_forall in Hall. apply list_elem_of_In, Hall in Hin'.
  destruct Htext as [text Htext]. unfold liveIssue in Hin'.
  rewrite Htext in Hin'. done.
Qed.

End StoreFacts.

(** C2, at a session the extension really saves.  The session stored after
    the summarizer has run is read back with every date that [reviveSession]
    names as a [Date] exact to the millisecond, but with the dates of the
    issue nested in its summary left as ISO text: the reloaded session is not
    equal to the saved one. *)
Theorem C2_reload_leaves_summary_dates_as_text :
  exists s',
    saveThenReload "/home/dev/.store" summarizedSession emptyDisk = Some s'
    /\ s' <> summarizedSession
    /\ startTime s' = startTime summarizedSession
    /\ endTime s' = endTime summarizedSession
    /\ events s' = events summarizedSession
    /\ (issue_createdAt <$> Live.summaryIssues summarizedSession)
       = [DateObj 1793650201000]
    /\ (issue_createdAt <$> Live.summaryIssues s')
       = [DateStr "2026-11-02T20:10:01.000Z"]
    /\ (resolvedAt <$> Live.summaryIssues s')
       = [Some (DateStr "2026-11-02T20:10:01.000Z")].
Proof.
  eexists. split; [vm_compute; reflexivity |].
  split; [discriminate |]. repeat split.
Qed.

(** * Further properties of the code *)

(** ** EventBuffer: capacity, order, loss *)

Section BufferMore.
Context {W : Type}.
Implicit Types (b : EventBuffer.t W) (w : W) (es : list SessionEvent).

(** X1. Whatever the buffer held, after [push] it holds fewer events than its
    capacity (when the capacity is positive): a push that reaches the capacity
    empties the buffer.  Capacity and callback are untouched. *)
Theorem push_below_capacity e b w :
  0 < EventBuffer.maxSize b ->
  Z.of_nat (length (EventBuffer.buffer (EventBuffer.push e b w).1)) < EventBuffer.maxSize b
  /\ EventBuffer.maxSize (EventBuffer.push e b w).1 = EventBuffer.maxSize b
  /\ EventBuffer.flushCallback (EventBuffer.push e b w).1 = EventBuffer.flushCallback b.
Proof.
  intros Hpos. unfold EventBuffer.push, EventBuffer.flush. simpl.
  destruct (EventBuffer.maxSize b <=? _) eqn:Hfull.
  - destruct (EventBuffer.flushCallback b); [destruct (0 <? _) |]; simpl;
      repeat split; lia.
  - simpl. rewrite length_app in *. simpl in *. repeat split; lia.
Qed.

(** X3. Without a registered callback the events of a full buffer are dropped:
    the push that reaches the capacity empties the buffer and nothing else
    changes. *)
Theorem push_without_callback_drops e b w :
  EventBuffer.flushCallback b = None ->
  EventBuffer.maxSize b <= Z.of_nat (length (EventBuffer.buffer b)) + 1 ->
  EventBuffer.push e b w = (EventBuffer.clear b, w).
Proof.
  intros Hcb Hfull. unfold EventBuffer.push, EventBuffer.flush, EventBuffer.clear. simpl.
  rewrite Hcb, length_app. simpl.
  destruct (EventBuffer.maxSize b <=? _) eqn:E; [done | lia].
Qed.

(** X4. [flush] returns what was buffered and leaves the buffer empty; a second
    [flush] right after returns nothing and calls no callback. *)
Theorem flush_then_flush b w :
  (EventBuffer.flush b w).1.1 = EventBuffer.buffer b
  /\ EventBuffer.buffer (EventBuffer.flush b w).1.2 = []
  /\ EventBuffer.flush (EventBuffer.flush b w).1.2 (EventBuffer.flush b w).2
     = ([], (EventBuffer.flush b w).1.2, (EventBuffer.flush b w).2).
Proof.
  assert (Hfst : (EventBuffer.flush b w).1.1 = EventBuffer.buffer b
                 /\ EventBuffer.buffer (EventBuffer.flush b w).1.2 = []).
  { unfold EventBuffer.flush.
    destruct (EventBuffer.flushCallback b); [destruct (0 <? _) |]; done. }
  destruct Hfst as [Hret Hempty]. split; [done |]. split; [done |].
  by apply flush_empty.
Qed.

End BufferMore.

(** X2. With a callback registered, whatever the capacity and whatever the
    buffer holds, a run of pushes loses, repeats or reorders nothing: the
    batches delivered so far, in order, followed by what is still buffered,
    are the earlier batches, the earlier buffer and the pushed events; and no
    delivered batch is empty. *)
Theorem pushAll_keeps_order
    (es : list SessionEvent) (b : EventBuffer.t (list (list SessionEvent)))
    (calls : list (list SessionEvent)) :
  EventBuffer.flushCallback b = Some EventBuffer.recorder ->
  Forall (fun batch => batch <> []) calls ->
  concat (EventBuffer.pushAll es b calls).2
    ++ EventBuffer.buffer (EventBuffer.pushAll es b calls).1
  = concat calls ++ EventBuffer.buffer b ++ es
  /\ Forall (fun batch => batch <> []) (EventBuffer.pushAll es b calls).2.
Proof.
  revert b calls. induction es as [|e es IH]; intros b calls Hcb Hne; simpl.
  - by rewrite app_nil_r.
  - destruct (EventBuffer.push e b calls) as [b1 calls1] eqn:Hpush.
    assert (Hstep : EventBuffer.flushCallback b1 = Some EventBuffer.recorder
                    /\ concat calls1 ++ EventBuffer.buffer b1
                       = concat calls ++ EventBuffer.buffer b ++ [e]
                    /\ Forall (fun batch => batch <> []) calls1).
    { unfold EventBuffer.push, EventBuffer.flush in Hpush. simpl in Hpush.
      rewrite Hcb in Hpush.
      destruct (EventBuffer.maxSize b <=? _).
      - destruct (0 <? _) eqn:Hlen.
        + injection Hpush as <- <-. simpl. unfold EventBuffer.recorder.
          rewrite concat_app. simpl. rewrite !app_nil_r.
          split; [done |]. split; [done |].
          apply Forall_app. split; [done |]. constructor; [| done].
          by destruct (EventBuffer.buffer b).
        + rewrite length_app in Hlen. simpl in Hlen. lia.
      - injection Hpush as <- <-. by simpl. }
    destruct Hstep as (Hcb1 & Hcat & Hne1).
    destruct (IH b1 calls1 Hcb1 Hne1) as [Hall Hne'].
    split; [| done]. rewrite Hall, app_assoc, Hcat. by rewrite <- !app_assoc.
Qed.

Lemma push_below_capacity_witness :
  0 < EventBuffer.maxSize (EventBuffer.new (W := unit) (Some 1))
  /\ Z.of_nat (length (EventBuffer.buffer
       (EventBuffer.push (sampleEvent 1) (EventBuffer.new (W := unit) (Some 1)) tt).1)) < 1.
Proof.
  split; [simpl; lia |].
  apply (push_below_capacity (sampleEvent 1) (EventBuffer.new (W := unit) (Some 1)) tt).
  simpl. lia.
Defined.

Lemma push_without_callback_drops_witness :
  EventBuffer.push (sampleEvent 2)
    {| EventBuffer.buffer := [sampleEvent 1]; EventBuffer.maxSize := 2;
       EventBuffer.flushCallback := None |} tt
  = ({| EventBuffer.buffer := []; EventBuffer.maxSize := 2;
        EventBuffer.flushCallback := None |}, tt).
Proof.
  apply (push_without_callback_drops (sampleEvent 2)
           {| EventBuffer.buffer := [sampleEvent 1]; EventBuffer.maxSize := 2;
              EventBuffer.flushCallback := None |} tt); [reflexivity | simpl; lia].
Defined.

Lemma pushAll_keeps_order_witness :
  let b := EventBuffer.onFlush EventBuffer.recorder (EventBuffer.new (Some 2)) in
  let es := [sampleEvent 1; sampleEvent 2; sampleEvent 3] in
  concat (EventBuffer.pushAll es b []).2 ++ EventBuffer.buffer (EventBuffer.pushAll es b []).1
  = es.
Proof.
  intros b es.
  apply (pushAll_keeps_order es b []); [reflexivity | constructor].
Defined.

(** ** SessionManager: what a call can change *)

Section FrameFacts.
Import SessionManager State History.
Implicit Types (m : SessionManager.t) (h : Host) (s : Session).

(** Every call leaves the history as it is, or sets the summary of one of
    its sessions, or appends the current session, finalized now; and it
    leaves the current session as it is up to [touched], or removes it, or
    replaces it by a newly created one. *)
Lemma run_frame c m h :
  wf m h ->
  (sessions (run c m h).1 = sessions m
   \/ (exists sid sm, sessions (run c m h).1 = updateFirst sid sm (sessions m))
   \/ (exists s batch, currentSession m = Some s
         /\ sessions (run c m h).1
            = sessions m ++ [finalize (now h) (pushEvents batch s)]))
  /\ (currentSession (run c m h).1 = None
      \/ (exists s s', currentSession m = Some s
            /\ currentSession (run c m h).1 = Some s' /\ touched s s')
      \/ (exists s', currentSession (run c m h).1 = Some s' /\ created h s')).
Proof.
  intros Hwf.
  assert (Hcb := wf_callback _ _ Hwf).
  assert (Hend : forall h1, now h1 = now h ->
            (sessions (endSession m h1).1.2 = sessions m
             \/ (exists sid sm, sessions (endSession m h1).1.2
                                = updateFirst sid sm (sessions m))
             \/ (exists s batch, currentSession m = Some s
                   /\ sessions (endSession m h1).1.2
                      = sessions m ++ [finalize (now h) (pushEvents batch s)]))
            /\ currentSession (endSession m h1).1.2 = None).
  { intros h1 Hnow. split; [| apply endSession_current].
    destruct (currentSession m) as [s|] eqn:Hcur.
    - rewrite (endSession_some m h1 s) by done. simpl. rewrite Hnow.
      right; right. by eexists _, _.
    - rewrite endSession_none by done. by left. }
  assert (Hstart : (sessions (startSession m h).1.2 = sessions m
             \/ (exists sid sm, sessions (startSession m h).1.2
                                = updateFirst sid sm (sessions m))
             \/ (exists s batch, currentSession m = Some s
                   /\ sessions (startSession m h).1.2
                      = sessions m ++ [finalize (now h) (pushEvents batch s)]))
            /\ exists s', currentSession (startSession m h).1.2 = Some s'
                 /\ created h s' /\ eventBuffer (startSession m h).1.2
                                    = EventBuffer.clear (eventBuffer m)).
  { destruct (currentSession m) as [s|] eqn:Hcur.
    - rewrite (startSession_active m h s) by (done || by apply (wf_current _ _ Hwf)).
      pose proof (wf_endSession m h Hwf) as Hwf1.
      destruct (startSession_idle _ _ (wf_timers _ _ Hwf1) (endSession_current m h))
        as (h' & -> & _).
      rewrite (endSession_some m h s) by done. simpl.
      rewrite clearSessionTimer_now.
      split; [right; right; by eexists _, _ |].
      eexists. split; [done |]. by repeat split.
    - destruct (startSession_idle m h (wf_timers _ _ Hwf) Hcur) as (h' & -> & _).
      simpl. split; [by left |].
      eexists. split; [done |]. split; [by repeat split |].
      destruct (eventBuffer m) as [buf n cb] eqn:Hb. unfold EventBuffer.clear. simpl.
      pose proof (wf_owner _ _ Hwf Hcur) as Hbuf. rewrite Hb in Hbuf. simpl in Hbuf.
      by subst buf. }
  destruct c; simpl.
  - destruct Hstart as (Hs & s' & Hc & Hnew & _).
    destruct (startSession m h) as [[r m1] h1]. simpl in *.
    split; [done |]. right; right. by exists s'.
  - destruct (Hend h eq_refl) as (Hs & Hc).
    destruct (endSession m h) as [[r m1] h1]. simpl in *. split; [done | by left].
  - destruct (currentSession m) as [s|] eqn:Hcur.
    + destruct (addEvent_active event m h s Hwf Hcur) as (b & cur & h' & -> & Hpush & _).
      simpl. split; [by left |]. right; left.
      rewrite <- Hcur, push_attribute in Hpush by (done || apply Hwf).
      rewrite Hcur in Hpush.
      case_decide; injection Hpush as <- <-; simpl; eexists _, _;
        (split; [done |]); (split; [done |]); constructor.
    + rewrite addEvent_idle by done.
      destruct Hstart as (Hs & s' & Hc & Hnew & Hbuf).
      pose proof (wf_startSession m h Hwf) as Hwf1.
      destruct (addEvent_active event _ _ s' Hwf1 Hc) as (b & cur & h' & -> & Hpush & _).
      simpl. split; [done |]. right; right.
      rewrite <- Hc, push_attribute in Hpush by (done || apply Hwf1).
      rewrite Hbuf, Hc in Hpush. simpl in Hpush.
      injection Hpush as <- <-. by exists s'.
  - unfold addTask. destruct (currentSession m) as [s|] eqn:Hcur; simpl.
    + split; [by left |]. right; left. eexists _, _.
      split; [done |]. split; [done |]. by constructor.
    + split; by left.
  - unfold addIssue. destruct (currentSession m) as [s|] eqn:Hcur; simpl.
    + split; [by left |]. right; left. eexists _, _.
      split; [done |]. split; [done |]. by constructor.
    + split; by left.
  - unfold updateSummary. simpl.
    destruct (currentSession m) as [s|] eqn:Hcur; simpl.
    + destruct (String.eqb (id s) sessionId); simpl;
        (split; [right; left; by eexists _, _ |]); right; left; eexists _, _;
        (split; [done |]); (split; [done |]); constructor.
    + split; [right; left; by eexists _, _ | by left].
  - split; [by left |]. destruct (currentSession m) as [s|] eqn:Hcur.
    + right; left. exists s, s. repeat split; try done. constructor.
    + by left.
  - split; [by left |]. destruct (currentSession m) as [s|] eqn:Hcur.
    + right; left. exists s, s. repeat split; try done. constructor.
    + by left.
  - unfold dispose.
    destruct (Hend (clearSessionTimer m h) (clearSessionTimer_now m h)) as (Hs & Hc).
    destruct (currentSession m) as [s|] eqn:Hcur.
    + rewrite (wf_current _ _ Hwf s Hcur).
      destruct (endSession m (clearSessionTimer m h)) as [[r m1] h1]. simpl in *.
      split; [done | by left].
    + simpl. split; by left.
  - split; [by left |]. destruct (currentSession m) as [s|] eqn:Hcur.
    + right; left. exists s, s. repeat split; try done. constructor.
    + by left.
  - unfold fireTimer.
    assert (Hsame : (sessions m = sessions m
               \/ (exists sid sm, sessions m = updateFirst sid sm (sessions m))
               \/ (exists s batch, currentSession m = Some s
                     /\ sessions m = sessions m ++ [finalize (now h) (pushEvents batch s)]))
              /\ (currentSession m = None
                  \/ (exists s s', currentSession m = Some s
                        /\ currentSession m = Some s' /\ touched s s')
                  \/ (exists s', currentSession m = Some s' /\ created h s'))).
    { split; [by left |]. destruct (currentSession m) as [s|] eqn:Hcur.
      - right; left. exists s, s. repeat split; try done. constructor.
      - by left. }
    destruct (timers h !! handle) as [deadline|]; [| done].
    destruct (deadline <=? now h); [| done].
    unfold onSessionTimeout.
    destruct (currentSession m) as [s|] eqn:Hcur;
      [| simpl; rewrite ?Hcur; exact Hsame].
    destruct (isActive s); [| simpl; rewrite ?Hcur; exact Hsame].
    match goal with
    | |- context [endSession m ?h1] =>
        destruct (Hend h1 eq_refl) as (Hs & Hc);
        destruct (endSession m h1) as [[r m1] h1']
    end.
    simpl in *. split; [done | by left].
Qed.

End FrameFacts.

Section HistoryFacts.
Import SessionManager State History.
Implicit Types (m : SessionManager.t) (h : Host) (s : Session).

Lemma core_updateFirst sid sm l : core <$> updateFirst sid sm l = core <$> l.
Proof.
  induction l as [|s l IH]; [done |]. cbn [updateFirst].
  destruct (String.eqb (id s) sid); rewrite !fmap_cons; [done |]. by rewrite IH.
Qed.

Lemma closed_updateFirst sid sm l :
  Forall closed l -> Forall closed (updateFirst sid sm l).
Proof.
  induction 1 as [|s l Hs Hl IH]; simpl; [done |].
  destruct (String.eqb (id s) sid); by constructor.
Qed.

Lemma owned_updateFirst sid sm l :
  Forall owned l -> Forall owned (updateFirst sid sm l).
Proof.
  induction 1 as [|s l Hs Hl IH]; simpl; [done |].
  destruct (String.eqb (id s) sid); by constructor.
Qed.

Lemma owned_touched s s' : touched s s' -> owned s -> owned s'.
Proof.
  intros Ht [Htasks Hissues]. destruct Ht; split; simpl; try done.
  - apply Forall_app. split; [done |]. by constructor.
  - apply Forall_app. split; [done |]. by constructor.
Qed.

End HistoryFacts.

(** X12. No call of the manager removes, reorders or alters a finished session,
    its summary apart: along any run the history, summaries left out, only
    grows at its end. *)
Theorem history_only_grows (cs : list State.Call) (m : SessionManager.t) (h : Host) :
  State.wf m h ->
  exists added,
    History.core <$> SessionManager.sessions (State.runAll cs m h).1
    = (History.core <$> SessionManager.sessions m) ++ added.
Proof.
  revert m h. induction cs as [|c cs IH]; intros m h Hwf; simpl.
  - exists []. by rewrite app_nil_r.
  - pose proof (wf_run c m h Hwf) as Hwf1.
    destruct (run_frame c m h Hwf) as [Hhist _].
    destruct (State.run c m h) as [m1 h1]. simpl in *.
    destruct (IH m1 h1 Hwf1) as [added Hadded]. rewrite Hadded.
    destruct Hhist as [-> | [(sid & sm & ->) | (s & batch & _ & ->)]].
    + by exists added.
    + rewrite core_updateFirst. by exists added.
    + rewrite fmap_app, <- app_assoc. by eexists.
Qed.

Lemma history_only_grows_witness :
  exists added,
    History.core <$> SessionManager.sessions
      (State.runAll [State.StartSession; State.AddEvent (sampleEvent 1); State.EndSession]
         (SessionManager.new sampleHost) sampleHost).1
    = (History.core <$> SessionManager.sessions (SessionManager.new sampleHost)) ++ added.
Proof.
  apply (history_only_grows
           [State.StartSession; State.AddEvent (sampleEvent 1); State.EndSession]
           (SessionManager.new sampleHost) sampleHost).
  apply wf_new. reflexivity.
Defined.

(** X13. Every task and every issue the manager holds names the session that
    holds it, and every call keeps it so. *)
Theorem tasks_and_issues_stay_owned
    (cs : list State.Call) (m : SessionManager.t) (h : Host) :
  State.wf m h -> History.allOwned m ->
  History.allOwned (State.runAll cs m h).1.
Proof.
  revert m h. induction cs as [|c cs IH]; intros m h Hwf Hown; simpl; [done |].
  pose proof (wf_run c m h Hwf) as Hwf1.
  destruct (run_frame c m h Hwf) as [Hhist Hcur].
  destruct (State.run c m h) as [m1 h1]. simpl in *.
  apply IH; [done |].
  unfold History.allOwned, State.allSessions in *.
  apply Forall_app in Hown as [Hh Hc].
  assert (Hcur0 : forall s, SessionManager.currentSession m = Some s -> History.owned s).
  { intros s Hs. rewrite Hs in Hc. simpl in Hc. by apply Forall_inv in Hc. }
  apply Forall_app. split.
  - destruct Hhist as [-> | [(sid & sm & ->) | (s & batch & Hs & ->)]].
    + done.
    + by apply owned_updateFirst.
    + apply Forall_app. split; [done |]. apply Forall_singleton.
      apply (Hcur0 s Hs).
  - destruct Hcur as [-> | [(s & s' & Hs & -> & Ht) | (s' & -> & Hnew)]]; simpl.
    + constructor.
    + apply Forall_singleton. eapply owned_touched; eauto.
    + apply Forall_singleton. destruct Hnew as (_ & _ & _ & _ & Ht & Hi & _).
      split; [rewrite Ht | rewrite Hi]; constructor.
Qed.

Lemma tasks_and_issues_stay_owned_witness :
  History.allOwned
    (State.runAll
       [State.StartSession;
        State.AddTask {| ti_description := "write tests"; ti_status := pending;
                         ti_completedAt := None |};
        State.EndSession]
       (SessionManager.new sampleHost) sampleHost).1.
Proof.
  apply (tasks_and_issues_stay_owned _ (SessionManager.new sampleHost) sampleHost).
  - apply wf_new. reflexivity.
  - constructor.
Defined.

(** X14. From a state whose finished sessions are closed and in which no
    session starts after the present time, while the clock does not go
    backwards, every session of the history stays closed, and so is every
    session a call appends to it: not active, with an [endTime], which is
    not before its [startTime]. *)
Theorem history_sessions_are_closed
    (cs : list State.Call) (m : SessionManager.t) (h : Host) :
  State.wf m h -> Clock.noFuture m h -> Clock.forward cs ->
  Forall History.closed (SessionManager.sessions m) ->
  Forall History.closed (SessionManager.sessions (State.runAll cs m h).1).
Proof.
  revert m h. induction cs as [|c cs IH]; intros m h Hwf Hno Hfw Hclosed; simpl; [done |].
  apply Forall_cons in Hfw as [Hc Hcs].
  pose proof (wf_run c m h Hwf) as Hwf1.
  pose proof (noFuture_run c m h Hwf Hno Hc) as Hno1.
  destruct (run_frame c m h Hwf) as [Hhist _].
  destruct (State.run c m h) as [m1 h1]. simpl in *.
  apply IH; try done.
  destruct Hhist as [-> | [(sid & sm & ->) | (s & batch & Hs & ->)]].
  - done.
  - by apply closed_updateFirst.
  - apply Forall_app. split; [done |]. apply Forall_singleton.
    split; [done |]. exists (now h). split; [done |]. simpl.
    unfold Clock.noFuture, State.allSessions in Hno.
    rewrite Hs, fmap_app, Forall_app in Hno. destruct Hno as [_ Hcur].
    simpl in Hcur. by apply Forall_inv in Hcur.
Qed.

Lemma history_sessions_are_closed_witness :
  Forall History.closed
    (SessionManager.sessions
       (State.runAll [State.StartSession; State.Elapse 1000; State.StartSession]
          (SessionManager.new sampleHost) sampleHost).1).
Proof.
  apply (history_sessions_are_closed _ (SessionManager.new sampleHost) sampleHost).
  - apply wf_new. reflexivity.
  - constructor.
  - repeat constructor. lia.
  - constructor.
Defined.

Section ObserverFacts.
Import SessionManager State History.

Lemma registerAll_fields observers m :
  onSessionEndCallbacks (registerAll observers m) = onSessionEndCallbacks m ++ observers
  /\ currentSession (registerAll observers m) = currentSession m
  /\ sessions (registerAll observers m) = sessions m
  /\ eventBuffer (registerAll observers m) = eventBuffer m
  /\ sessionTimeoutTimer (registerAll observers m) = sessionTimeoutTimer m.
Proof.
  unfold registerAll. revert m.
  induction observers as [|cb observers IH]; intros m; simpl.
  - by rewrite app_nil_r.
  - destruct (IH (onSessionEnd cb m)) as (-> & -> & -> & -> & ->). simpl.
    by rewrite <- app_assoc.
Qed.

Lemma notifyAll_returning throws callbacks ended :
  Forall (fun cb => throws cb = false) callbacks ->
  Observers.notifyAll throws callbacks ended
  = (map (fun cb => SessionEndCallback cb ended) callbacks, true).
Proof.
  induction 1 as [|cb l Hcb _ IH]; [done |].
  cbn [Observers.notifyAll map]. by rewrite Hcb, IH.
Qed.

Lemma notifyAll_throwing throws before cb after ended :
  Forall (fun cb => throws cb = false) before -> throws cb = true ->
  Observers.notifyAll throws (before ++ cb :: after) ended
  = (map (fun cb => SessionEndCallback cb ended) (before ++ [cb]), false).
Proof.
  intros Hbefore Hcb. induction Hbefore as [|cb0 l Hcb0 _ IH].
  - cbn [app Observers.notifyAll]. by rewrite Hcb.
  - rewrite <- !app_comm_cons. cbn [Observers.notifyAll map]. by rewrite Hcb0, IH.
Qed.

End ObserverFacts.

(** X7. [endSession] and its observers, which do not call the manager
    themselves.  As long as the observers registered with [onSessionEnd]
    return, [endSession] calls every one of them exactly
    once, in the order of registration, each with the session it returns,
    and shows its notification after the last.  When one of them throws,
    the observers registered after it are not called, no notification is
    shown and the exception leaves [endSession], with the session finalized
    and in the history but still the current session, its timeout
    cleared. *)
Theorem endSession_notifies_in_registration_order
    (throws : nat -> bool) (observers : list nat)
    (m : SessionManager.t) (h : Host) (s : Session) :
  EventBuffer.flushCallback (SessionManager.eventBuffer m) = Some SessionManager.attribute ->
  SessionManager.currentSession m = Some s ->
  let registered := History.registerAll observers m in
  let all := SessionManager.onSessionEndCallbacks m ++ observers in
  let ended :=
    SessionManager.finalize (now h)
      (SessionManager.pushEvents (EventBuffer.buffer (SessionManager.eventBuffer m)) s) in
  (Forall (fun cb => throws cb = false) all ->
   Observers.endSession throws registered h = inl (SessionManager.endSession registered h)
   /\ (SessionManager.endSession registered h).1.1 = Some ended
   /\ SessionManager.currentSession (SessionManager.endSession registered h).1.2 = None
   /\ SessionManager.sessions (SessionManager.endSession registered h).1.2
      = SessionManager.sessions m ++ [ended]
   /\ effects (SessionManager.endSession registered h).2
      = effects h
        ++ map (fun cb => SessionEndCallback cb ended) all
        ++ [ShowInformationMessage "Log Close: Session ended"])
  /\ (forall before cb after,
        all = before ++ cb :: after ->
        Forall (fun cb => throws cb = false) before -> throws cb = true ->
        exists m2 h2,
          Observers.endSession throws registered h = inr (m2, h2)
          /\ effects h2
             = effects h ++ map (fun cb => SessionEndCallback cb ended) (before ++ [cb])
          /\ SessionManager.currentSession m2 = Some ended
          /\ isActive ended = false
          /\ SessionManager.sessions m2 = SessionManager.sessions m ++ [ended]
          /\ timers h2 = timers (SessionManager.clearSessionTimer m h)).
Proof.
  intros Hcb Hcur registered all ended.
  destruct (registerAll_fields observers m) as (Hobs & Hc & Hs & Hb & Ht).
  fold registered in Hobs, Hc, Hs, Hb, Ht.
  assert (Hflush : SessionManager.flushBuffer registered
                   = SessionManager.withBuffer
                       (EventBuffer.clear (SessionManager.eventBuffer m))
                       (Some (SessionManager.pushEvents
                                (EventBuffer.buffer (SessionManager.eventBuffer m)) s))
                       registered).
  { rewrite flushBuffer_eq by congruence. by rewrite Hc, Hcur, Hb. }
  split.
  - intros Hall. split.
    { unfold Observers.endSession, SessionManager.endSession.
      rewrite Hc, Hcur, Hflush.
      cbn [SessionManager.currentSession SessionManager.withBuffer
           SessionManager.withSessions SessionManager.withCurrent
           SessionManager.onSessionEndCallbacks].
      rewrite Hobs, notifyAll_returning by exact Hall. reflexivity. }
    rewrite (endSession_some registered h s) by congruence.
    cbn [fst snd SessionManager.currentSession SessionManager.sessions].
    rewrite Hobs, Hs, Hb.
    split; [done |]. split; [done |]. split; [done |].
    cbn [effects emit]. rewrite clearSessionTimer_effects. by rewrite <- app_assoc.
  - intros before cb after Hsplit Hbefore Hthrows.
    unfold Observers.endSession. rewrite Hc, Hcur, Hflush.
    cbn [SessionManager.currentSession SessionManager.withBuffer
         SessionManager.withSessions SessionManager.withCurrent
         SessionManager.onSessionEndCallbacks SessionManager.sessions].
    rewrite Hobs, Hs. fold all. rewrite Hsplit.
    rewrite (notifyAll_throwing throws before cb after _ Hbefore Hthrows).
    do 2 eexists. split; [reflexivity |].
    cbn [effects emit timers SessionManager.currentSession SessionManager.sessions].
    rewrite clearSessionTimer_effects.
    split; [done |]. split; [done |]. split; [done |]. split; [done |].
    unfold SessionManager.clearSessionTimer.
    cbn [SessionManager.sessionTimeoutTimer SessionManager.withCurrent
         SessionManager.withSessions SessionManager.withBuffer].
    by rewrite Ht.
Qed.

Lemma endSession_notifies_in_registration_order_witness :
  let m := (SessionManager.startSession
              (SessionManager.onSessionEnd 4 (SessionManager.new sampleHost)) sampleHost).1.2 in
  (exists ended,
      effects (SessionManager.endSession (History.registerAll [9; 2]%nat m) sampleHost).2
      = [SessionEndCallback 4%nat ended; SessionEndCallback 9%nat ended;
         SessionEndCallback 2%nat ended;
         ShowInformationMessage "Log Close: Session ended"])
  /\ (exists ended m2 h2,
        Observers.endSession (Nat.eqb 9) (History.registerAll [9; 2]%nat m) sampleHost
        = inr (m2, h2)
        /\ effects h2 = [SessionEndCallback 4%nat ended; SessionEndCallback 9%nat ended]
        /\ SessionManager.currentSession m2 = Some ended).
Proof.
  intros m.
  pose proof (fun throws =>
    endSession_notifies_in_registration_order throws [9; 2]%nat m sampleHost
      (SessionManager.startSession
         (SessionManager.onSessionEnd 4 (SessionManager.new sampleHost))
         sampleHost).1.1 eq_refl eq_refl) as Hspec.
  split.
  - destruct (Hspec (fun _ => false)) as [Hreturns _].
    destruct Hreturns as (_ & _ & _ & _ & Heff); [by repeat constructor |].
    eexists. exact Heff.
  - destruct (Hspec (Nat.eqb 9)) as [_ Hthrows].
    destruct (Hthrows [4%nat] 9%nat [2%nat] eq_refl ltac:(by repeat constructor) eq_refl)
      as (m2 & h2 & Heq & Heff & Hcur & _).
    eexists _, m2, h2. split; [exact Heq |]. split; [exact Heff | exact Hcur].
Defined.

Section StaleTimerFacts.
Import SessionManager State.

Lemma fireTimer_not_pending handle m h :
  timers h !! handle = None -> fireTimer handle m h = (m, h).
Proof. unfold fireTimer. by intros ->. Qed.

Lemma handle_after_startSession m h :
  wf m h -> sessionTimeoutTimer (startSession m h).1.2 = Some (nextTimer h).
Proof.
  intros Hwf. destruct (currentSession m) as [s|] eqn:Hcur.
  - rewrite (startSession_active m h s) by (done || by apply (wf_current _ _ Hwf)).
    pose proof (wf_endSession m h Hwf) as Hwf1.
    destruct (startSession_idle _ _ (wf_timers _ _ Hwf1) (endSession_current m h))
      as (h' & -> & _). simpl.
    rewrite (endSession_some m h s) by (done || apply Hwf). simpl.
    by rewrite clearSessionTimer_nextTimer.
  - by destruct (startSession_idle m h (wf_timers _ _ Hwf) Hcur) as (h' & -> & _).
Qed.

Lemma nextTimer_startSession m h :
  wf m h -> nextTimer (startSession m h).2 = S (nextTimer h).
Proof.
  intros Hwf. destruct (currentSession m) as [s|] eqn:Hcur.
  - rewrite (startSession_active m h s) by (done || by apply (wf_current _ _ Hwf)).
    pose proof (wf_endSession m h Hwf) as Hwf1.
    destruct (startSession_idle _ _ (wf_timers _ _ Hwf1) (endSession_current m h))
      as (h' & -> & _ & Hn & _). simpl. rewrite Hn.
    rewrite (endSession_some m h s) by (done || apply Hwf). simpl.
    by rewrite clearSessionTimer_nextTimer.
  - by destruct (startSession_idle m h (wf_timers _ _ Hwf) Hcur) as (h' & -> & _ & Hn & _).
Qed.

Lemma handle_after_addEvent e m h :
  wf m h ->
  exists k, sessionTimeoutTimer (addEvent e m h).1 = Some k /\ (nextTimer h <= k)%nat.
Proof.
  intros Hwf. destruct (currentSession m) as [s|] eqn:Hcur.
  - destruct (addEvent_active e m h s Hwf Hcur) as (b & cur & h' & -> & _).
    simpl. by eexists.
  - rewrite addEvent_idle by done.
    destruct (addEvent_active e _ _ _ (wf_startSession m h Hwf) (startSession_current m h))
      as (b & cur & h' & -> & _).
    simpl. eexists. split; [done |]. rewrite nextTimer_startSession by done. lia.
Qed.

End StaleTimerFacts.

(** X8. A cancelled timeout never runs.  After [dispose], and after
    [endSession] of a current session, no timeout is pending, so whatever
    handle the scheduler holds and however late, nothing happens; and after
    [addEvent] or [startSession] the timeout they replaced does nothing
    either. *)
Theorem cancelled_timeout_never_fires (m : SessionManager.t) (h : Host) :
  State.wf m h ->
  (forall handle dt,
      let r := SessionManager.dispose m h in
      SessionManager.fireTimer handle r.1 (elapse dt r.2) = (r.1, elapse dt r.2))
  /\ (forall handle dt,
        is_Some (SessionManager.currentSession m) ->
        let r := SessionManager.endSession m h in
        SessionManager.fireTimer handle r.1.2 (elapse dt r.2) = (r.1.2, elapse dt r.2))
  /\ (forall old dt e,
        SessionManager.sessionTimeoutTimer m = Some old ->
        let r := SessionManager.addEvent e m h in
        SessionManager.fireTimer old r.1 (elapse dt r.2) = (r.1, elapse dt r.2))
  /\ (forall old dt,
        SessionManager.sessionTimeoutTimer m = Some old ->
        let r := SessionManager.startSession m h in
        SessionManager.fireTimer old r.1.2 (elapse dt r.2) = (r.1.2, elapse dt r.2)).
Proof.
  intros Hwf.
  assert (Hcb := State.wf_callback _ _ Hwf).
  assert (Hclear : timers (SessionManager.clearSessionTimer m h) = ∅)
    by (apply clearSessionTimer_timers, Hwf).
  split; [| split; [| split]].
  - intros handle dt r. apply fireTimer_not_pending. simpl. subst r.
    unfold SessionManager.dispose.
    destruct (SessionManager.currentSession m) as [s|] eqn:Hcur.
    + rewrite (State.wf_current _ _ Hwf s Hcur).
      rewrite (endSession_some m _ s Hcb Hcur). simpl.
      unfold SessionManager.clearSessionTimer at 1.
      destruct (SessionManager.sessionTimeoutTimer m); simpl;
        by rewrite Hclear, ?delete_empty, lookup_empty.
    + simpl. by rewrite Hclear, lookup_empty.
  - intros handle dt [s Hcur] r. apply fireTimer_not_pending. simpl. subst r.
    rewrite (endSession_some m h s Hcb Hcur). simpl.
    by rewrite Hclear, lookup_empty.
  - intros old dt e Hold r. apply fireTimer_not_pending. simpl. subst r.
    pose proof (wf_addEvent e m h Hwf) as Hwf1.
    destruct (addEvent_received e m h Hwf) as (_ & _ & s1 & Hs1 & _).
    destruct (wf_pending _ _ s1 Hwf1 Hs1) as (k & Hk & ->).
    destruct (handle_after_addEvent e m h Hwf) as (k' & Hk' & Hle).
    pose proof (State.wf_handles _ _ Hwf old Hold).
    apply lookup_singleton_ne. assert (k = k') by congruence. lia.
  - intros old dt Hold r. apply fireTimer_not_pending. simpl. subst r.
    pose proof (wf_startSession m h Hwf) as Hwf1.
    destruct (wf_pending _ _ _ Hwf1 (startSession_current m h)) as (k & Hk & ->).
    rewrite handle_after_startSession in Hk by done.
    pose proof (State.wf_handles _ _ Hwf old Hold).
    apply lookup_singleton_ne. assert (k = nextTimer h) by congruence. lia.
Qed.

Lemma cancelled_timeout_never_fires_witness :
  let r0 := SessionManager.startSession (SessionManager.new sampleHost) sampleHost in
  let r := SessionManager.endSession r0.1.2 (elapse 5000 r0.2) in
  SessionManager.fireTimer 0 r.1.2 (elapse 900000 r.2) = (r.1.2, elapse 900000 r.2).
Proof.
  intros r0 r.
  assert (Hwf : State.wf r0.1.2 (elapse 5000 r0.2)).
  { apply wf_elapse, wf_startSession, wf_new. reflexivity. }
  destruct (cancelled_timeout_never_fires _ _ Hwf) as (_ & Hend & _).
  apply (Hend 0%nat 900000). by eexists.
Defined.

(** X11. [updateSummary] with an id that no session of the manager has changes
    nothing. *)
Theorem updateSummary_unknown_id
    (sid : string) (sm : option SessionSummary) (m : SessionManager.t) :
  Forall (fun s => id s <> sid) (State.allSessions m) ->
  SessionManager.updateSummary sid sm m = m.
Proof.
  unfold State.allSessions. intros [Hh Hc]%Forall_app.
  assert (Hlist : SessionManager.updateFirst sid sm (SessionManager.sessions m)
                  = SessionManager.sessions m).
  { induction Hh as [|s l Hs Hl IH]; simpl; [done |].
    apply String.eqb_neq in Hs. by rewrite Hs, IH. }
  unfold SessionManager.updateSummary, SessionManager.withSessions. rewrite Hlist. simpl.
  destruct m as [cur l b t0 timer e1 e2]. simpl in *.
  destruct cur as [s|]; [| done].
  simpl in Hc. apply Forall_inv in Hc. apply String.eqb_neq in Hc. by rewrite Hc.
Qed.

Lemma updateSummary_unknown_id_witness :
  SessionManager.updateSummary "no-such-id" None
    (SessionManager.loadSessions [futureSession] (SessionManager.new sampleHost))
  = SessionManager.loadSessions [futureSession] (SessionManager.new sampleHost).
Proof.
  apply updateSummary_unknown_id. repeat constructor. discriminate.
Defined.

Section BufferedEvents.
Import SessionManager State.

Lemma addEvent_buffer e m h :
  wf m h ->
  EventBuffer.buffer (eventBuffer (addEvent e m h).1)
  = if decide (length (EventBuffer.buffer (eventBuffer m)) + 1 < 50)%nat
    then EventBuffer.buffer (eventBuffer m) ++ [e] else [].
Proof.
  assert (Hactive : forall m h s, wf m h -> currentSession m = Some s ->
            EventBuffer.buffer (eventBuffer (addEvent e m h).1)
            = if decide (length (EventBuffer.buffer (eventBuffer m)) + 1 < 50)%nat
              then EventBuffer.buffer (eventBuffer m) ++ [e] else []).
  { clear m h. intros m h s Hwf Hcur.
    destruct (addEvent_active e m h s Hwf Hcur) as (b & cur & h' & -> & Hpush & _).
    rewrite <- Hcur, push_attribute in Hpush by apply Hwf.
    simpl. case_decide; by injection Hpush as <- <-. }
  intros Hwf. destruct (currentSession m) as [s|] eqn:Hcur.
  - by apply (Hactive m h s).
  - rewrite addEvent_idle by done.
    rewrite (Hactive _ _ _ (wf_startSession m h Hwf) (startSession_current m h)).
    destruct (startSession_idle m h (wf_timers _ _ Hwf) Hcur) as (h' & -> & _).
    done.
Qed.

End BufferedEvents.

(** X5. Events do not reach the session as they arrive.  While fewer than 50
    are buffered, [addEvent] only buffers: the events of the current session
    (what [getCurrentSession] shows) stay as they were, and the buffer holds
    the arrivals in order. *)
Theorem events_wait_in_buffer
    (calls : list (Z * SessionEvent)) (m : SessionManager.t) (h : Host) :
  State.wf m h ->
  (length (EventBuffer.buffer (SessionManager.eventBuffer m)) + length calls < 50)%nat ->
  let m' := (SessionManager.addEvents calls m h).1 in
  EventBuffer.buffer (SessionManager.eventBuffer m')
  = EventBuffer.buffer (SessionManager.eventBuffer m) ++ calls.*2
  /\ from_option events [] (SessionManager.currentSession m')
     = from_option events [] (SessionManager.currentSession m).
Proof.
  intros Hwf Hlen m'.
  assert (Hbuf : EventBuffer.buffer (SessionManager.eventBuffer m')
                 = EventBuffer.buffer (SessionManager.eventBuffer m) ++ calls.*2).
  { subst m'. revert Hlen.
    induction calls as [|[dt e] calls IH] using rev_ind; intros Hlen.
    - simpl. by rewrite app_nil_r.
    - rewrite addEvents_snoc, length_app in *. simpl in Hlen.
      pose proof (wf_elapse _ _ dt (wf_addEvents calls m h Hwf)) as Hwf1.
      rewrite addEvent_buffer by done. simpl. rewrite IH by lia.
      rewrite fmap_app. simpl. case_decide as Hdec.
      + by rewrite <- app_assoc.
      + rewrite length_app, length_fmap in Hdec. lia. }
  split; [done |].
  destruct (addEvents_received calls m h Hwf) as (_ & Hr & _). fold m' in Hr.
  unfold State.received in Hr. rewrite Hbuf, app_assoc in Hr.
  by do 2 apply app_inv_tail in Hr.
Qed.

Lemma events_wait_in_buffer_witness :
  let m' := (SessionManager.addEvents [(0, sampleEvent 1); (10, sampleEvent 2)]
               (SessionManager.new sampleHost) sampleHost).1 in
  EventBuffer.buffer (SessionManager.eventBuffer m') = [sampleEvent 1; sampleEvent 2]
  /\ from_option events [] (SessionManager.currentSession m') = [].
Proof.
  apply (events_wait_in_buffer [(0, sampleEvent 1); (10, sampleEvent 2)]
           (SessionManager.new sampleHost) sampleHost).
  - apply wf_new. reflexivity.
  - simpl. lia.
Defined.

(** X6. The event that makes the buffer reach 50 is the one that moves all 50
    to the current session: the buffer is empty after it and the session's
    events are those it had, the 49 buffered ones and the new one, in
    order. *)
Theorem fiftieth_event_reaches_session
    (e : SessionEvent) (m : SessionManager.t) (h : Host) (s : Session) :
  State.wf m h ->
  SessionManager.currentSession m = Some s ->
  length (EventBuffer.buffer (SessionManager.eventBuffer m)) = 49%nat ->
  exists s',
    SessionManager.currentSession (SessionManager.addEvent e m h).1 = Some s'
    /\ events s' = events s ++ EventBuffer.buffer (SessionManager.eventBuffer m) ++ [e]
    /\ EventBuffer.buffer (SessionManager.eventBuffer (SessionManager.addEvent e m h).1) = []
    /\ id s' = id s.
Proof.
  intros Hwf Hcur Hlen.
  pose proof (addEvent_buffer e m h Hwf) as Hbuf.
  case_decide; [lia |].
  destruct (addEvent_received e m h Hwf) as (_ & Hr & s' & Hs' & Hid).
  exists s'. split; [done |].
  unfold State.received in Hr. rewrite Hbuf, Hs', Hcur, app_nil_r in Hr. simpl in Hr.
  split; [by rewrite Hr, <- app_assoc |]. split; [done |]. by apply Hid.
Qed.

Lemma fiftieth_event_reaches_session_witness :
  exists s',
    SessionManager.currentSession
      (SessionManager.addEvent (sampleEvent 49) busyState.1 busyState.2).1 = Some s'
    /\ length (events s') = 50%nat.
Proof.
  assert (Hwf : State.wf busyState.1 busyState.2).
  { apply wf_addEvents, wf_new. reflexivity. }
  assert (Hcur : exists s, SessionManager.currentSession busyState.1 = Some s
                           /\ events s = []).
  { eexists. split; vm_compute; reflexivity. }
  destruct Hcur as (s & Hcur & Hnone).
  assert (Hlen : length (EventBuffer.buffer (SessionManager.eventBuffer busyState.1))
                 = 49%nat) by (vm_compute; reflexivity).
  destruct (fiftieth_event_reaches_session (sampleEvent 49) _ _ s Hwf Hcur Hlen)
    as (s' & Hs' & Hev & _).
  exists s'. split; [exact Hs' |].
  rewrite Hev, Hnone, !length_app, Hlen. reflexivity.
Defined.

(** ** LocalDb: lookups, deletion, the file *)

Section StoreMore.
Import LocalDb.

Lemma find_upsert_same s l :
  List.find (fun x => String.eqb (id x) (id s)) (upsert s l) = Some s.
Proof.
  pose proof (find_upsert (fun x => x) s l (fun x => eq_refl)) as Hfind.
  by rewrite list_fmap_id in Hfind.
Qed.

Lemma find_upsert_other (k : string) s l :
  k <> id s ->
  List.find (fun x => String.eqb (id x) k) (upsert s l)
  = List.find (fun x => String.eqb (id x) k) l.
Proof.
  intros Hk. induction l as [|x l IH]; simpl.
  - apply not_eq_sym, String.eqb_neq in Hk. by rewrite Hk.
  - destruct (String.eqb (id x) (id s)) eqn:Hx; simpl.
    + apply String.eqb_eq in Hx. rewrite Hx.
      apply not_eq_sym, String.eqb_neq in Hk. by rewrite Hk.
    + destruct (String.eqb (id x) k); [done | apply IH].
Qed.

Lemma ids_upsert s l :
  id <$> upsert s l
  = if decide (id s ∈ id <$> l) then id <$> l else (id <$> l) ++ [id s].
Proof.
  induction l as [|x l IH]; cbn [upsert].
  - rewrite fmap_nil. rewrite decide_False; [done |]. apply not_elem_of_nil.
  - destruct (String.eqb (id x) (id s)) eqn:Hx; cbv iota; rewrite !fmap_cons.
    + apply String.eqb_eq in Hx.
      rewrite decide_True by (rewrite Hx; apply list_elem_of_here). by rewrite Hx.
    + apply String.eqb_neq in Hx. rewrite IH.
      destruct (decide (id s ∈ id <$> l)) as [Hin | Hin].
      * by rewrite decide_True by (by apply list_elem_of_further).
      * rewrite decide_False; [done |].
        intros [? | ?]%elem_of_cons; [congruence | done].
Qed.

Lemma upsert_replaces s before old after :
  Forall (fun x => id x <> id s) before -> id old = id s ->
  upsert s (before ++ old :: after) = before ++ s :: after.
Proof.
  intros Hbefore Hold. induction Hbefore as [|x l Hx _ IH]; simpl.
  - by rewrite Hold, String.eqb_refl.
  - apply String.eqb_neq in Hx. by rewrite Hx, IH.
Qed.

Lemma upsert_appends s l :
  Forall (fun x => id x <> id s) l -> upsert s l = l ++ [s].
Proof.
  induction 1 as [|x l Hx _ IH]; simpl; [done |].
  apply String.eqb_neq in Hx. by rewrite Hx, IH.
Qed.

Lemma upsert_idempotent s l : upsert s (upsert s l) = upsert s l.
Proof.
  induction l as [|x l IH]; simpl.
  - by rewrite String.eqb_refl.
  - destruct (String.eqb (id x) (id s)) eqn:Hx; simpl.
    + by rewrite String.eqb_refl.
    + by rewrite Hx, IH.
Qed.

End StoreMore.

(** X15. [saveSession] then [getSession]: the saved session is found under its
    id, and what is found under any other id is what was found before. *)
Theorem saveSession_then_getSession
    (s : Session) (db : LocalDb.t) (disk : LocalDb.Disk) :
  LocalDb.getSession (id s) (LocalDb.saveSession s db disk).1 = Some s
  /\ forall k, k <> id s ->
       LocalDb.getSession k (LocalDb.saveSession s db disk).1 = LocalDb.getSession k db.
Proof.
  unfold LocalDb.getSession, LocalDb.saveSession. simpl. split.
  - apply find_upsert_same.
  - intros k Hk. by apply find_upsert_other.
Qed.

(** X16. [saveSession] is an upsert by id: when a stored session has the id,
    the saved session takes the place of the first such session and every
    other session stays where it is; when none has it, the saved session is
    appended.  So the list of ids is kept or gets the new id at its end, and
    ids that were distinct stay distinct. *)
Theorem saveSession_upserts (s : Session) (db : LocalDb.t) (disk : LocalDb.Disk) :
  (forall before old after,
      LocalDb.data db = before ++ old :: after ->
      Forall (fun x => id x <> id s) before -> id old = id s ->
      LocalDb.data (LocalDb.saveSession s db disk).1 = before ++ s :: after)
  /\ (Forall (fun x => id x <> id s) (LocalDb.data db) ->
      LocalDb.data (LocalDb.saveSession s db disk).1 = LocalDb.data db ++ [s])
  /\ (id <$> LocalDb.data (LocalDb.saveSession s db disk).1
      = if decide (id s ∈ id <$> LocalDb.data db)
        then id <$> LocalDb.data db
        else (id <$> LocalDb.data db) ++ [id s])
  /\ (NoDup (id <$> LocalDb.data db) ->
      NoDup (id <$> LocalDb.data (LocalDb.saveSession s db disk).1)).
Proof.
  unfold LocalDb.saveSession. simpl.
  split; [intros before old after ->; apply upsert_replaces |].
  split; [apply upsert_appends |].
  rewrite ids_upsert. split; [done |].
  intros Hnd. case_decide as Hin; [done |].
  apply NoDup_app. split; [done |]. split.
  - intros x Hx Hs. apply list_elem_of_singleton in Hs. by subst.
  - apply NoDup_singleton.
Qed.

(** X17. Saving the same session twice in a row is saving it once: the store
    and the file are the same (as when the command handler and the
    end-of-session observer both save an ended session). *)
Theorem saveSession_twice (s : Session) (db : LocalDb.t) (disk : LocalDb.Disk) :
  let r := LocalDb.saveSession s db disk in
  LocalDb.saveSession s r.1 r.2 = r.
Proof.
  unfold LocalDb.saveSession, LocalDb.save. simpl.
  rewrite upsert_idempotent. f_equal.
  destruct (LocalDb.writable disk) eqn:Hw; simpl; rewrite ?Hw;
    [by rewrite insert_insert_eq |].
  destruct (LocalDb.opensBeforeFailing disk) eqn:Ho; simpl; rewrite ?Hw, ?Ho; [| done].
  by rewrite insert_insert_eq.
Qed.

(** X18. After [deleteSession] nothing is found under the deleted id, and what
    is found under any other id is what was found before. *)
Theorem deleteSession_then_getSession
    (sid : string) (db : LocalDb.t) (disk : LocalDb.Disk) :
  LocalDb.getSession sid (LocalDb.deleteSession sid db disk).1 = None
  /\ forall k, k <> sid ->
       LocalDb.getSession k (LocalDb.deleteSession sid db disk).1 = LocalDb.getSession k db.
Proof.
  unfold LocalDb.getSession, LocalDb.deleteSession. simpl. split.
  - induction (LocalDb.data db) as [|x l IH]; simpl; [done |].
    destruct (String.eqb (id x) sid) eqn:Hx; simpl; [done |]. by rewrite Hx.
  - intros k Hk. induction (LocalDb.data db) as [|x l IH]; simpl; [done |].
    destruct (String.eqb (id x) sid) eqn:Hx; simpl.
    + apply String.eqb_eq in Hx. subst sid.
      apply not_eq_sym, String.eqb_neq in Hk. by rewrite Hk.
    + destruct (String.eqb (id x) k); [done | apply IH].
Qed.

Lemma saveSession_upserts_witness :
  LocalDb.data
    (LocalDb.saveSession (SessionManager.setSummary None summarizedSession)
       {| LocalDb.dbPath := "/home/dev/.store/log-close-data.json";
          LocalDb.data := [futureSession; summarizedSession] |} emptyDisk).1
  = [futureSession; SessionManager.setSummary None summarizedSession].
Proof.
  destruct (saveSession_upserts (SessionManager.setSummary None summarizedSession)
              {| LocalDb.dbPath := "/home/dev/.store/log-close-data.json";
                 LocalDb.data := [futureSession; summarizedSession] |} emptyDisk)
    as [Hreplace _].
  apply (Hreplace [futureSession] summarizedSession []); [reflexivity | | reflexivity].
  apply Forall_cons. split; [discriminate | apply Forall_nil_2].
Defined.

Section FileFacts.
Import LocalDb Live.

Lemma revive_exact s :
  liveSession s = true -> summaryIssues s = [] -> reviveSession (jsonSession s) = s.
Proof.
  intros Hlive Hnone. rewrite revive_session by done.
  destruct s as [? ? ? ? ? sm ? ? ?]. unfold summaryIssues in Hnone.
  simpl in *. f_equal.
  destruct sm as [[? ? ir ? ?]|]; simpl in *; [| done]. by subst ir.
Qed.

End FileFacts.

(** X19. The file is rewritten whole and can be read back whole: after [close]
    (or any successful save) a new [LocalDb] on the same directory holds
    the same sessions in the same order, exactly, when their dates are valid
    and their summaries list no issue. *)
Theorem close_then_reload (path : string) (db : LocalDb.t) (disk : LocalDb.Disk) :
  LocalDb.writable disk = true ->
  LocalDb.dbPath db = path +:+ "/log-close-data.json" ->
  Forall (fun s => Live.liveSession s = true /\ Live.summaryIssues s = [])
         (LocalDb.data db) ->
  LocalDb.data (LocalDb.new path (LocalDb.close db disk)) = LocalDb.data db.
Proof.
  intros Hw Hpath Hlive.
  unfold LocalDb.close, LocalDb.save, LocalDb.new, LocalDb.load. rewrite Hw. simpl.
  rewrite Hpath, lookup_insert_eq.
  induction Hlive as [|s l [Hs Hnone] Hl IH]; [done |].
  rewrite !fmap_cons, IH. by rewrite revive_exact.
Qed.

Lemma close_then_reload_witness :
  LocalDb.data
    (LocalDb.new "/home/dev/.store"
       (LocalDb.close {| LocalDb.dbPath := "/home/dev/.store/log-close-data.json";
                         LocalDb.data := [futureSession] |} emptyDisk))
  = [futureSession].
Proof.
  apply (close_then_reload "/home/dev/.store"
           {| LocalDb.dbPath := "/home/dev/.store/log-close-data.json";
              LocalDb.data := [futureSession] |} emptyDisk);
    [reflexivity | reflexivity |].
  repeat constructor.
Defined.



(** X21. A write that fails is swallowed, and what it leaves on the disk
    depends on where it failed.  [saveSession] returns all the same, with the
    session in the store in memory.  When [writeFileSync] failed at the open,
    the file is as it was and a reload finds what it held before.  When it
    failed after the open, which empties the file, the file no longer parses
    and a reload finds an empty store: the sessions recorded before are lost
    with the new one. *)
Theorem failed_write_outcomes
    (path : string) (s : Session) (db : LocalDb.t) (disk : LocalDb.Disk) :
  LocalDb.writable disk = false ->
  LocalDb.dbPath db = path +:+ "/log-close-data.json" ->
  LocalDb.getSession (id s) (LocalDb.saveSession s db disk).1 = Some s
  /\ (LocalDb.opensBeforeFailing disk = false ->
      (LocalDb.saveSession s db disk).2 = disk
      /\ (LocalDb.deleteSession (id s) db disk).2 = disk
      /\ LocalDb.close db disk = disk
      /\ saveThenReload path s disk = LocalDb.getSession (id s) (LocalDb.new path disk))
  /\ (LocalDb.opensBeforeFailing disk = true ->
      LocalDb.files (LocalDb.saveSession s db disk).2 !! LocalDb.dbPath db
      = Some LocalDb.Corrupt
      /\ LocalDb.data (LocalDb.new path (LocalDb.saveSession s db disk).2) = []
      /\ LocalDb.data (LocalDb.new path (LocalDb.deleteSession (id s) db disk).2) = []
      /\ LocalDb.data (LocalDb.new path (LocalDb.close db disk)) = []
      /\ saveThenReload path s disk = None).
Proof.
  intros Hw Hpath.
  split; [apply find_upsert_same |].
  unfold saveThenReload, LocalDb.saveSession, LocalDb.deleteSession, LocalDb.close,
    LocalDb.save, LocalDb.new, LocalDb.load.
  cbn [fst snd LocalDb.dbPath LocalDb.data]. rewrite Hw, Hpath.
  split; intros Ho; rewrite Ho; [done |].
  cbn [LocalDb.files]. by rewrite !lookup_insert_eq.
Qed.

Lemma failed_write_outcomes_witness :
  let disk := {| LocalDb.files := LocalDb.files futureDisk; LocalDb.writable := false;
                 LocalDb.opensBeforeFailing := true |} in
  LocalDb.data (LocalDb.new "/home/dev/.store" disk) = [futureSession]
  /\ LocalDb.data
       (LocalDb.new "/home/dev/.store"
          (LocalDb.saveSession summarizedSession (LocalDb.new "/home/dev/.store" disk) disk).2)
     = [].
Proof.
  intros disk. split; [by vm_compute |].
  destruct (failed_write_outcomes "/home/dev/.store" summarizedSession
              (LocalDb.new "/home/dev/.store" disk) disk eq_refl eq_refl)
    as (_ & _ & Hlost).
  destruct (Hlost eq_refl) as (_ & Hreload & _). exact Hreload.
Defined.

(** ** LocalDb: the sorted queries *)

Section SortFacts.
Import Queries.
Variable before : Session -> Session -> bool.
Hypothesis before_total : forall a b, before a b = false -> before b a = true.
Hypothesis before_trans :
  forall a b c, before a b = true -> before b c = true -> before a c = true.

Lemma insertSorted_perm x l : insertSorted before x l ≡ₚ x :: l.
Proof.
  induction l as [|y l IH]; simpl; [done |].
  destruct (before x y); [done |]. rewrite IH. apply Permutation_swap.
Qed.

Lemma stableSort_perm l : stableSort before l ≡ₚ l.
Proof.
  induction l as [|x l IH]; simpl; [done |].
  rewrite insertSorted_perm. by constructor.
Qed.

Lemma insertSorted_sorted x l :
  StronglySorted (fun a b => before a b = true) l ->
  StronglySorted (fun a b => before a b = true) (insertSorted before x l).
Proof.
  induction 1 as [|y l Hl IH Hy]; simpl.
  - repeat constructor.
  - destruct (before x y) eqn:Hxy.
    + constructor; [by constructor |]. constructor; [done |].
      eapply Forall_impl; [exact Hy |]. intros z Hz. by eapply before_trans.
    + constructor; [done |].
      rewrite insertSorted_perm. constructor; [by apply before_total | done].
Qed.

Lemma stableSort_sorted l :
  StronglySorted (fun a b => before a b = true) (stableSort before l).
Proof.
  induction l as [|x l IH]; simpl; [constructor | by apply insertSorted_sorted].
Qed.

End SortFacts.

Lemma StronglySorted_weaken {A} (R R' : A -> A -> Prop) (l : list A) :
  (forall a b, R a b -> R' a b) -> StronglySorted R l -> StronglySorted R' l.
Proof.
  intros Himpl. induction 1 as [|x l Hl IH Hx]; constructor; [done |].
  eapply Forall_impl; [exact Hx | apply Himpl].
Qed.

Section QueryFacts.
Import LocalDb Queries.

Lemma startsBefore_total desc a b :
  startsBefore desc a b = false -> startsBefore desc b a = true.
Proof. unfold startsBefore. destruct desc; lia. Qed.

Lemma startsBefore_trans desc a b c :
  startsBefore desc a b = true -> startsBefore desc b c = true ->
  startsBefore desc a c = true.
Proof. unfold startsBefore. destruct desc; lia. Qed.

Lemma startsBefore_class desc t x y :
  startsBefore desc x y = false ->
  is_Some (startMs x) -> is_Some (startMs y) ->
  bool_decide (startMs x = Some t) = true -> bool_decide (startMs y = Some t) = false.
Proof.
  unfold startsBefore. intros Hxy [tx Hx] [ty Hy] Hcls.
  apply bool_decide_eq_true in Hcls. apply bool_decide_eq_false.
  rewrite Hx, Hy in *. simpl in Hxy. injection Hcls as ->.
  intros [= ->]. destruct desc; lia.
Qed.

(** What [sortByStart] gives on sessions that all start at a valid date. *)
Lemma sortByStart_spec desc l :
  Forall (fun s => is_Some (startMs s)) l ->
  exists r,
    sortByStart desc l = Some r
    /\ r ≡ₚ l
    /\ StronglySorted (fun a b => startsBefore desc a b = true) r
    /\ forall t, List.filter (fun s => bool_decide (startMs s = Some t)) r
                 = List.filter (fun s => bool_decide (startMs s = Some t)) l.
Proof.
  intros Hall. unfold sortByStart.
  destruct (length l <=? 1)%nat eqn:Hlen.
  - exists l. split; [done |]. split; [done |]. split; [| done].
    destruct l as [|x [|y l]]; [constructor | repeat constructor | simpl in Hlen; lia].
  - assert (Hb : forallb (fun s => bool_decide (is_Some (startMs s))) l = true).
    { apply forallb_forall. intros s Hs. apply bool_decide_eq_true.
      rewrite Forall_forall in Hall. by apply Hall, list_elem_of_In. }
    rewrite Hb. eexists. split; [reflexivity |].
    split; [apply stableSort_perm |].
    split; [apply stableSort_sorted;
            [apply startsBefore_total | apply startsBefore_trans] |].
    intros t. clear Hlen Hb.
    induction Hall as [|x l Hx Hl IH]; simpl; [done |].
    rewrite <- IH.
    assert (Hsorted : Forall (fun s => is_Some (startMs s))
                        (stableSort (startsBefore desc) l)).
    { by rewrite stableSort_perm. }
    clear IH. induction Hsorted as [|y l' Hy Hl' IH']; simpl; [done |].
    destruct (startsBefore desc x y) eqn:Hxy; simpl; [done |]. rewrite IH'.
    destruct (bool_decide (startMs x = Some t)) eqn:Hcx; [| done].
    by rewrite (startsBefore_class desc t x y Hxy Hx Hy Hcx).
Qed.

End QueryFacts.

(** X22. [getAllSessions] on a store whose sessions all start at a valid date
    returns them all, each once, latest start first, sessions with the same
    start in the order of the store. *)
Theorem getAllSessions_latest_first (db : LocalDb.t) :
  Forall (fun s => is_Some (Queries.startMs s)) (LocalDb.data db) ->
  exists r,
    Queries.getAllSessions db = Some r
    /\ r ≡ₚ LocalDb.data db
    /\ StronglySorted
         (fun a b => forall ta tb, startTime a = DateObj ta -> startTime b = DateObj tb ->
                                   tb <= ta) r
    /\ forall t,
         List.filter (fun s => bool_decide (Queries.startMs s = Some t)) r
         = List.filter (fun s => bool_decide (Queries.startMs s = Some t)) (LocalDb.data db).
Proof.
  intros Hall. destruct (sortByStart_spec true _ Hall) as (r & Hr & Hperm & Hsorted & Hstable).
  exists r. split; [done |]. split; [done |]. split; [| done].
  eapply StronglySorted_weaken; [| exact Hsorted].
  intros a b Hab ta tb Ha Hb. unfold Queries.startsBefore, Queries.startMs in Hab.
  rewrite Ha, Hb in Hab. simpl in Hab. lia.
Qed.

Lemma getAllSessions_latest_first_witness :
  Queries.getAllSessions
    {| LocalDb.dbPath := "/home/dev/.store/log-close-data.json";
       LocalDb.data := [summarizedSession; futureSession] |}
  = Some [futureSession; summarizedSession].
Proof.
  destruct (getAllSessions_latest_first
              {| LocalDb.dbPath := "/home/dev/.store/log-close-data.json";
                 LocalDb.data := [summarizedSession; futureSession] |})
    as (r & Hr & _).
  - repeat constructor; by eexists.
  - rewrite Hr. vm_compute in Hr. exact (eq_sym Hr).
Defined.

(** X23. [getSessionsByDate(date)] on a store whose sessions start at [Date]
    objects, for a [date] whose [setHours(0, 0, 0, 0)] and
    [setHours(23, 59, 59, 999)] are valid dates, returns exactly the stored
    sessions whose start lies between these two, both included, each once,
    earliest start first, sessions with the same start in the order of the
    store.  The two bounds are those of the local day of [date] under the
    rules of the zone; in a zone without clock changes they are 24 hours
    less a millisecond apart and [date] lies between them. *)
Theorem getSessionsByDate_day_ascending
    (zone : TimeZone) (date lo hi : Z) (db : LocalDb.t) :
  localMidnight zone date = Some lo ->
  localEndOfDay zone date = Some hi ->
  Forall (fun s => startTime s = InvalidDate \/ exists t, startTime s = DateObj t)
         (LocalDb.data db) ->
  let day := List.filter (fun s => match startTime s with
                                   | DateObj t => (lo <=? t) && (t <=? hi)
                                   | _ => false
                                   end) (LocalDb.data db) in
  exists r,
    Queries.getSessionsByDate zone date db = Some r
    /\ r ≡ₚ day
    /\ (forall s, s ∈ r <->
          s ∈ LocalDb.data db
          /\ exists t, startTime s = DateObj t /\ lo <= t <= hi)
    /\ StronglySorted
         (fun a b => forall ta tb, startTime a = DateObj ta -> startTime b = DateObj tb ->
                                   ta <= tb) r
    /\ (forall t,
         List.filter (fun s => bool_decide (Queries.startMs s = Some t)) r
         = List.filter (fun s => bool_decide (Queries.startMs s = Some t)) day)
    /\ (forall offset, zone = fixedZone offset ->
         lo <= date <= hi /\ hi = lo + msPerDay - 1).
Proof.
  intros Hlo Hhi Hdates day.
  assert (Hfilter : LocalDb.sessionsOfDay zone date db = Some day).
  { unfold LocalDb.sessionsOfDay. rewrite Hlo, Hhi, filterKnown_known.
    - f_equal. apply List.filter_ext_in. intros s Hin.
      rewrite Forall_forall in Hdates.
      destruct (Hdates s) as [Hs | [t Hs]]; [by apply list_elem_of_In | |];
        rewrite Hs; [done |].
      unfold geDate, leDate, leNum, geNum. simpl. by destruct (lo <=? t).
    - eapply Forall_impl; [exact Hdates |]. intros s [-> | [t ->]]; [by eexists |].
      unfold geDate, leDate. simpl. destruct (lo <=? t); by eexists. }
  assert (Hday : forall s, s ∈ day <->
            s ∈ LocalDb.data db
            /\ exists t, startTime s = DateObj t /\ lo <= t <= hi).
  { intros s. unfold day.
    rewrite !list_elem_of_In, List.filter_In, <- !list_elem_of_In.
    split.
    - intros [Hin Hb]. split; [done |].
      destruct (startTime s) as [t| | |]; try done. exists t. split; [done | lia].
    - intros [Hin (t & Ht & Hb)]. split; [done |]. rewrite Ht. lia. }
  assert (Hall : Forall (fun s => is_Some (Queries.startMs s)) day).
  { apply Forall_forall. intros s Hs. apply Hday in Hs as [_ (t & Ht & _)].
    unfold Queries.startMs. rewrite Ht. by eexists. }
  destruct (sortByStart_spec false _ Hall) as (r & Hr & Hperm & Hsorted & Hstable).
  exists r. unfold Queries.getSessionsByDate. rewrite Hfilter.
  split; [done |]. split; [done |]. split; [| split; [| split; [done |]]].
  - intros s. by rewrite Hperm.
  - eapply StronglySorted_weaken; [| exact Hsorted].
    intros a b Hab ta tb Ha Hb. unfold Queries.startsBefore, Queries.startMs in Hab.
    rewrite Ha, Hb in Hab. simpl in Hab. lia.
  - intros offset ->. by apply (fixedZone_day offset).
Qed.

Lemma getSessionsByDate_day_ascending_witness :
  Queries.getSessionsByDate (fixedZone 3600000) 1793822400000
    {| LocalDb.dbPath := "/home/dev/.store/log-close-data.json";
       LocalDb.data := [futureSession; summarizedSession] |}
  = Some [futureSession].
Proof.
  destruct (getSessionsByDate_day_ascending (fixedZone 3600000) 1793822400000
              1793746800000 1793833199999
              {| LocalDb.dbPath := "/home/dev/.store/log-close-data.json";
                 LocalDb.data := [futureSession; summarizedSession] |} eq_refl eq_refl)
    as (r & Hr & _).
  - repeat (apply Forall_cons; split; [right; by eexists |]). apply Forall_nil_2.
  - rewrite Hr. vm_compute in Hr. exact (eq_sym Hr).
Defined.

(** ** GitSyncer: the other runs of [sync], [initialize] *)

(** X25. With nothing changed in the working copy, [sync] of a ready syncer
    returns [true] after the status call alone: nothing is staged,
    committed, pulled or pushed. *)
Theorem sync_without_changes
    (g : GitSyncer.t) (env : GitSyncer.Env) (tr : list GitSyncer.Event) :
  GitSyncer.hasGit g = true -> GitSyncer.isInitialized g = true ->
  GitSyncer.failure env GitSyncer.Status = None ->
  GitSyncer.changedFiles env = 0%nat ->
  GitSyncer.sync g env tr
  = (GitSyncer.Returned true,
     tr ++ [GitSyncer.Git GitSyncer.Status;
            GitSyncer.ConsoleLog "Git sync: No changes to commit"]).
Proof.
  intros Hgit Hinit Hstatus Hfiles. unfold GitSyncer.sync. rewrite Hgit, Hinit. simpl.
  unfold GitSyncer.tryCatch, mbind, GitSyncer.sync_bind, GitSyncer.bind,
    GitSyncer.git, GitSyncer.note, GitSyncer.ret, GitSyncer.ask.
  rewrite Hstatus, Hfiles. simpl. by rewrite <- app_assoc.
Qed.

Lemma sync_without_changes_witness :
  GitSyncer.sync readySyncer cleanEnv []
  = (GitSyncer.Returned true,
     [GitSyncer.Git GitSyncer.Status;
      GitSyncer.ConsoleLog "Git sync: No changes to commit"]).
Proof.
  apply (sync_without_changes readySyncer cleanEnv []); reflexivity.
Defined.

(** X26. A call of [sync] answers [true] in three kinds of run only: the
    status shows nothing to commit (status alone); status, add, commit,
    pull, and a push that succeeds; or these with a failed push and a push
    with upstream tracking that succeeds.  A call that commits answers
    [true] only if one of its pushes succeeded. *)
Theorem sync_true_means_pushed
    (g : GitSyncer.t) (env : GitSyncer.Env) (evs : list GitSyncer.Event) :
  GitSyncer.sync g env [] = (GitSyncer.Returned true, evs) ->
  (GitSyncer.changedFiles env = 0%nat
   /\ GitSyncer.gitCalls evs = [GitSyncer.Status])
  \/ (GitSyncer.failure env GitSyncer.Push = None
      /\ GitSyncer.gitCalls evs =
           [GitSyncer.Status; GitSyncer.Add;
            GitSyncer.Commit ("Session log update: "
                              +:+ IsoDate.toISOString (GitSyncer.clock env));
            GitSyncer.PullRebase; GitSyncer.Push])
  \/ (is_Some (GitSyncer.failure env GitSyncer.Push)
      /\ GitSyncer.failure env GitSyncer.PushUpstream = None
      /\ GitSyncer.gitCalls evs =
           [GitSyncer.Status; GitSyncer.Add;
            GitSyncer.Commit ("Session log update: "
                              +:+ IsoDate.toISOString (GitSyncer.clock env));
            GitSyncer.PullRebase; GitSyncer.Push; GitSyncer.PushUpstream]).
Proof.
  unfold GitSyncer.sync.
  destruct (GitSyncer.hasGit g), (GitSyncer.isInitialized g); simpl; try done.
  unfold GitSyncer.tryCatch, mbind, GitSyncer.sync_bind, GitSyncer.bind,
    GitSyncer.git, GitSyncer.note, GitSyncer.ret, GitSyncer.ask.
  simpl.
  destruct (GitSyncer.failure env GitSyncer.Status); [done |].
  destruct (GitSyncer.changedFiles env =? 0)%nat eqn:Hfiles.
  { intros [= <-]. left. split; [by apply Nat.eqb_eq | done]. }
  destruct (GitSyncer.failure env GitSyncer.Add); [done |].
  destruct (GitSyncer.failure env (GitSyncer.Commit _)); [done |].
  destruct (GitSyncer.failure env GitSyncer.PullRebase);
    destruct (GitSyncer.failure env GitSyncer.Push) eqn:Hpush;
    destruct (GitSyncer.failure env GitSyncer.PushUpstream) eqn:Hup;
    intros [= <-]; simpl; try (by right; left); right; right; by eauto.
Qed.

Lemma sync_true_means_pushed_witness :
  GitSyncer.changedFiles cleanEnv = 0%nat
  /\ GitSyncer.gitCalls (GitSyncer.sync readySyncer cleanEnv []).2 = [GitSyncer.Status].
Proof.
  destruct (sync_true_means_pushed readySyncer cleanEnv
              (GitSyncer.sync readySyncer cleanEnv []).2 eq_refl)
    as [H | [[_ H] | (_ & _ & H)]]; [exact H | discriminate H | discriminate H].
Defined.

(** X27. A failed pull is tolerated: whether the pull fails, and how, changes
    neither the result of [sync] nor the git calls it makes. *)
Theorem sync_tolerates_failed_pull
    (g : GitSyncer.t) (env : GitSyncer.Env) (o1 o2 : option string) :
  (GitSyncer.sync g (withPullOutcome o1 env) []).1
  = (GitSyncer.sync g (withPullOutcome o2 env) []).1
  /\ GitSyncer.gitCalls (GitSyncer.sync g (withPullOutcome o1 env) []).2
     = GitSyncer.gitCalls (GitSyncer.sync g (withPullOutcome o2 env) []).2.
Proof.
  unfold GitSyncer.sync.
  destruct (GitSyncer.hasGit g), (GitSyncer.isInitialized g); simpl; try done.
  unfold GitSyncer.tryCatch, mbind, GitSyncer.sync_bind, GitSyncer.bind,
    GitSyncer.git, GitSyncer.note, GitSyncer.ret, GitSyncer.ask.
  simpl.
  destruct (GitSyncer.failure env GitSyncer.Status); simpl; [done |].
  destruct (GitSyncer.changedFiles env =? 0)%nat; simpl; [done |].
  destruct (GitSyncer.failure env GitSyncer.Add); simpl; [done |].
  destruct (GitSyncer.failure env (GitSyncer.Commit _)); simpl; [done |].
  destruct o1, o2;
    destruct (GitSyncer.failure env GitSyncer.Push);
    destruct (GitSyncer.failure env GitSyncer.PushUpstream); done.
Qed.

(** X28. [buildRemoteUrl] returns a repo that starts with [https://] or
    [git@] unchanged and turns anything else into
    [https://github.com/<repo>.git]; what it returns it would return
    unchanged, and it always starts with [https://] or [git@]. *)
Theorem buildRemoteUrl_idempotent (repo : string) :
  GitSyncer.buildRemoteUrl (GitSyncer.buildRemoteUrl repo) = GitSyncer.buildRemoteUrl repo
  /\ (GitSyncer.startsWith "https://" (GitSyncer.buildRemoteUrl repo)
      || GitSyncer.startsWith "git@" (GitSyncer.buildRemoteUrl repo)) = true
  /\ (GitSyncer.startsWith "https://" repo || GitSyncer.startsWith "git@" repo = true ->
      GitSyncer.buildRemoteUrl repo = repo)
  /\ (GitSyncer.startsWith "https://" repo || GitSyncer.startsWith "git@" repo = false ->
      GitSyncer.buildRemoteUrl repo = "https://github.com/" +:+ repo +:+ ".git").
Proof.
  unfold GitSyncer.buildRemoteUrl.
  destruct (GitSyncer.startsWith "https://" repo || GitSyncer.startsWith "git@" repo)
    eqn:Hfull.
  - by rewrite Hfull.
  - done.
Qed.

(** X29. Without a configured remote [initialize] returns [false], makes no
    git call, leaves the syncer as it was and does not touch the directory.
    With a remote it throws exactly when the output directory is missing and
    cannot be made, or when [simpleGit] cannot be built on it, and then
    before any git call; otherwise it returns, whatever the git calls do:
    [true] only with the syncer ready and the periodic sync started, and
    [false] without making the syncer ready.  In a directory that is a
    repository already it neither runs [git init] nor adds a remote. *)
Theorem initialize_outcomes (g : GitSyncer.t) (env : GitSyncer.Env) :
  let thrown :=
    if GitSyncer.outputDirExists env then GitSyncer.simpleGitError env
    else match GitSyncer.mkdirError env with
         | Some e => Some e
         | None => GitSyncer.simpleGitError env
         end in
  (GitSyncer.gitRepo env = EmptyString ->
   GitSyncer.initialize g env []
   = (GitSyncer.Returned (g, false),
      [GitSyncer.ConsoleLog "Git sync disabled: no repository configured"]))
  /\ (GitSyncer.gitRepo env <> EmptyString ->
      forall e, thrown = Some e ->
      GitSyncer.initialize g env [] = (GitSyncer.Thrown e, []))
  /\ (GitSyncer.gitRepo env <> EmptyString -> thrown = None ->
      exists g' b evs,
        GitSyncer.initialize g env [] = (GitSyncer.Returned (g', b), evs)
        /\ (b = true ->
            GitSyncer.isReady g' = true /\ GitSyncer.hasGit g' = true
            /\ GitSyncer.StartAutoSync (GitSyncer.gitSyncIntervalMinutes env * 60 * 1000)
               ∈ evs)
        /\ (GitSyncer.isRepo env = true ->
            GitSyncer.gitCalls evs = [GitSyncer.CheckIsRepo])
        /\ (b = false -> GitSyncer.isReady g' = GitSyncer.isReady g)).
Proof.
  intros thrown. subst thrown.
  unfold GitSyncer.initialize, GitSyncer.tryCatch, mbind, GitSyncer.sync_bind,
    GitSyncer.bind, GitSyncer.git, GitSyncer.note, GitSyncer.ret, GitSyncer.ask,
    GitSyncer.failWith.
  simpl.
  destruct (String.eqb (GitSyncer.gitRepo env) EmptyString) eqn:Hrepo; simpl.
  { apply String.eqb_eq in Hrepo. by repeat split. }
  split; [intros Heq; by rewrite Heq in Hrepo |].
  destruct (GitSyncer.outputDirExists env); [| destruct (GitSyncer.mkdirError env)];
    simpl.
  2: { split; [by intros _ e' [= ->] | done]. }
  all: destruct (GitSyncer.simpleGitError env); simpl;
    [split; [by intros _ e' [= ->] | done] |].
  all: split; [done |]; intros _ _.
  all: destruct (GitSyncer.failure env GitSyncer.CheckIsRepo); simpl;
    [do 3 eexists; split; [reflexivity |]; by repeat split |].
  all: destruct (GitSyncer.isRepo env) eqn:Hisrepo; simpl;
    [do 3 eexists; split; [reflexivity |]; repeat split; try done;
     apply list_elem_of_further, list_elem_of_here |].
  all: destruct (GitSyncer.failure env GitSyncer.Init); simpl;
    [do 3 eexists; split; [reflexivity |]; by repeat split |].
  all: destruct (GitSyncer.failure env (GitSyncer.AddRemote _)); simpl;
    [do 3 eexists; split; [reflexivity |]; by repeat split |].
  all: do 3 eexists; split; [reflexivity |]; repeat split; try done.
  all: do 4 apply list_elem_of_further; apply list_elem_of_here.
Qed.

Lemma initialize_outcomes_witness :
  (exists g' evs,
      GitSyncer.initialize GitSyncer.fresh offlineEnv [] = (GitSyncer.Returned (g', true), evs)
      /\ GitSyncer.isReady g' = true
      /\ GitSyncer.gitCalls evs = [GitSyncer.CheckIsRepo])
  /\ GitSyncer.initialize GitSyncer.fresh unreachableEnv []
     = (GitSyncer.Thrown "ENOTDIR: not a directory, mkdir '/home/dev/notes.txt/logs'", []).
Proof.
  split.
  - destruct (initialize_outcomes GitSyncer.fresh offlineEnv) as (_ & _ & Hret).
    destruct (Hret ltac:(discriminate) eq_refl) as (g' & b & evs & Heq & _).
    vm_compute in Heq. injection Heq as <- <- <-.
    do 2 eexists. split; [vm_compute; reflexivity |]. split; reflexivity.
  - destruct (initialize_outcomes GitSyncer.fresh unreachableEnv) as (_ & Hthrown & _).
    apply Hthrown; [discriminate | reflexivity].
Defined.

(** X30. A syncer whose [initialize] failed is not ready, and [sync] on it
    returns [false] without calling git at all. *)
Theorem sync_after_failed_initialize
    (env env' : GitSyncer.Env) (tr tr' : list GitSyncer.Event) (g' : GitSyncer.t) :
  GitSyncer.initialize GitSyncer.fresh env tr = (GitSyncer.Returned (g', false), tr') ->
  GitSyncer.isReady g' = false
  /\ forall tr'', GitSyncer.sync g' env' tr'' = (GitSyncer.Returned false, tr'').
Proof.
  intros Hinit.
  assert (Hready : GitSyncer.isInitialized g' = false).
  { revert Hinit.
    unfold GitSyncer.initialize, GitSyncer.tryCatch, mbind, GitSyncer.sync_bind,
      GitSyncer.bind, GitSyncer.git, GitSyncer.note, GitSyncer.ret, GitSyncer.ask.
    simpl.
    destruct (String.eqb (GitSyncer.gitRepo env) EmptyString); simpl;
      [by intros [= <- _] |].
    unfold GitSyncer.failWith.
    destruct (GitSyncer.outputDirExists env); [| destruct (GitSyncer.mkdirError env)];
      simpl; try done.
    all: destruct (GitSyncer.simpleGitError env); simpl; [done |].
    all: destruct (GitSyncer.failure env GitSyncer.CheckIsRepo); simpl;
      [by intros [= <- _] |].
    all: destruct (GitSyncer.isRepo env); simpl; [done |].
    all: destruct (GitSyncer.failure env GitSyncer.Init); simpl; [by intros [= <- _] |].
    all: destruct (GitSyncer.failure env (GitSyncer.AddRemote _)); simpl;
      [by intros [= <- _] | done]. }
  split; [done |]. intros tr''. unfold GitSyncer.sync. rewrite Hready.
  by rewrite orb_true_r.
Qed.

Lemma sync_after_failed_initialize_witness :
  let r := GitSyncer.initialize GitSyncer.fresh brokenEnv [] in
  r.1 = GitSyncer.Returned
          ({| GitSyncer.hasGit := true; GitSyncer.repoPath := "/home/dev/session-logs";
              GitSyncer.autoSync := false; GitSyncer.isInitialized := false |}, false)
  /\ GitSyncer.sync
       {| GitSyncer.hasGit := true; GitSyncer.repoPath := "/home/dev/session-logs";
          GitSyncer.autoSync := false; GitSyncer.isInitialized := false |} brokenEnv r.2
     = (GitSyncer.Returned false, r.2).
Proof.
  intros r. split; [vm_compute; reflexivity |].
  apply (sync_after_failed_initialize brokenEnv brokenEnv [] r.2).
  vm_compute. reflexivity.
Defined.

(** ** The daily log *)

Section DailyLogFacts.
Import Timeline.

Lemma count_bounds sessions acc :
  let r := foldl count acc sessions in
  (acc.1.1.2 <= acc.1.1.1 -> r.1.1.2 <= r.1.1.1)%nat
  /\ (acc.2 <= acc.1.2 -> r.2 <= r.1.2)%nat
  /\ r.1.1.1 = (acc.1.1.1 + sum_list (length ∘ tasks <$> sessions))%nat
  /\ r.1.2 = (acc.1.2 + sum_list (length ∘ issues <$> sessions))%nat.
Proof.
  revert acc. induction sessions as [|s l IH]; intros [[[total fin] met] solved]; simpl.
  - repeat split; lia.
  - specialize (IH (count (total, fin, met, solved) s)). simpl in IH.
    destruct IH as (H1 & H2 & H3 & H4).
    pose proof (List.filter_length_le isCompleted (tasks s)).
    pose proof (List.filter_length_le resolved (issues s)).
    split; [intros; apply H1; lia |]. split; [intros; apply H2; lia |].
    rewrite H3, H4. split; symmetry; apply Nat.add_assoc.
Qed.

Lemma digitChar_not_T n : Ascii.eqb (IsoDate.digitChar n) "T" = false.
Proof.
  unfold IsoDate.digitChar.
  assert (Hk : 0 <= n `mod` 10 <= 9) by (pose proof (Z.mod_pos_bound n 10); lia).
  assert (Hcases : n `mod` 10 = 0 \/ n `mod` 10 = 1 \/ n `mod` 10 = 2 \/ n `mod` 10 = 3
                   \/ n `mod` 10 = 4 \/ n `mod` 10 = 5 \/ n `mod` 10 = 6
                   \/ n `mod` 10 = 7 \/ n `mod` 10 = 8 \/ n `mod` 10 = 9) by lia.
  repeat (destruct Hcases as [-> | Hcases]; [reflexivity |]). by rewrite Hcases.
Qed.

Lemma beforeT_pad w n rest :
  beforeT (IsoDate.pad w n +:+ rest) = IsoDate.pad w n +:+ beforeT rest.
Proof.
  revert n. induction w as [|w IH]; intros n; [done |].
  rewrite pad_S, !append_String. cbn [beforeT].
  by rewrite digitChar_not_T, IH.
Qed.

Lemma beforeT_yearText y rest :
  beforeT (IsoDate.yearText y +:+ rest) = IsoDate.yearText y +:+ beforeT rest.
Proof.
  unfold IsoDate.yearText.
  destruct ((0 <=? y) && (y <=? 9999)); [apply beforeT_pad |].
  destruct (y <? 0); rewrite !append_String; cbn [beforeT]; simpl Ascii.eqb;
    by rewrite beforeT_pad.
Qed.

Lemma beforeT_char c rest :
  Ascii.eqb c "T" = false ->
  beforeT (String c EmptyString +:+ rest) = String c EmptyString +:+ beforeT rest.
Proof. intros Hc. rewrite !append_String. cbn [beforeT]. by rewrite Hc. Qed.

Lemma beforeT_T rest : beforeT (String "T" EmptyString +:+ rest) = EmptyString.
Proof. by rewrite append_String. Qed.

Lemma append_empty s : s +:+ EmptyString = s.
Proof. induction s as [|c s IH]; [done |]. by rewrite append_String, IH. Qed.

End DailyLogFacts.

(** X24. The daily log lists the sessions [getSessionsByDate] returns, counts
    all their tasks and issues, and never counts more completed tasks than
    tasks or more resolved issues than issues.  Its [date] is the calendar
    date of the instant in UTC, [YYYY-MM-DD], while the sessions are those of
    the local day. *)
Theorem getDailyLog_counts
    (zone : TimeZone) (day : Z) (db : LocalDb.t) (log : Timeline.DailyLog) :
  Timeline.getDailyLog zone day db = Some log ->
  Queries.getSessionsByDate zone day db = Some (Timeline.log_sessions log)
  /\ Timeline.totalTasks log = sum_list (length ∘ tasks <$> Timeline.log_sessions log)
  /\ Timeline.issuesEncountered log
     = sum_list (length ∘ issues <$> Timeline.log_sessions log)
  /\ (Timeline.completedTasks log <= Timeline.totalTasks log)%nat
  /\ (Timeline.issuesResolved log <= Timeline.issuesEncountered log)%nat
  /\ Timeline.date log
     = (let '(y, m, d) := IsoDate.civilFromDays (day / msPerDay) in
        IsoDate.yearText y +:+ "-" +:+ IsoDate.pad 2 m +:+ "-" +:+ IsoDate.pad 2 d).
Proof.
  unfold Timeline.getDailyLog.
  destruct (Queries.getSessionsByDate zone day db) as [sessions|]; [| done].
  cbn [mbind option_bind].
  pose proof (count_bounds sessions (0, 0, 0, 0)%nat) as Hb. simpl in Hb.
  destruct (foldl Timeline.count (0, 0, 0, 0)%nat sessions) as [[[total fin] met] solved].
  simpl in Hb. destruct Hb as (H1 & H2 & H3 & H4).
  intros [= <-].
  cbn [Timeline.date Timeline.log_sessions Timeline.totalTasks Timeline.completedTasks
       Timeline.issuesEncountered Timeline.issuesResolved].
  repeat split; try done; try lia.
  unfold IsoDate.toISOString.
  destruct (IsoDate.civilFromDays (day / msPerDay)) as [[y m] d].
  rewrite beforeT_yearText, beforeT_char, beforeT_pad, beforeT_char, beforeT_pad,
    beforeT_T by reflexivity.
  by rewrite append_empty.
Qed.

Lemma getDailyLog_counts_witness :
  exists log,
    Timeline.getDailyLog (fixedZone 3600000) 1793649600123
      {| LocalDb.dbPath := "/home/dev/.store/log-close-data.json";
         LocalDb.data := [futureSession; summarizedSession] |} = Some log
    /\ (Timeline.completedTasks log <= Timeline.totalTasks log)%nat
    /\ Timeline.date log = "2026-11-02".
Proof.
  eexists. split; [vm_compute; reflexivity |].
  split; [| reflexivity].
  refine (proj1 (proj2 (proj2 (proj2
            (getDailyLog_counts (fixedZone 3600000) 1793649600123
               {| LocalDb.dbPath := "/home/dev/.store/log-close-data.json";
                  LocalDb.data := [futureSession; summarizedSession] |} _ _))))).
  vm_compute. reflexivity.
Defined.

(** X10. [addTask] and [addIssue] on a current session append to its tasks or
    issues an item that names the session and is dated now, and do nothing
    else: they are no activity, the last-activity time and the pending
    timeout stay as they were, so does the history, and no event is
    flushed. *)
Theorem addTask_is_not_activity
    (task : TaskInput) (issue : IssueInput) (m : SessionManager.t) (h : Host) (s : Session) :
  SessionManager.currentSession m = Some s ->
  (exists t,
      SessionManager.addTask task m h
      = (Some t, SessionManager.withCurrent (Some (SessionManager.pushTask t s)) m,
         (generateId h).2)
      /\ task_sessionId t = id s /\ task_createdAt t = DateObj (now h)
      /\ task_description t = ti_description task /\ status t = ti_status task)
  /\ (exists i,
        SessionManager.addIssue issue m h
        = (Some i, SessionManager.withCurrent (Some (SessionManager.pushIssue i s)) m,
           (generateId h).2)
        /\ issue_sessionId i = id s /\ issue_createdAt i = DateObj (now h)
        /\ issue_description i = ii_description issue)
  /\ timers (SessionManager.addTask task m h).2 = timers h
  /\ timers (SessionManager.addIssue issue m h).2 = timers h
  /\ SessionManager.lastActivityTime (SessionManager.addTask task m h).1.2
     = SessionManager.lastActivityTime m
  /\ SessionManager.lastActivityTime (SessionManager.addIssue issue m h).1.2
     = SessionManager.lastActivityTime m.
Proof.
  intros Hcur. unfold SessionManager.addTask, SessionManager.addIssue. rewrite Hcur.
  simpl. split; [eexists; by repeat split |]. split; [eexists; by repeat split |]. done.
Qed.

Lemma addTask_is_not_activity_witness :
  let r0 := SessionManager.startSession (SessionManager.new sampleHost) sampleHost in
  timers (SessionManager.addTask
            {| ti_description := "write tests"; ti_status := pending;
               ti_completedAt := None |} r0.1.2 (elapse 300000 r0.2)).2
  = timers (elapse 300000 r0.2).
Proof.
  intros r0.
  destruct (addTask_is_not_activity
              {| ti_description := "write tests"; ti_status := pending;
                 ti_completedAt := None |}
              {| ii_description := "build fails"; ii_resolution := None;
                 ii_resolved := false; ii_resolvedAt := None |}
              r0.1.2 (elapse 300000 r0.2) r0.1.1 eq_refl)
    as (_ & _ & Ht & _).
  exact Ht.
Defined.

(** X9. [dispose] with a session current does what [endSession] does: the
    session is flushed, finalized and moved to the history, the observers are
    called, no timeout stays pending; manager and host end up the same. *)
Theorem dispose_is_endSession (m : SessionManager.t) (h : Host) (s : Session) :
  State.wf m h ->
  SessionManager.currentSession m = Some s ->
  SessionManager.dispose m h
  = ((SessionManager.endSession m h).1.2, (SessionManager.endSession m h).2)
  /\ SessionManager.currentSession (SessionManager.dispose m h).1 = None
  /\ timers (SessionManager.dispose m h).2 = ∅.
Proof.
  intros Hwf Hcur.
  assert (Hcb := State.wf_callback _ _ Hwf).
  assert (Hclear : timers (SessionManager.clearSessionTimer m h) = ∅)
    by (apply clearSessionTimer_timers, Hwf).
  assert (Htwice : SessionManager.clearSessionTimer m (SessionManager.clearSessionTimer m h)
                   = SessionManager.clearSessionTimer m h).
  { unfold SessionManager.clearSessionTimer at 1.
    destruct (SessionManager.sessionTimeoutTimer m) as [handle|]; [| done].
    unfold clearTimeout, withTimers. rewrite Hclear, delete_empty, <- Hclear.
    by destruct (SessionManager.clearSessionTimer m h). }
  unfold SessionManager.dispose. rewrite Hcur, (State.wf_current _ _ Hwf s Hcur).
  rewrite !(endSession_some m _ s Hcb Hcur). simpl.
  rewrite Htwice, !clearSessionTimer_now. by rewrite Hclear.
Qed.

Lemma dispose_is_endSession_witness :
  let r0 := SessionManager.startSession (SessionManager.new sampleHost) sampleHost in
  SessionManager.currentSession (SessionManager.dispose r0.1.2 r0.2).1 = None
  /\ timers (SessionManager.dispose r0.1.2 r0.2).2 = ∅.
Proof.
  intros r0.
  destruct (dispose_is_endSession r0.1.2 r0.2 r0.1.1) as (_ & Hc & Ht).
  - apply wf_startSession, wf_new. reflexivity.
  - reflexivity.
  - split; [exact Hc | exact Ht].
Defined.
